(** * The conversational to-do list: a shallow embedding of [main.py]

    The program keeps one task forest in the session, replaces it by
    whatever JSON value the language model's reply parses to, and renders
    it with [render_tasks], a recursive traversal that also serves the
    per-task widgets (completed checkbox, add-subtask, delete).

    Conventions of the embedding.
    - A Python [str] is a list of code points ([N]).
    - A value built by [json.loads] is a [pyval]; a [dict] is an association
      list in insertion order, read at the first entry of a key.
    - The values the program mutates in place form a tree (the decoder
      never shares a sub-value and [append] adds a fresh dict), so an
      in-place write is modelled by returning the updated tree.
    - The decoder follows CPython's [json] decoder, the two limits of
      the interpreter included: nesting deeper than the recursion limit
      allows raises [RecursionError], an integer literal with more digits
      than [sys.get_int_max_str_digits()] raises [ValueError]. Both leave
      the handler of lines 155-162, which catches [JSONDecodeError] and
      [TypeError] only.
    - A Streamlit call is taken to return: an exception raised inside one
      (such as the [UnicodeEncodeError] of a label that holds a lone
      surrogate) is outside the embedding. *)

From Stdlib Require Import List NArith ZArith Bool Arith Lia String Ascii.
From Stdlib Require Import DecimalNat.
Import ListNotations.

Set Warnings "-register-all".

(** ** Python strings *)

Module PyStr.

Definition pystr := list N.

(** The code points of a literal of the source. *)
Definition py (s : string) : pystr :=
  map N_of_ascii (list_ascii_of_string s).

Fixpoint eqb (a b : pystr) : bool :=
  match a, b with
  | [], [] => true
  | x :: a', y :: b' => N.eqb x y && eqb a' b'
  | _, _ => false
  end.

(** [str.isspace] on one code point (the Unicode white-space table of
    CPython). *)
Definition isspace (c : N) : bool :=
  ((9 <=? c) && (c <=? 13) || (28 <=? c) && (c <=? 32)
   || (c =? 133) || (c =? 160) || (c =? 5760)
   || (8192 <=? c) && (c <=? 8202)
   || (c =? 8232) || (c =? 8233) || (c =? 8239) || (c =? 8287)
   || (c =? 12288))%N.

Fixpoint lstrip (s : pystr) : pystr :=
  match s with
  | c :: r => if isspace c then lstrip r else s
  | [] => []
  end.

Definition rstrip (s : pystr) : pystr := rev (lstrip (rev s)).

(** [s.strip()] *)
Definition strip (s : pystr) : pystr := rstrip (lstrip s).

Fixpoint startswith (s p : pystr) : bool :=
  match p, s with
  | [], _ => true
  | x :: p', y :: s' => N.eqb x y && startswith s' p'
  | _ :: _, [] => false
  end.

(** [s.replace(old, new)] for a non-empty [old]: occurrences are taken
    left to right and do not overlap; [skip] counts the characters of a
    match that are still to be dropped. *)
Fixpoint replace_from (old new : pystr) (skip : nat) (s : pystr) : pystr :=
  match s with
  | [] => []
  | c :: r =>
      match skip with
      | S k => replace_from old new k r
      | O =>
          if startswith s old
          then new ++ replace_from old new (List.length old - 1) r
          else c :: replace_from old new 0 r
      end
  end.

Definition replace (s old new : pystr) : pystr := replace_from old new 0 s.

(** Decimal digits of a non-negative [int], as [str(i)] and an f-string
    print them. *)
Fixpoint digits (d : Decimal.uint) : pystr :=
  match d with
  | Decimal.Nil => []
  | Decimal.D0 u => 48%N :: digits u
  | Decimal.D1 u => 49%N :: digits u
  | Decimal.D2 u => 50%N :: digits u
  | Decimal.D3 u => 51%N :: digits u
  | Decimal.D4 u => 52%N :: digits u
  | Decimal.D5 u => 53%N :: digits u
  | Decimal.D6 u => 54%N :: digits u
  | Decimal.D7 u => 55%N :: digits u
  | Decimal.D8 u => 56%N :: digits u
  | Decimal.D9 u => 57%N :: digits u
  end.

Definition str_of_nat (n : nat) : pystr := digits (Nat.to_uint n).

End PyStr.
Export PyStr.

(** ** Python values *)

(** A [float] is kept as the decimal it was read from: the program never
    computes with one, it only tests its truth value. *)
Inductive pyfloat : Type :=
| FDec (neg : bool) (mant : N) (exp10 : Z)
| FNaN
| FInf (neg : bool).

Inductive pyval : Type :=
| PNone
| PBool (b : bool)
| PInt (z : Z)
| PFloat (f : pyfloat)
| PStr (s : pystr)
| PList (l : list pyval)
| PDict (d : list (pystr * pyval)).

Definition pydict := list (pystr * pyval).

(** [float(lexeme) == 0.0]: the decimal is zero, or so small that the
    nearest double is zero (at most 2^-1075 in magnitude). *)
Definition float_is_zero (f : pyfloat) : bool :=
  match f with
  | FDec _ mant e =>
      if (0 <=? e)%Z then N.eqb mant 0
      else (Z.of_N mant * 2 ^ 1075 <=? 10 ^ (- e))%Z
  | FNaN => false
  | FInf _ => false
  end.

(** [bool(v)] *)
Definition truthy (v : pyval) : bool :=
  match v with
  | PNone => false
  | PBool b => b
  | PInt z => negb (Z.eqb z 0)
  | PFloat f => negb (float_is_zero f)
  | PStr s => match s with [] => false | _ => true end
  | PList l => match l with [] => false | _ => true end
  | PDict d => match d with [] => false | _ => true end
  end.

Module Dict.

(** [k in d] and [d[k]] *)
Fixpoint get (d : pydict) (k : pystr) : option pyval :=
  match d with
  | [] => None
  | (k', v) :: d' => if PyStr.eqb k' k then Some v else get d' k
  end.

(** [d.get(k, default)] *)
Definition get_default (d : pydict) (k : pystr) (default : pyval) : pyval :=
  match get d k with
  | Some v => v
  | None => default
  end.

(** [d[k] = v]: an existing key keeps its place, a new one goes last. *)
Fixpoint set (d : pydict) (k : pystr) (v : pyval) : pydict :=
  match d with
  | [] => [(k, v)]
  | (k', v') :: d' =>
      if PyStr.eqb k' k then (k', v) :: d' else (k', v') :: set d' k v
  end.

End Dict.

(** ** Exceptions and the limits of the interpreter *)

(** The exceptions the operations of the source raise. *)
Inductive pyexn : Type :=
| AttributeError
| KeyError
| TypeError
| RecursionError
| ValueError
| JSONDecodeError.

(** What the decoder can run into: [recursion_left], the number of nested
    arrays and objects the scanner may still enter when [json.loads] is
    called (the recursion limit less the calls under way), and
    [int_max_str_digits], the value of [sys.get_int_max_str_digits()]
    (4300 unless configured, 0 for no limit). *)
Record limits : Type := mkLimits {
  recursion_left : nat;
  int_max_str_digits : nat
}.

(** An interpreter with the default digit limit and 900 levels of
    recursion left, used in the examples. *)
Definition sample_limits : limits :=
  {| recursion_left := 900; int_max_str_digits := 4300 |}.

(** ** The JSON decoder ([json.loads]) *)

Module Json.

(** What scanning gives: a value and the text after it, a
    [JSONDecodeError], another exception, or the end of the fuel. *)
Inductive scan (A : Type) : Type :=
| Scanned (a : A) (rest : pystr)
| DecodeError
| Escaped (e : pyexn)
| Exhausted.
Arguments Scanned {A} a rest.
Arguments DecodeError {A}.
Arguments Escaped {A} e.
Arguments Exhausted {A}.

(** The white space of the JSON grammar: space, tab, line feed, return. *)
Definition is_ws (c : N) : bool :=
  ((c =? 32) || (c =? 9) || (c =? 10) || (c =? 13))%N.

Fixpoint skip_ws (s : pystr) : pystr :=
  match s with
  | c :: r => if is_ws c then skip_ws r else s
  | [] => []
  end.

Definition is_digit (c : N) : bool := ((48 <=? c) && (c <=? 57))%N.

Fixpoint scan_digits (s : pystr) : pystr * pystr :=
  match s with
  | c :: r =>
      if is_digit c
      then let (ds, r') := scan_digits r in (c :: ds, r')
      else ([], s)
  | [] => ([], [])
  end.

Definition num_of_digits (ds : pystr) : N :=
  fold_left (fun acc c => (10 * acc + (c - 48))%N) ds 0%N.

(** The integer part of a number: [0], or a non-zero digit and digits. *)
Definition scan_int_part (s : pystr) : option (pystr * pystr) :=
  match s with
  | c :: r =>
      if N.eqb c 48 then Some ([c], r)
      else if is_digit c then Some (scan_digits s)
      else None
  | [] => None
  end.

(** The optional fraction: a point and at least one digit. *)
Definition scan_frac (s : pystr) : option (pystr * pystr) :=
  match s with
  | c :: r =>
      if N.eqb c 46 then
        match scan_digits r with
        | ([], _) => None
        | (ds, r') => Some (ds, r')
        end
      else None
  | [] => None
  end.

(** An optional sign of an exponent. *)
Definition scan_sign (s : pystr) : bool * pystr :=
  match s with
  | c :: r =>
      if N.eqb c 45 then (true, r)
      else if N.eqb c 43 then (false, r)
      else (false, s)
  | [] => (false, [])
  end.

(** The optional exponent: [e] or [E], an optional sign, at least one
    digit. *)
Definition scan_exp (s : pystr) : option (Z * pystr) :=
  match s with
  | c :: r =>
      if (N.eqb c 101 || N.eqb c 69)%bool then
        let (neg, r1) := scan_sign r in
        match scan_digits r1 with
        | ([], _) => None
        | (ds, r2) =>
            let e := Z.of_N (num_of_digits ds) in
            Some (if neg then (- e)%Z else e, r2)
        end
      else None
  | [] => None
  end.

(** The leading minus of a number. *)
Definition scan_minus (s : pystr) : bool * pystr :=
  match s with
  | c :: r => if N.eqb c 45 then (true, r) else (false, s)
  | [] => (false, [])
  end.

(** [int(lexeme)] refuses a literal of more than [max_digits] digits
    (the check is made above 640 digits only, and not at all when the
    limit is 0). *)
Definition too_many_digits (max_digits n : nat) : bool :=
  (640 <? n) && (0 <? max_digits) && (max_digits <? n).

(** A number is an [int] unless it has a fraction or an exponent. *)
Definition scan_number (max_digits : nat) (s : pystr) : scan pyval :=
  let (neg, s1) := scan_minus s in
  match scan_int_part s1 with
  | None => DecodeError
  | Some (ip, r1) =>
      let (fp, r2) :=
        match scan_frac r1 with
        | Some (ds, r) => (Some ds, r)
        | None => (None, r1)
        end in
      let (ep, r3) :=
        match scan_exp r2 with
        | Some (e, r) => (Some e, r)
        | None => (None, r2)
        end in
      match fp, ep with
      | None, None =>
          if too_many_digits max_digits (List.length ip)
          then Escaped ValueError
          else
            let n := Z.of_N (num_of_digits ip) in
            Scanned (PInt (if neg then (- n)%Z else n)) r3
      | _, _ =>
          let fd := match fp with Some ds => ds | None => [] end in
          let e := match ep with Some e => e | None => 0%Z end in
          Scanned (PFloat (FDec neg (num_of_digits (ip ++ fd))
                             (e - Z.of_nat (List.length fd)))) r3
      end
  end.

Definition hex_val (c : N) : option N :=
  (if (48 <=? c) && (c <=? 57) then Some (c - 48)
   else if (97 <=? c) && (c <=? 102) then Some (c - 87)
   else if (65 <=? c) && (c <=? 70) then Some (c - 55)
   else None)%N.

Definition hex4 (a b c d : N) : option N :=
  match hex_val a, hex_val b, hex_val c, hex_val d with
  | Some x, Some y, Some z, Some w => Some (((x * 16 + y) * 16 + z) * 16 + w)%N
  | _, _, _, _ => None
  end.

Definition is_high_surrogate (c : N) : bool := ((55296 <=? c) && (c <=? 56319))%N.
Definition is_low_surrogate (c : N) : bool := ((56320 <=? c) && (c <=? 57343))%N.
Definition join_surrogates (hi lo : N) : N :=
  (65536 + ((hi - 55296) * 1024 + (lo - 56320)))%N.

Definition simple_escape (c : N) : option N :=
  (if c =? 34 then Some 34
   else if c =? 92 then Some 92
   else if c =? 47 then Some 47
   else if c =? 98 then Some 8
   else if c =? 102 then Some 12
   else if c =? 110 then Some 10
   else if c =? 114 then Some 13
   else if c =? 116 then Some 9
   else None)%N.

(** The body of a string, after its opening quote (strict mode: no raw
    control character). [acc] is the decoded text so far, reversed. A
    high surrogate followed by an escaped low surrogate is one character. *)
Fixpoint scan_string (s : pystr) (acc : pystr) : option (pystr * pystr) :=
  match s with
  | [] => None
  | c :: r =>
      if N.eqb c 34 then Some (rev acc, r)
      else if N.eqb c 92 then
        match r with
        | [] => None
        | e :: r1 =>
            if N.eqb e 117 then
              match r1 with
              | a :: b :: c2 :: d :: r2 =>
                  match hex4 a b c2 d with
                  | None => None
                  | Some u =>
                      match r2 with
                      | b1 :: b2 :: a' :: b' :: c' :: d' :: r3 =>
                          if is_high_surrogate u && N.eqb b1 92 && N.eqb b2 117
                          then
                            match hex4 a' b' c' d' with
                            | Some lo =>
                                if is_low_surrogate lo
                                then scan_string r3 (join_surrogates u lo :: acc)
                                else scan_string r2 (u :: acc)
                            | None => None
                            end
                          else scan_string r2 (u :: acc)
                      | _ => scan_string r2 (u :: acc)
                      end
                  end
              | _ => None
              end
            else
              match simple_escape e with
              | Some x => scan_string r1 (x :: acc)
              | None => None
              end
        end
      else if (c <=? 31)%N then None
      else scan_string r (c :: acc)
  end.

(** One JSON value at the head of [s]. [parse_elems] reads the elements
    of an array after its bracket, [parse_members] the members of an
    object from just after the opening quote of a key. [depth] is the
    number of arrays and objects that may still be entered: the scanner
    raises [RecursionError] at the bracket or brace that would go
    deeper. *)
Fixpoint parse_value (max_digits : nat) (fuel depth : nat) (s : pystr)
  : scan pyval :=
  match fuel with
  | O => Exhausted
  | S f =>
      match s with
      | [] => DecodeError
      | c :: r =>
          if N.eqb c 34 then
            match scan_string r [] with
            | Some (x, r') => Scanned (PStr x) r'
            | None => DecodeError
            end
          else if N.eqb c 123 then
            match depth with
            | O => Escaped RecursionError
            | S d =>
                match skip_ws r with
                | [] => DecodeError
                | c' :: r' =>
                    if N.eqb c' 125 then Scanned (PDict []) r'
                    else if N.eqb c' 34 then parse_members max_digits f d r' []
                    else DecodeError
                end
            end
          else if N.eqb c 91 then
            match depth with
            | O => Escaped RecursionError
            | S d =>
                match skip_ws r with
                | [] => DecodeError
                | c' :: r' =>
                    if N.eqb c' 93 then Scanned (PList []) r'
                    else parse_elems max_digits f d (c' :: r') []
                end
            end
          else if startswith s (py "null") then Scanned PNone (skipn 4 s)
          else if startswith s (py "true") then Scanned (PBool true) (skipn 4 s)
          else if startswith s (py "false") then Scanned (PBool false) (skipn 5 s)
          else if startswith s (py "NaN") then Scanned (PFloat FNaN) (skipn 3 s)
          else if startswith s (py "Infinity")
            then Scanned (PFloat (FInf false)) (skipn 8 s)
          else if startswith s (py "-Infinity")
            then Scanned (PFloat (FInf true)) (skipn 9 s)
          else scan_number max_digits s
      end
  end
with parse_elems (max_digits : nat) (fuel depth : nat) (s : pystr)
    (acc : list pyval) : scan pyval :=
  match fuel with
  | O => Exhausted
  | S f =>
      match parse_value max_digits f depth s with
      | Scanned v r =>
          match skip_ws r with
          | [] => DecodeError
          | c :: r' =>
              if N.eqb c 93 then Scanned (PList (rev (v :: acc))) r'
              else if N.eqb c 44
              then parse_elems max_digits f depth (skip_ws r') (v :: acc)
              else DecodeError
          end
      | DecodeError => DecodeError
      | Escaped e => Escaped e
      | Exhausted => Exhausted
      end
  end
with parse_members (max_digits : nat) (fuel depth : nat) (s : pystr)
    (acc : pydict) : scan pyval :=
  match fuel with
  | O => Exhausted
  | S f =>
      match scan_string s [] with
      | None => DecodeError
      | Some (k, r) =>
          match skip_ws r with
          | [] => DecodeError
          | c :: r1 =>
              if N.eqb c 58 then
                match parse_value max_digits f depth (skip_ws r1) with
                | Scanned v r2 =>
                    match skip_ws r2 with
                    | [] => DecodeError
                    | c' :: r3 =>
                        if N.eqb c' 125 then Scanned (PDict (Dict.set acc k v)) r3
                        else if N.eqb c' 44 then
                          match skip_ws r3 with
                          | [] => DecodeError
                          | q :: r4 =>
                              if N.eqb q 34
                              then parse_members max_digits f depth r4
                                     (Dict.set acc k v)
                              else DecodeError
                          end
                        else DecodeError
                    end
                | DecodeError => DecodeError
                | Escaped e => Escaped e
                | Exhausted => Exhausted
                end
              else DecodeError
          end
      end
  end.

(** What a call gives: a value, or the exception it raises. *)
Inductive decoded : Type :=
| Value (v : pyval)
| Raises (e : pyexn).

(** [json.loads(s)]. The fuel is never used up ([loads_fuel]). *)
Definition loads (lim : limits) (s : pystr) : decoded :=
  if startswith s [65279%N] then Raises JSONDecodeError
  else
    match parse_value (int_max_str_digits lim) (2 * List.length s + 1)
            (recursion_left lim) (skip_ws s) with
    | Scanned v r =>
        match skip_ws r with
        | [] => Value v
        | _ => Raises JSONDecodeError
        end
    | Escaped e => Raises e
    | _ => Raises JSONDecodeError
    end.

End Json.

(** ** The session and the reply of the model (main, lines 154-162) *)

Record session : Type := mkSession {
  todo_list : pyval;
  chat_response : option pystr
}.

(** [initialize_session_state] on a fresh session. *)
Definition initial_session : session :=
  {| todo_list := PList []; chat_response := None |}.

Definition fence_json : pystr := py "```json".
Definition fence : pystr := py "```".

(** What the handler does with a reply: assign the decoded value to the
    list, keep the reply as the chat answer, nothing at all (the guard
    [if ai_response:] fails on [None] and on the empty text), or let an
    exception of the decoder through, which ends the run at line 157. *)
Inductive reply : Type :=
| Replace (new_list : pyval)
| Message (text : pystr)
| Ignored
| Uncaught (e : pyexn).

(** The [except] clause of line 161. *)
Definition caught (e : pyexn) : bool :=
  match e with
  | JSONDecodeError | TypeError => true
  | _ => false
  end.

(** Line 156 *)
Definition cleaned (raw : pystr) : pystr :=
  replace (replace (strip raw) fence_json []) fence [].

Definition interpret (lim : limits) (ai_response : option pystr) : reply :=
  match ai_response with
  | None => Ignored
  | Some [] => Ignored
  | Some raw =>
      let json_response := cleaned raw in
      match Json.loads lim json_response with
      | Json.Value new_list => Replace new_list
      | Json.Raises e => if caught e then Message raw else Uncaught e
      end
  end.

(** The session after lines 154-162; an exception that leaves line 157
    has assigned nothing. *)
Definition apply_reply (st : session) (r : reply) : session :=
  match r with
  | Replace new_list => {| todo_list := new_list; chat_response := None |}
  | Message text => {| todo_list := todo_list st; chat_response := Some text |}
  | Ignored => st
  | Uncaught _ => st
  end.

Definition handle_response (lim : limits) (st : session)
    (ai_response : option pystr) : session :=
  apply_reply st (interpret lim ai_response).

(** ** The widgets *)

(** The state of the page as one run of the script sees it: per widget
    key, the checkbox state ([None]: the widget returns its [value]
    argument, as a checkbox does that was not toggled away from the flag
    it is drawn from), the text typed in an input, whether a button was
    clicked. *)
Record widgets : Type := mkWidgets {
  checkbox : pystr -> option bool;
  text_input : pystr -> pystr;
  button : pystr -> bool
}.

(** Nothing typed, toggled or clicked. *)
Definition quiet : widgets :=
  {| checkbox := fun _ => None; text_input := fun _ => []; button := fun _ => false |}.

(** How a call of [render_tasks] ends: it returns its two counters, or
    [st.rerun()] stops the script, or an exception escapes. *)
Inductive outcome : Type :=
| Returned (total completed : nat)
| Rerun
| Raised (e : pyexn).

(** ** render_tasks (lines 45-104) *)

Definition k_task : pystr := py "task".
Definition k_priority : pystr := py "priority".
Definition k_completed : pystr := py "completed".
Definition k_sub_tasks : pystr := py "sub_tasks".
Definition Medium : pystr := py "Medium".
Definition no_description : pystr := py "No task description".

(** The dict made of a bare string (line 52). *)
Definition legacy_item (s : pystr) : pydict :=
  [(k_task, PStr s); (k_priority, PStr Medium); (k_completed, PBool false)].

(** Lines 51-54: a bare string becomes a fresh dict, anything else is
    taken as it is. *)
Definition normalize (raw_item : pyval) : pyval :=
  match raw_item with
  | PStr s => PDict (legacy_item s)
  | _ => raw_item
  end.

(** What [tasks] holds at the entry once [item] was written to: the
    dict itself, or still the bare string the dict was made from. *)
Definition stored_as (raw_item : pyval) (item : pydict) : pyval :=
  match raw_item with
  | PStr _ => raw_item
  | _ => PDict item
  end.

(** Line 60 *)
Definition task_key (parent_key : pystr) (level i : nat) : pystr :=
  parent_key ++ py "_" ++ str_of_nat level ++ py "_" ++ str_of_nat i.

(** The dict appended by "Add Subtask" (lines 82-86). *)
Definition new_subtask (text : pystr) : pyval :=
  PDict [(k_task, PStr text); (k_priority, PStr Medium); (k_completed, PBool false)].

(** [item["sub_tasks"]] when it is a list. *)
Definition sub_tasks_of (item : pydict) : option (list pyval) :=
  match Dict.get item k_sub_tasks with
  | Some (PList l) => Some l
  | _ => None
  end.

(** What one turn of the loop leaves: the entry as stored in [tasks]
    afterwards, and whether the loop goes on. *)
Inductive item_result : Type :=
| Continue (stored : pyval) (total completed : nat)
| Stop (stored : pyval) (o : outcome)
| DeleteMe (stored : pyval).

(** The keys of the text input and of the two buttons of a task (lines
    76, 78 and 90). *)
Definition input_sub (key : pystr) : pystr := py "input_sub_" ++ key.
Definition btn_add_sub (key : pystr) : pystr := py "btn_add_sub_" ++ key.
Definition btn_del (key : pystr) : pystr := py "btn_del_" ++ key.

(** Lines 64-68: the state of the checkbox, which starts from the
    [completed] of the item. *)
Definition checkbox_status (ui : widgets) (key : pystr) (item : pydict) : bool :=
  match checkbox ui (py "chk_" ++ key) with
  | Some b => b
  | None => truthy (Dict.get_default item k_completed (PBool false))
  end.

(** Lines 57-102 on the dict [item]; [store] says what the list holds at
    this entry once [item] was written to. *)
Definition visit_item (rec : list pyval -> nat -> pystr -> list pyval * outcome)
    (ui : widgets) (level i : nat) (parent_key : pystr)
    (store : pydict -> pyval) (item : pydict) : item_result :=
  let key := task_key parent_key level i in
  let new_status := checkbox_status ui key item in
  let item1 := Dict.set item k_completed (PBool new_status) in
  let completed := if new_status then 1 else 0 in
  match Dict.get item1 k_task with
  | None => Stop (store item1) (Raised KeyError)
  | Some _ =>
      let new_subtask_text := text_input ui (input_sub key) in
      if button ui (btn_add_sub key)
         && truthy (PStr (strip new_subtask_text))
      then
        let subs := match sub_tasks_of item1 with Some l => l | None => [] end in
        let item2 :=
          Dict.set item1 k_sub_tasks
            (PList (subs ++ [new_subtask (strip new_subtask_text)])) in
        Stop (store item2) Rerun
      else if button ui (btn_del key) then DeleteMe (store item1)
      else
        match sub_tasks_of item1 with
        | Some subs =>
            let (subs', o) := rec subs (S level) key in
            let item3 := Dict.set item1 k_sub_tasks (PList subs') in
            match o with
            | Returned t c => Continue (store item3) (1 + t) (completed + c)
            | _ => Stop (store item3) o
            end
        | None => Continue (store item1) 1 completed
        end
  end.

(** One turn of the loop (lines 49-102): [item.get] of line 57 needs a
    dict. *)
Definition render_item (rec : list pyval -> nat -> pystr -> list pyval * outcome)
    (ui : widgets) (level : nat) (parent_key : pystr)
    (i : nat) (raw_item : pyval) : item_result :=
  match normalize raw_item with
  | PDict item => visit_item rec ui level i parent_key (stored_as raw_item) item
  | _ => Stop raw_item (Raised AttributeError)
  end.

(** What [tasks.pop(i)] does on the object iterated: a list loses its
    entry; a dict has no integer key and a string no [pop]. *)
Inductive container : Type := IsList | IsDict | IsStr.

Definition pop_error (c : container) : option pyexn :=
  match c with
  | IsList => None
  | IsDict => Some KeyError
  | IsStr => Some AttributeError
  end.

(** The [for] loop from index [i] on; the first turn that does not
    continue ends the call. *)
Fixpoint render_loop (visit : nat -> pyval -> item_result) (c : container)
    (i : nat) (tasks : list pyval) : list pyval * outcome :=
  match tasks with
  | [] => ([], Returned 0 0)
  | raw_item :: rest =>
      match visit i raw_item with
      | Continue stored t k =>
          let (rest', o) := render_loop visit c (S i) rest in
          (stored :: rest',
           match o with
           | Returned t' k' => Returned (t + t') (k + k')
           | _ => o
           end)
      | Stop stored o => (stored :: rest, o)
      | DeleteMe stored =>
          match pop_error c with
          | None => (rest, Rerun)
          | Some e => (stored :: rest, Raised e)
          end
      end
  end.

(** [render_tasks(tasks, level, parent_key)] on a list; [fuel] is the
    depth of calls the interpreter still allows. *)
Fixpoint render_tasks (fuel : nat) (ui : widgets) (tasks : list pyval)
    (level : nat) (parent_key : pystr) : list pyval * outcome :=
  match fuel with
  | O => (tasks, Raised RecursionError)
  | S f =>
      render_loop (render_item (render_tasks f ui) ui level parent_key)
        IsList 0 tasks
  end.

Definition root : pystr := py "root".

(** The call of line 171 on whatever the session holds: a dict is
    iterated by its keys, a string by its characters, the rest is not
    iterable. *)
Definition render_session (fuel : nat) (ui : widgets) (v : pyval) : pyval * outcome :=
  match fuel with
  | O => (v, Raised RecursionError)
  | S f =>
      match v with
      | PList tasks =>
          let (tasks', o) := render_tasks fuel ui tasks 0 root in (PList tasks', o)
      | PDict d =>
          (v, snd (render_loop (render_item (render_tasks f ui) ui 0 root)
                     IsDict 0 (map (fun kv => PStr (fst kv)) d)))
      | PStr s =>
          (v, snd (render_loop (render_item (render_tasks f ui) ui 0 root)
                     IsStr 0 (map (fun ch => PStr [ch]) s)))
      | _ => (v, Raised TypeError)
      end
  end.

(** Lines 170-182: the list is rendered when it is truthy. *)
Definition display (fuel : nat) (ui : widgets) (st : session) : session * option outcome :=
  if truthy (todo_list st) then
    let (v, o) := render_session fuel ui (todo_list st) in
    ({| todo_list := v; chat_response := chat_response st |}, Some o)
  else (st, None).

(** The two counters of an undisturbed rendering. *)
Definition aggregate (fuel : nat) (tasks : list pyval) : outcome :=
  snd (render_tasks fuel quiet tasks 0 root).

(** ** The task tree as the traversal reads it *)

(** A task with the four fields of the data model. The description and
    the priority are whatever values the dict holds. *)
Inductive TaskNode : Type :=
  mkNode {
    description : pyval;
    priority : pyval;
    completed : bool;
    subtasks : list TaskNode
  }.

(** The fields of a dict as lines 57, 66 and 95 read them. *)
Definition description_shown (item : pydict) : pyval :=
  Dict.get_default item k_task (PStr no_description).
Definition priority_shown (item : pydict) : pyval :=
  Dict.get_default item k_priority (PStr Medium).
Definition completed_shown (item : pydict) : bool :=
  truthy (Dict.get_default item k_completed (PBool false)).

(** The tree an entry stands for, when the traversal can walk it: the
    entry is a string or a dict, a dict has a ["task"] (line 75 indexes
    it), and so on below ["sub_tasks"] when that is a list. *)
Fixpoint read_node (v : pyval) : option TaskNode :=
  match v with
  | PStr s => Some (mkNode (PStr s) (PStr Medium) false [])
  | PDict d =>
      match Dict.get d k_task with
      | None => None
      | Some _ =>
          let kids :=
            (fix find (d' : pydict) : option (list TaskNode) :=
               match d' with
               | [] => Some []
               | (k, x) :: d'' =>
                   if PyStr.eqb k k_sub_tasks then
                     match x with
                     | PList l =>
                         (fix all (l : list pyval) : option (list TaskNode) :=
                            match l with
                            | [] => Some []
                            | y :: l' =>
                                match read_node y, all l' with
                                | Some n, Some ns => Some (n :: ns)
                                | _, _ => None
                                end
                            end) l
                     | _ => Some []
                     end
                   else find d''
               end) d in
          match kids with
          | Some ks =>
              Some (mkNode (description_shown d) (priority_shown d)
                      (completed_shown d) ks)
          | None => None
          end
      end
  | _ => None
  end.

Fixpoint read_forest (l : list pyval) : option (list TaskNode) :=
  match l with
  | [] => Some []
  | y :: l' =>
      match read_node y, read_forest l' with
      | Some n, Some ns => Some (n :: ns)
      | _, _ => None
      end
  end.

(** Counting on the tree: every node once, and the nodes whose own flag
    is set. *)
Fixpoint size (n : TaskNode) : nat :=
  S (list_sum (map size (subtasks n))).

Fixpoint flagged (n : TaskNode) : nat :=
  (if completed n then 1 else 0) + list_sum (map flagged (subtasks n)).

Fixpoint height (n : TaskNode) : nat :=
  S (list_max (map height (subtasks n))).

Definition total_nodes (forest : list TaskNode) : nat := list_sum (map size forest).
Definition total_flagged (forest : list TaskNode) : nat := list_sum (map flagged forest).
Definition forest_height (forest : list TaskNode) : nat := list_max (map height forest).

(** The nodes strictly below a node. *)
Definition descendants (n : TaskNode) : nat := total_nodes (subtasks n).

(** ** Paths and the tree operations *)

Definition path := list nat.

(** The widget key prefix of the node at a path (line 60, call after
    call). *)
Fixpoint path_key (parent_key : pystr) (level : nat) (p : path) : pystr :=
  match p with
  | [] => parent_key
  | i :: p' => path_key (task_key parent_key level i) (S level) p'
  end.

(** The stored entry at a path, descending through ["sub_tasks"]. *)
Fixpoint entry_at (tasks : list pyval) (p : path) : option pyval :=
  match p with
  | [] => None
  | i :: p' =>
      match nth_error tasks i with
      | None => None
      | Some v =>
          match p' with
          | [] => Some v
          | _ =>
              match v with
              | PDict d =>
                  match sub_tasks_of d with
                  | Some subs => entry_at subs p'
                  | None => None
                  end
              | _ => None
              end
          end
      end
  end.

Fixpoint node_at (forest : list TaskNode) (p : path) : option TaskNode :=
  match p with
  | [] => None
  | i :: p' =>
      match nth_error forest i with
      | None => None
      | Some n =>
          match p' with
          | [] => Some n
          | _ => node_at (subtasks n) p'
          end
      end
  end.

Definition with_subtasks (n : TaskNode) (subs : list TaskNode) : TaskNode :=
  mkNode (description n) (priority n) (completed n) subs.

(** Replace the node at a path by the nodes [final] makes of it; [None]
    when the path does not resolve. *)
Fixpoint alter_at (final : TaskNode -> list TaskNode)
    (forest : list TaskNode) (p : path) : option (list TaskNode) :=
  match p with
  | [] => None
  | i :: p' =>
      match nth_error forest i with
      | None => None
      | Some n =>
          match p' with
          | [] => Some (firstn i forest ++ final n ++ skipn (S i) forest)
          | _ =>
              match alter_at final (subtasks n) p' with
              | Some subs' =>
                  Some (firstn i forest ++ with_subtasks n subs' :: skipn (S i) forest)
              | None => None
              end
          end
      end
  end.

(** The two operations as the specification words them. *)
Definition leaf (text : pystr) : TaskNode :=
  mkNode (PStr text) (PStr Medium) false [].

Definition deleteNode (forest : list TaskNode) (p : path) : option (list TaskNode) :=
  alter_at (fun _ => []) forest p.

Definition append_leaf (text : pystr) (n : TaskNode) : list TaskNode :=
  [with_subtasks n (subtasks n ++ [leaf text])].

Definition addSubtask (forest : list TaskNode) (p : path) (text : pystr)
  : option (list TaskNode) :=
  match strip text with
  | [] =>
      match node_at forest p with
      | Some _ => Some forest
      | None => None
      end
  | trimmed => alter_at (append_leaf trimmed) forest p
  end.

(** A page where exactly the button [target] was clicked, every
    checkbox returns the flag it is drawn from and the inputs hold
    [typed]. *)
Definition clicking (target : pystr) (typed : pystr -> pystr) : widgets :=
  {| checkbox := fun _ => None;
     text_input := typed;
     button := fun k => PyStr.eqb k target |}.

(** The same page with one button released. *)
Definition release (ui : widgets) (k : pystr) : widgets :=
  {| checkbox := checkbox ui;
     text_input := text_input ui;
     button := fun x => if PyStr.eqb x k then false else button ui x |}.

(** A turn stops the loop with a rerun or an exception only. *)
Definition stops_early (visit : nat -> pyval -> item_result) : Prop :=
  forall i x stored t k, visit i x <> Stop stored (Returned t k).

(** A page where every checkbox is ticked. *)
Definition ticked : widgets :=
  {| checkbox := fun _ => Some true; text_input := fun _ => []; button := fun _ => false |}.

(** What follows a key inside a longer key: nothing, or an underscore and
    more. *)
Definition key_suffix (s : pystr) : Prop :=
  s = [] \/ exists s', s = 95%N :: s'.

(** No button of the tasks below the key [K] was clicked. *)
Definition silent (ui : widgets) (K : pystr) : Prop :=
  forall suf, key_suffix suf ->
    button ui (btn_add_sub (K ++ suf)) = false
    /\ button ui (btn_del (K ++ suf)) = false.

(** Every checkbox returns the flag it is drawn from. *)
Definition fresh (ui : widgets) : Prop := forall k, checkbox ui k = None.

(** The two prefixes of button keys. *)
Definition is_tag (tag : pystr) : Prop :=
  tag = py "btn_add_sub_" \/ tag = py "btn_del_".

(** What a turn that ends the traversal with a rerun leaves in place of
    the node it was on: the nodes [X], read from the entry it stored, or
    nothing when it deleted the entry. *)
Definition turn_alters (r : item_result) (X : list TaskNode) : Prop :=
  (exists raw', r = Stop raw' Rerun /\ read_forest [raw'] = Some X)
  \/ (exists raw', r = DeleteMe raw' /\ X = []).

(** A stored forest used in the examples: a completed task with a bare
    string and a dict below it, and a bare string. *)
Definition sample_tasks : list pyval :=
  [PDict [(k_task, PStr (py "a")); (k_completed, PBool true);
          (k_sub_tasks, PList [PStr (py "b"); PDict [(k_task, PStr (py "c"))]])];
   PStr (py "d")].

Definition sample_forest : list TaskNode :=
  [mkNode (PStr (py "a")) (PStr Medium) true
     [mkNode (PStr (py "b")) (PStr Medium) false [];
      mkNode (PStr (py "c")) (PStr Medium) false []];
   mkNode (PStr (py "d")) (PStr Medium) false []].

(** A scan that did not run out of fuel and, when it read a value, left
    less text than it was given. *)
Definition answers (r : Json.scan pyval) (s : pystr) : Prop :=
  r <> Json.Exhausted
  /\ forall v rest, r = Json.Scanned v rest -> List.length rest < List.length s.

(** ** The rest of the script *)

(** [st.session_state] before [initialize_session_state]: each of the
    two keys may be missing. *)
Record store : Type := mkStore {
  stored_list : option pyval;
  stored_chat : option (option pystr)
}.

(** Lines 37-41: a missing key gets its default, a present one is kept. *)
Definition initialize_session_state (s : store) : session :=
  {| todo_list := match stored_list s with Some v => v | None => PList [] end;
     chat_response := match stored_chat s with Some c => c | None => None end |}.

(** The two prompts of lines 128-150, by the values put in their holes:
    the user's text, and for an update the dump of the current list. *)
Inductive prompt : Type :=
| Bootstrap (user_input : pystr)
| Update (current_list_json : pystr) (user_input : pystr).

(** What [chat.send_message] gives: a response whose [text] may be
    [None], or an exception. *)
Inductive sent : Type :=
| Answered (text : option pystr)
| Failed.

(** Lines 23-34: an exception of the provider becomes [None]. *)
Definition get_ai_response (send : prompt -> sent) (p : prompt) : option pystr :=
  match send p with
  | Answered text => text
  | Failed => None
  end.

(** Lines 125-150; [dumps] stands for [json.dumps(_, indent=2)]. *)
Definition build_prompt (dumps : pyval -> pystr) (st : session)
    (natural_language_input : pystr) : prompt :=
  if truthy (todo_list st)
  then Update (dumps (todo_list st)) natural_language_input
  else Bootstrap natural_language_input.

(** How lines 122-164 end once Submit was clicked: with a session and
    the warning of line 164 shown or not, or with an exception that
    left the handler of the reply. *)
Inductive submitted : Type :=
| Completed (st : session) (warning : bool)
| Died (e : pyexn).

Definition submit (lim : limits) (dumps : pyval -> pystr) (send : prompt -> sent)
    (st : session) (natural_language_input : pystr) : submitted :=
  match natural_language_input with
  | [] => Completed st true
  | _ =>
      let ai_response :=
        get_ai_response send (build_prompt dumps st natural_language_input) in
      match interpret lim ai_response with
      | Uncaught e => Died e
      | r => Completed (apply_reply st r) false
      end
  end.

(** What lines 170-182 put on the page; [NotReached] when the run ended
    before them, with an exception that left the handler of the reply. *)
Inductive shown : Type :=
| ProgressBar (completed total : nat)
| ReadyNote
| EmptyNote
| Interrupted (o : outcome)
| NotReached (e : pyexn).

Definition progress_section (fuel : nat) (ui : widgets) (st : session)
  : session * shown :=
  match display fuel ui st with
  | (st', None) => (st', EmptyNote)
  | (st', Some (Returned total_tasks completed_tasks)) =>
      (st', if 0 <? total_tasks
            then ProgressBar completed_tasks total_tasks
            else ReadyNote)
  | (st', Some o) => (st', Interrupted o)
  end.

(** The page of one run of [main]: the text area, the Submit button and
    the widgets of the tasks. *)
Record page : Type := mkPage {
  natural_language_input : pystr;
  submit_clicked : bool;
  task_widgets : widgets
}.

(** What one run leaves: the session, the warning, the progress section
    and the chat answer put on the page (lines 185-188), which a rerun
    or an exception does not reach. *)
Record run : Type := mkRun {
  session_after : session;
  warned : bool;
  progress : shown;
  chat_shown : option pystr
}.

(** Lines 110-188 *)
Definition main (lim : limits) (dumps : pyval -> pystr) (send : prompt -> sent)
    (fuel : nat) (pg : page) (s : store) : run :=
  let st0 := initialize_session_state s in
  match (if submit_clicked pg
         then submit lim dumps send st0 (natural_language_input pg)
         else Completed st0 false) with
  | Died e =>
      {| session_after := st0;
         warned := false;
         progress := NotReached e;
         chat_shown := None |}
  | Completed st1 w =>
      let (st2, sh) := progress_section fuel (task_widgets pg) st1 in
      {| session_after := st2;
         warned := w;
         progress := sh;
         chat_shown :=
           match sh with
           | Interrupted _ => None
           | NotReached _ => None
           | _ =>
               match chat_response st2 with
               | Some (c :: r) => Some (c :: r)
               | _ => None
               end
           end |}
  end.

(** The session as the next run finds it. *)
Definition store_of (st : session) : store :=
  {| stored_list := Some (todo_list st); stored_chat := Some (chat_response st) |}.

(** The entry a turn leaves reads as a node at most one level higher
    than the node [n] it was. *)
Definition reads_close (raw' : pyval) (n : TaskNode) : Prop :=
  exists n', read_node raw' = Some n' /\ height n' <= S (height n).

(** A turn on an entry that reads as [n] which does not raise, counts
    the nodes of [n] when it continues, and leaves a readable entry. *)
Definition turn_ok (r : item_result) (n : TaskNode) : Prop :=
  match r with
  | Continue raw' t _ => t = size n /\ reads_close raw' n
  | Stop raw' Rerun => reads_close raw' n
  | Stop _ _ => False
  | DeleteMe raw' => reads_close raw' n
  end.

(** A call that did not raise, and counted the forest if it returned. *)
Definition not_raised (o : outcome) (forest : list TaskNode) : Prop :=
  match o with
  | Returned t _ => t = total_nodes forest
  | Rerun => True
  | Raised _ => False
  end.

(** The four prefixes of the widget keys of a task (lines 67, 76, 78
    and 90). *)
Definition widget_prefix (tag : pystr) : Prop :=
  tag = py "chk_" \/ tag = py "input_sub_"
  \/ tag = py "btn_add_sub_" \/ tag = py "btn_del_".

(** Every path that resolves in [tasks] resolves in [tasks']. *)
Definition kept (tasks tasks' : list pyval) : Prop :=
  forall p e, entry_at tasks p = Some e -> exists e', entry_at tasks' p = Some e'.

(** The characters a JSON value can begin with: a quote, a brace, a
    bracket, the first letters of [null], [true], [false], [NaN],
    [Infinity], a minus sign, a digit. *)
Definition can_start_json (c : N) : bool :=
  ((c =? 34) || (c =? 123) || (c =? 91) || (c =? 110) || (c =? 116)
   || (c =? 102) || (c =? 78) || (c =? 73) || (c =? 45)
   || (48 <=? c) && (c <=? 57))%N.

(** The backtick. *)
Definition is_backtick (c : N) : bool := N.eqb c 96.

(** The key of the checkbox of a task (line 67). *)
Definition chk (key : pystr) : pystr := py "chk_" ++ key.

(** A page where the checkbox [target] was set to [b], every other
    checkbox returns the flag it is drawn from, no button was clicked
    and the inputs hold [typed]. *)
Definition ticking (target : pystr) (b : bool) (typed : pystr -> pystr) : widgets :=
  {| checkbox := fun k => if PyStr.eqb k target then Some b else None;
     text_input := typed;
     button := fun _ => false |}.

(** The same page with every checkbox back to the flag it is drawn
    from. *)
Definition unticked (ui : widgets) : widgets :=
  {| checkbox := fun _ => None;
     text_input := text_input ui;
     button := button ui |}.

(** No checkbox of the tasks of level [level] under the key [K], or
    below them, has a state of its own. *)
Definition calm_below (ui : widgets) (K : pystr) (level : nat) : Prop :=
  forall i suf, key_suffix suf ->
    checkbox ui (chk (task_key K level i ++ suf)) = None.

Definition with_completed (value : bool) (n : TaskNode) : TaskNode :=
  mkNode (description n) (priority n) value (subtasks n).

(** The operation as the specification words it. *)
Definition setCompleted (forest : list TaskNode) (p : path) (value : bool)
  : option (list TaskNode) :=
  alter_at (fun n => [with_completed value n]) forest p.

(** ** Replies used in the statements *)

Definition quoted (s : string) : pystr := [34%N] ++ py s ++ [34%N].
Definition newline : pystr := [10%N].

Definition fenced_buy_milk : pystr :=
  fence_json ++ newline
    ++ py "[{" ++ quoted "task" ++ py ":" ++ quoted "Buy milk" ++ py "}]"
    ++ newline ++ fence.

(** * Properties *)

(** ** Strings and dicts *)

Lemma eqb_eq (a b : pystr) : PyStr.eqb a b = true <-> a = b.
Proof.
  revert b; induction a as [|x a IH]; intros [|y b]; simpl; split;
    try discriminate; try reflexivity.
  - intros H. apply andb_true_iff in H. destruct H as [H1 H2].
    apply N.eqb_eq in H1. apply IH in H2. congruence.
  - intros H. injection H as -> ->. rewrite N.eqb_refl. simpl. now apply IH.
Qed.

Lemma eqb_refl (a : pystr) : PyStr.eqb a a = true.
Proof. now apply eqb_eq. Qed.

Lemma eqb_neq (a b : pystr) : PyStr.eqb a b = false <-> a <> b.
Proof.
  split.
  - intros H E. apply eqb_eq in E. congruence.
  - intros H. destruct (PyStr.eqb a b) eqn:E; [|reflexivity].
    apply eqb_eq in E. contradiction.
Qed.

Lemma get_set_same (d : pydict) (k : pystr) (v : pyval) :
  Dict.get (Dict.set d k v) k = Some v.
Proof.
  induction d as [|[k' v'] d IH]; simpl.
  - now rewrite eqb_refl.
  - destruct (PyStr.eqb k' k) eqn:E; simpl; rewrite E; [reflexivity|exact IH].
Qed.

Lemma get_set_other (d : pydict) (k k' : pystr) (v : pyval) :
  k <> k' -> Dict.get (Dict.set d k v) k' = Dict.get d k'.
Proof.
  intros Hk. induction d as [|[k0 v0] d IH]; simpl.
  - apply eqb_neq in Hk. now rewrite Hk.
  - destruct (PyStr.eqb k0 k) eqn:E; simpl.
    + apply eqb_eq in E. subst k0. apply eqb_neq in Hk. now rewrite Hk.
    + destruct (PyStr.eqb k0 k'); [reflexivity|exact IH].
Qed.

(** ** The decoder always answers *)

Lemma skip_ws_length (s : pystr) :
  List.length (Json.skip_ws s) <= List.length s.
Proof.
  induction s as [|c r IH]; [reflexivity|].
  cbn [Json.skip_ws]. destruct (Json.is_ws c); cbn [List.length]; lia.
Qed.

Lemma scan_string_length :
  forall n s acc x r,
    List.length s <= n -> Json.scan_string s acc = Some (x, r) ->
    List.length r < List.length s.
Proof.
  induction n as [|n IH]; intros s acc x r Hn H.
  - destruct s; [discriminate|cbn in Hn; lia].
  - destruct s as [|c s]; [discriminate|].
    cbn [Json.scan_string] in H. cbn [List.length] in *.
    destruct (N.eqb c 34); [injection H as _ <-; lia|].
    destruct (N.eqb c 92).
    + destruct s as [|e r1]; [discriminate|].
      destruct (N.eqb e 117).
      * destruct r1 as [|a [|b [|c2 [|d r2]]]]; try discriminate.
        destruct (Json.hex4 a b c2 d) as [u|]; [|discriminate].
        cbn [List.length] in *.
        assert (Hr2 : forall acc', Json.scan_string r2 acc' = Some (x, r) ->
                                   List.length r < List.length r2)
          by (intros acc'; apply IH; lia).
        destruct r2 as [|b1 [|b2 [|a' [|b' [|c' [|d' r3]]]]]];
          try (apply Hr2 in H; cbn [List.length] in *; lia).
        destruct (Json.is_high_surrogate u && N.eqb b1 92 && N.eqb b2 117).
        -- destruct (Json.hex4 a' b' c' d') as [lo|]; [|discriminate].
           destruct (Json.is_low_surrogate lo).
           ++ apply IH in H; cbn [List.length] in *; lia.
           ++ apply Hr2 in H. cbn [List.length] in *. lia.
        -- apply Hr2 in H. cbn [List.length] in *. lia.
      * destruct (Json.simple_escape e); [|discriminate].
        apply IH in H; cbn [List.length] in *; lia.
    + destruct (c <=? 31)%N; [discriminate|].
      apply IH in H; lia.
Qed.

Lemma scan_digits_length (s ds r : pystr) :
  Json.scan_digits s = (ds, r) -> List.length r <= List.length s.
Proof.
  revert ds r. induction s as [|c s IH]; intros ds r H; cbn in H.
  - injection H as _ <-. lia.
  - destruct (Json.is_digit c).
    + destruct (Json.scan_digits s) as [ds' r'].
      injection H as _ <-. specialize (IH _ _ eq_refl). cbn. lia.
    + injection H as _ <-. lia.
Qed.

Lemma scan_frac_length (r1 : pystr) (ds r : pystr) :
  Json.scan_frac r1 = Some (ds, r) -> List.length r <= List.length r1.
Proof.
  unfold Json.scan_frac. intros E.
  destruct r1 as [|c r1']; [discriminate|].
  destruct (N.eqb c 46); [|discriminate].
  destruct (Json.scan_digits r1') as [ds' r0] eqn:Hds.
  apply scan_digits_length in Hds.
  destruct ds'; [discriminate|]. injection E as _ <-. cbn. lia.
Qed.

Lemma scan_exp_length (r2 : pystr) (e : Z) (r : pystr) :
  Json.scan_exp r2 = Some (e, r) -> List.length r <= List.length r2.
Proof.
  unfold Json.scan_exp. intros E.
  destruct r2 as [|c r2']; [discriminate|].
  destruct (N.eqb c 101 || N.eqb c 69); [|discriminate].
  destruct (Json.scan_sign r2') as [sg r0] eqn:Hsg.
  assert (List.length r0 <= List.length r2').
  { unfold Json.scan_sign in Hsg.
    destruct r2' as [|c' r2'']; [injection Hsg as _ <-; lia|].
    destruct (N.eqb c' 45); [injection Hsg as _ <-; cbn; lia|].
    destruct (N.eqb c' 43); injection Hsg as _ <-; cbn; lia. }
  destruct (Json.scan_digits r0) as [ds r4] eqn:Hds.
  apply scan_digits_length in Hds.
  destruct ds; [discriminate|]. injection E as _ <-. cbn. lia.
Qed.

Lemma scan_int_part_length (s1 ip r1 : pystr) :
  Json.scan_int_part s1 = Some (ip, r1) -> List.length r1 < List.length s1.
Proof.
  unfold Json.scan_int_part. intros Hi.
  destruct s1 as [|c s1]; [discriminate|].
  destruct (N.eqb c 48); [injection Hi as _ <-; cbn; lia|].
  destruct (Json.is_digit c) eqn:Hd; [|discriminate].
  injection Hi as Hi. cbn [Json.scan_digits] in Hi. rewrite Hd in Hi.
  destruct (Json.scan_digits s1) as [ds' r'] eqn:Hds.
  injection Hi as _ <-. apply scan_digits_length in Hds. cbn. lia.
Qed.

Lemma scan_number_length (m : nat) (s : pystr) (v : pyval) (r : pystr) :
  Json.scan_number m s = Json.Scanned v r -> List.length r < List.length s.
Proof.
  unfold Json.scan_number. intros H.
  destruct (Json.scan_minus s) as [neg s1] eqn:Hm.
  assert (H1 : List.length s1 <= List.length s).
  { unfold Json.scan_minus in Hm. destruct s as [|c s]; [injection Hm as _ <-; lia|].
    destruct (N.eqb c 45); injection Hm as _ <-; cbn; lia. }
  destruct (Json.scan_int_part s1) as [[ip r1]|] eqn:Hi; [|discriminate].
  apply scan_int_part_length in Hi.
  destruct (Json.scan_frac r1) as [[fd rf]|] eqn:Hf.
  - apply scan_frac_length in Hf.
    destruct (Json.scan_exp rf) as [[e re]|] eqn:He.
    + apply scan_exp_length in He. injection H as _ <-. lia.
    + injection H as _ <-. lia.
  - destruct (Json.scan_exp r1) as [[e re]|] eqn:He.
    + apply scan_exp_length in He. injection H as _ <-. lia.
    + destruct (Json.too_many_digits m (List.length ip)); [discriminate|].
      injection H as _ <-. lia.
Qed.

Lemma scanned_rest (v v' : pyval) (r r' : pystr) :
  Json.Scanned v r = Json.Scanned v' r' -> r = r'.
Proof. intros H. now injection H. Qed.

Lemma scan_number_answers (m : nat) (s : pystr) :
  answers (Json.scan_number m s) s.
Proof.
  split.
  - unfold Json.scan_number.
    destruct (Json.scan_minus s) as [neg s1].
    destruct (Json.scan_int_part s1) as [[ip r1]|]; [|discriminate].
    destruct (match Json.scan_frac r1 with
              | Some (ds, r) => (Some ds, r)
              | None => (None, r1)
              end) as [fp r2].
    destruct (match Json.scan_exp r2 with
              | Some (e, r) => (Some e, r)
              | None => (None, r2)
              end) as [ep r3].
    destruct fp, ep; try discriminate.
    destruct (Json.too_many_digits m (List.length ip)); discriminate.
  - intros v rest H. now apply scan_number_length in H.
Qed.

Lemma parse_answers (m : nat) :
  forall fuel,
    (forall d s, 2 * List.length s < fuel ->
                 answers (Json.parse_value m fuel d s) s)
    /\ (forall d s acc, 2 * List.length s + 1 < fuel ->
                        answers (Json.parse_elems m fuel d s acc) s)
    /\ (forall d s acc, 2 * List.length s < fuel ->
                        answers (Json.parse_members m fuel d s acc) s).
Proof.
  induction fuel as [|f (IHv & IHe & IHm)].
  - repeat split; intros; lia.
  - split; [|split].
    + (* a value *)
      intros d s Hs.
      destruct s as [|c r]; [split; [discriminate|intros; discriminate]|].
      cbn [Json.parse_value]. cbn [List.length] in Hs.
      pose proof (skip_ws_length r) as Hws.
      destruct (N.eqb c 34).
      { destruct (Json.scan_string r []) as [[x r']|] eqn:E;
          [|split; [discriminate|intros; discriminate]].
        apply (scan_string_length (List.length r)) in E; [|lia].
        split; [discriminate|]. intros v rest H. injection H as _ <-.
        cbn [List.length]. lia. }
      destruct (N.eqb c 123).
      { destruct d as [|d]; [split; [discriminate|intros; discriminate]|].
        destruct (Json.skip_ws r) as [|c' r'];
          [split; [discriminate|intros; discriminate]|].
        cbn [List.length] in Hws.
        destruct (N.eqb c' 125).
        { split; [discriminate|]. intros v rest H. injection H as _ <-.
          cbn [List.length]. lia. }
        destruct (N.eqb c' 34); [|split; [discriminate|intros; discriminate]].
        destruct (IHm d r' []) as [H1 H2]; [lia|].
        split; [exact H1|]. intros v rest H. apply H2 in H.
        cbn [List.length]. lia. }
      destruct (N.eqb c 91).
      { destruct d as [|d]; [split; [discriminate|intros; discriminate]|].
        destruct (Json.skip_ws r) as [|c' r'];
          [split; [discriminate|intros; discriminate]|].
        cbn [List.length] in Hws.
        destruct (N.eqb c' 93).
        { split; [discriminate|]. intros v rest H. injection H as _ <-.
          cbn [List.length]. lia. }
        destruct (IHe d (c' :: r') []) as [H1 H2]; [cbn [List.length]; lia|].
        split; [exact H1|]. intros v rest H. apply H2 in H.
        cbn [List.length] in *. lia. }
      repeat match goal with
             | |- answers (if ?b then _ else _) _ =>
                 destruct b;
                 [split; [discriminate|];
                  intros v rest H; apply scanned_rest in H; rewrite <- H;
                  rewrite length_skipn; cbn [List.length]; lia|]
             end.
      apply scan_number_answers.
    + (* the elements of an array *)
      intros d s acc Hs. cbn [Json.parse_elems].
      destruct (IHv d s) as [H1 H2]; [lia|].
      destruct (Json.parse_value m f d s) as [v r| | |];
        [|split; [discriminate|intros; discriminate]
         |split; [discriminate|intros; discriminate]|contradiction].
      specialize (H2 v r eq_refl).
      pose proof (skip_ws_length r) as Hws.
      destruct (Json.skip_ws r) as [|c r'];
        [split; [discriminate|intros; discriminate]|].
      cbn [List.length] in Hws.
      destruct (N.eqb c 93).
      { split; [discriminate|]. intros v0 rest H. injection H as _ <-. lia. }
      destruct (N.eqb c 44); [|split; [discriminate|intros; discriminate]].
      pose proof (skip_ws_length r') as Hws'.
      destruct (IHe d (Json.skip_ws r') (v :: acc)) as [H3 H4]; [lia|].
      split; [exact H3|]. intros v0 rest H. apply H4 in H. lia.
    + (* the members of an object *)
      intros d s acc Hs. cbn [Json.parse_members].
      destruct (Json.scan_string s []) as [[k r]|] eqn:E;
        [|split; [discriminate|intros; discriminate]].
      apply (scan_string_length (List.length s)) in E; [|lia].
      pose proof (skip_ws_length r) as Hws.
      destruct (Json.skip_ws r) as [|c r1];
        [split; [discriminate|intros; discriminate]|].
      cbn [List.length] in Hws.
      destruct (N.eqb c 58); [|split; [discriminate|intros; discriminate]].
      pose proof (skip_ws_length r1) as Hws1.
      destruct (IHv d (Json.skip_ws r1)) as [H1 H2]; [lia|].
      destruct (Json.parse_value m f d (Json.skip_ws r1)) as [v r2| | |];
        [|split; [discriminate|intros; discriminate]
         |split; [discriminate|intros; discriminate]|contradiction].
      specialize (H2 v r2 eq_refl).
      pose proof (skip_ws_length r2) as Hws2.
      destruct (Json.skip_ws r2) as [|c' r3];
        [split; [discriminate|intros; discriminate]|].
      cbn [List.length] in Hws2.
      destruct (N.eqb c' 125).
      { split; [discriminate|]. intros v0 rest H. injection H as _ <-. lia. }
      destruct (N.eqb c' 44); [|split; [discriminate|intros; discriminate]].
      pose proof (skip_ws_length r3) as Hws3.
      destruct (Json.skip_ws r3) as [|q r4];
        [split; [discriminate|intros; discriminate]|].
      cbn [List.length] in Hws3.
      destruct (N.eqb q 34); [|split; [discriminate|intros; discriminate]].
      destruct (IHm d r4 (Dict.set acc k v)) as [H3 H4]; [lia|].
      split; [exact H3|]. intros v0 rest H. apply H4 in H. lia.
Qed.

(** The fuel [loads] gives the decoder is enough for every text. *)
Lemma loads_fuel (lim : limits) (s : pystr) :
  Json.parse_value (int_max_str_digits lim) (2 * List.length s + 1)
    (recursion_left lim) (Json.skip_ws s)
  <> Json.Exhausted.
Proof.
  pose proof (skip_ws_length s) as Hws.
  destruct (parse_answers (int_max_str_digits lim) (2 * List.length s + 1))
    as [Hv _].
  apply Hv. lia.
Qed.

(** ** The reply handler *)

(** Whatever value the cleaned reply decodes to is assigned to the list;
    the handler never looks at its shape. *)
Lemma decoded_value_replaces (lim : limits) (raw : pystr) (v : pyval) :
  raw <> [] -> Json.loads lim (cleaned raw) = Json.Value v ->
  interpret lim (Some raw) = Replace v.
Proof.
  intros Hne Hv. destruct raw as [|c r]; [contradiction|].
  unfold interpret. cbv zeta. now rewrite Hv.
Qed.

Lemma undecodable_reply_is_message (lim : limits) (raw : pystr) :
  raw <> [] -> Json.loads lim (cleaned raw) = Json.Raises JSONDecodeError ->
  interpret lim (Some raw) = Message raw.
Proof.
  intros Hne Hv. destruct raw as [|c r]; [contradiction|].
  unfold interpret. cbv zeta. now rewrite Hv.
Qed.

(** The number [42] decodes whatever the limits of the interpreter are:
    it has no bracket and two digits. *)
Lemma loads_42 (lim : limits) : Json.loads lim (py "42") = Json.Value (PInt 42).
Proof. destruct lim as [d m]. vm_compute. reflexivity. Qed.

(** C1: the claim fails on the reply [42]. The handler takes the number
    for the new list: it replaces the list, clears the chat answer, and
    keeps no message. Line 171 then enumerates the number, and every
    later display raises [TypeError], on any page. The same happens
    whatever the limits of the interpreter and whatever the session
    held. *)
Theorem number_reply_replaces_list (lim : limits) :
  interpret lim (Some (py "42")) = Replace (PInt 42)
  /\ interpret lim (Some (py "42")) <> Message (py "42")
  /\ (forall st,
        handle_response lim st (Some (py "42"))
        = {| todo_list := PInt 42; chat_response := None |})
  /\ (forall fuel ui st,
        snd (display (S fuel) ui (handle_response lim st (Some (py "42"))))
        = Some (Raised TypeError)).
Proof.
  assert (H : interpret lim (Some (py "42")) = Replace (PInt 42)).
  { apply decoded_value_replaces; [discriminate|]. apply loads_42. }
  split; [exact H|].
  split; [rewrite H; discriminate|].
  split.
  - intros st. unfold handle_response. rewrite H. reflexivity.
  - intros fuel ui st. unfold handle_response. rewrite H. reflexivity.
Qed.

(** C3: the array [[1,2,3]] replaces the list, but walking it raises
    [AttributeError] at the first element: an [int] is not a string, so
    it is taken as it is, and line 57 calls [get] on it. The decoder
    needs one level of recursion for the array. *)
Theorem scalar_array_raises (lim : limits) (Hdepth : 1 <= recursion_left lim) :
  interpret lim (Some (py "[1,2,3]")) = Replace (PList [PInt 1; PInt 2; PInt 3])
  /\ (forall fuel ui level parent_key,
        render_tasks (S fuel) ui [PInt 1; PInt 2; PInt 3] level parent_key
        = ([PInt 1; PInt 2; PInt 3], Raised AttributeError))
  /\ read_forest [PInt 1; PInt 2; PInt 3] = None.
Proof.
  split; [|split; [|reflexivity]].
  - destruct lim as [[|d] m]; [cbn in Hdepth; lia|].
    vm_compute. reflexivity.
  - intros fuel ui level parent_key. reflexivity.
Qed.

Lemma scalar_array_raises_witness :
  interpret sample_limits (Some (py "[1,2,3]"))
  = Replace (PList [PInt 1; PInt 2; PInt 3])
  /\ (forall fuel ui level parent_key,
        render_tasks (S fuel) ui [PInt 1; PInt 2; PInt 3] level parent_key
        = ([PInt 1; PInt 2; PInt 3], Raised AttributeError))
  /\ read_forest [PInt 1; PInt 2; PInt 3] = None.
Proof.
  apply (scalar_array_raises sample_limits). cbn. lia.
Defined.

(** C4: the fenced reply with the one task "Buy milk" replaces the list
    by a one-element forest; the traversal reads its entry as the node
    with description "Buy milk", priority Medium, not completed, no
    subtasks, and counts one task, none completed. The decoder needs two
    levels of recursion, for the array and the object in it. *)
Theorem fenced_reply_replaces_list (lim : limits)
    (Hdepth : 2 <= recursion_left lim) :
  interpret lim (Some fenced_buy_milk)
  = Replace (PList [PDict [(k_task, PStr (py "Buy milk"))]])
  /\ read_forest [PDict [(k_task, PStr (py "Buy milk"))]]
     = Some [mkNode (PStr (py "Buy milk")) (PStr Medium) false []]
  /\ aggregate 2 [PDict [(k_task, PStr (py "Buy milk"))]] = Returned 1 0.
Proof.
  split; [|split; vm_compute; reflexivity].
  destruct lim as [[|[|d]] m]; [cbn in Hdepth; lia..|].
  vm_compute. reflexivity.
Qed.

Lemma fenced_reply_replaces_list_witness :
  interpret sample_limits (Some fenced_buy_milk)
  = Replace (PList [PDict [(k_task, PStr (py "Buy milk"))]])
  /\ read_forest [PDict [(k_task, PStr (py "Buy milk"))]]
     = Some [mkNode (PStr (py "Buy milk")) (PStr Medium) false []]
  /\ aggregate 2 [PDict [(k_task, PStr (py "Buy milk"))]] = Returned 1 0.
Proof.
  apply (fenced_reply_replaces_list sample_limits). cbn. lia.
Defined.

(** C5: normalizing twice is normalizing once, for every value, and a
    dict is returned as it is (the very object, nothing is written). *)
Theorem normalize_idempotent :
  (forall x, normalize (normalize x) = normalize x)
  /\ (forall item, normalize (PDict item) = PDict item).
Proof.
  split.
  - intros x. destruct x; reflexivity.
  - intros item. reflexivity.
Qed.

(** C6 as stated fails: the empty reply is not turned into a message.
    An earlier chat answer stays where the claim puts the empty text. *)
Lemma empty_reply_is_not_a_message :
  interpret sample_limits (Some (py "")) <> Message (py "")
  /\ chat_response
       (handle_response sample_limits
          {| todo_list := PList []; chat_response := Some (py "earlier answer") |}
          (Some (py "")))
     <> Some (py "").
Proof.
  split; vm_compute; discriminate.
Qed.

(** C6, amended: the empty reply is skipped by the guard of line 154 and
    leaves the whole session as it was: no replacement, no message, no
    error. *)
Theorem empty_reply_changes_nothing (lim : limits) :
  interpret lim (Some (py "")) = Ignored
  /\ (forall st, handle_response lim st (Some (py "")) = st).
Proof.
  split; [reflexivity|]. intros st. reflexivity.
Qed.

(** C9 as stated fails: a priority outside High, Medium, Low is shown
    as it is. *)
Lemma unrecognized_priority_is_kept :
  normalize (PDict [(k_task, PStr (py "a")); (k_priority, PStr (py "Urgent"))])
  = PDict [(k_task, PStr (py "a")); (k_priority, PStr (py "Urgent"))]
  /\ priority_shown [(k_task, PStr (py "a")); (k_priority, PStr (py "Urgent"))]
     = PStr (py "Urgent")
  /\ priority_shown [(k_task, PStr (py "a")); (k_priority, PStr (py "Urgent"))]
     <> PStr Medium.
Proof.
  split; [reflexivity|]. split; [reflexivity|]. vm_compute. discriminate.
Qed.

(** C9, amended: after normalization the priority read is Medium when
    the field is absent (and for a bare string), and otherwise the value
    of the field, whatever it is. *)
Theorem priority_absent_is_medium (raw : pyval) (item : pydict)
    (H : normalize raw = PDict item) :
  priority_shown item
  = match Dict.get item k_priority with
    | None => PStr Medium
    | Some v => v
    end
  /\ (forall s, raw = PStr s -> priority_shown item = PStr Medium).
Proof.
  split; [reflexivity|].
  intros s ->. simpl in H. injection H as <-. reflexivity.
Qed.

Lemma priority_absent_is_medium_witness :
  normalize (PDict [(k_task, PStr (py "a"))]) = PDict [(k_task, PStr (py "a"))]
  /\ priority_shown [(k_task, PStr (py "a"))] = PStr Medium.
Proof.
  split; [reflexivity|].
  destruct (priority_absent_is_medium
              (PDict [(k_task, PStr (py "a"))]) [(k_task, PStr (py "a"))]
              eq_refl) as [H _].
  exact H.
Defined.

(** ** The loop *)

Lemma completed_is_not_sub_tasks : k_completed <> k_sub_tasks.
Proof. intros H. vm_compute in H. discriminate. Qed.

Lemma completed_is_not_task : k_completed <> k_task.
Proof. intros H. vm_compute in H. discriminate. Qed.

Lemma sub_tasks_is_not_completed : k_sub_tasks <> k_completed.
Proof. intros H. vm_compute in H. discriminate. Qed.

Lemma sub_tasks_is_not_task : k_sub_tasks <> k_task.
Proof. intros H. vm_compute in H. discriminate. Qed.

Lemma sub_tasks_of_set_completed (item : pydict) (v : pyval) :
  sub_tasks_of (Dict.set item k_completed v) = sub_tasks_of item.
Proof.
  unfold sub_tasks_of. now rewrite (get_set_other _ _ _ _ completed_is_not_sub_tasks).
Qed.

Lemma sub_tasks_of_set (item : pydict) (l : list pyval) :
  sub_tasks_of (Dict.set item k_sub_tasks (PList l)) = Some l.
Proof. unfold sub_tasks_of. now rewrite get_set_same. Qed.

(** A loop that returns has continued at every entry. *)
Lemma render_loop_returned (visit : nat -> pyval -> item_result) (c : container) :
  stops_early visit ->
  forall tasks i tasks' t k,
    render_loop visit c i tasks = (tasks', Returned t k) ->
    List.length tasks' = List.length tasks
    /\ forall j x, nth_error tasks j = Some x ->
         exists x' tj kj,
           nth_error tasks' j = Some x' /\ visit (i + j) x = Continue x' tj kj.
Proof.
  intros Hstop.
  induction tasks as [|raw rest IH]; intros i tasks' t k H; simpl in H.
  - injection H as <- _ _. split; [reflexivity|].
    intros [|j] x Hx; discriminate.
  - destruct (visit i raw) as [stored t0 k0|stored o|stored] eqn:Hv.
    + destruct (render_loop visit c (S i) rest) as [rest' o] eqn:Hr.
      destruct o as [t' k'| |e]; try discriminate.
      injection H as <- _ _.
      destruct (IH _ _ _ _ Hr) as [Hlen Hnth].
      split; [simpl; now rewrite Hlen|].
      intros [|j] x Hx; simpl in Hx.
      * injection Hx as <-. exists stored, t0, k0.
        now rewrite Nat.add_0_r.
      * destruct (Hnth _ _ Hx) as (x' & tj & kj & H1 & H2).
        exists x', tj, kj. split; [exact H1|].
        now rewrite Nat.add_succ_r.
    + injection H as _ H. subst o. now apply Hstop in Hv.
    + destruct (pop_error c); discriminate.
Qed.

Lemma render_item_stops_early rec ui level parent_key :
  stops_early (render_item rec ui level parent_key).
Proof.
  intros i x stored t k. unfold render_item.
  destruct (normalize x); try discriminate.
  unfold visit_item.
  destruct (Dict.get _ k_task); [|discriminate].
  destruct (_ && _); [discriminate|].
  destruct (button ui _); [discriminate|].
  destruct (sub_tasks_of _); [|discriminate].
  destruct (rec _ _ _) as [subs' [t' k'| |e]]; discriminate.
Qed.

(** What a turn that continues has done to its item. *)
Lemma visit_item_continue rec ui level i parent_key store item x' t c :
  visit_item rec ui level i parent_key store item = Continue x' t c ->
  let key := task_key parent_key level i in
  let status := checkbox_status ui key item in
  Dict.get item k_task <> None
  /\ match sub_tasks_of item with
     | Some subs =>
         exists subs' t' c',
           rec subs (S level) key = (subs', Returned t' c')
           /\ x' = store (Dict.set (Dict.set item k_completed (PBool status))
                            k_sub_tasks (PList subs'))
           /\ t = 1 + t' /\ c = (if status then 1 else 0) + c'
     | None =>
         x' = store (Dict.set item k_completed (PBool status))
         /\ t = 1 /\ c = (if status then 1 else 0)
     end.
Proof.
  intros H key status. unfold visit_item in H. fold key in H. fold status in H.
  rewrite (get_set_other _ _ _ _ completed_is_not_task) in H.
  destruct (Dict.get item k_task) eqn:Ht; [|discriminate].
  split; [discriminate|].
  destruct (_ && _); [discriminate|].
  destruct (button ui _); [discriminate|].
  rewrite sub_tasks_of_set_completed in H.
  destruct (sub_tasks_of item) as [subs|].
  - destruct (rec subs (S level) key) as [subs' [t' c'| |e]]; try discriminate.
    injection H as <- <- <-. exists subs', t', c'. repeat split.
  - injection H as <- <- <-. repeat split.
Qed.

(** ** Writes to legacy entries *)

(** C10: when a traversal returns, every bare string of the stored
    forest, at any depth, is still the same bare string, whatever the
    checkbox of that entry held (the status was written to the dict made
    for the turn); every dict entry holds the status of its checkbox in
    its own ["completed"]. *)
Theorem legacy_write_is_transient :
  forall fuel ui tasks level parent_key tasks' t c,
    render_tasks fuel ui tasks level parent_key = (tasks', Returned t c) ->
    forall p,
      (forall s, entry_at tasks p = Some (PStr s) ->
                 entry_at tasks' p = Some (PStr s))
      /\ (forall d, entry_at tasks p = Some (PDict d) ->
            exists d',
              entry_at tasks' p = Some (PDict d')
              /\ Dict.get d' k_completed
                 = Some (PBool (checkbox_status ui (path_key parent_key level p) d))).
Proof.
  induction fuel as [|f IH]; intros ui tasks level K tasks' t c H p;
    [discriminate|].
  simpl in H.
  destruct (render_loop_returned _ _ (render_item_stops_early _ ui level K)
              _ _ _ _ _ H) as [_ Hnth].
  destruct p as [|i p']; [split; intros; discriminate|].
  simpl entry_at. simpl path_key.
  destruct (nth_error tasks i) as [v|] eqn:Hi; [|split; intros; discriminate].
  destruct (Hnth _ _ Hi) as (x' & tj & kj & Hi' & Hv). simpl in Hv.
  rewrite Hi'. unfold render_item in Hv.
  destruct v as [| | | |s|l|d]; simpl in Hv; try discriminate.
  - (* a bare string *)
    apply visit_item_continue in Hv. destruct Hv as [_ Hv].
    assert (Hx : x' = PStr s).
    { destruct (sub_tasks_of (legacy_item s));
        [destruct Hv as (? & ? & ? & _ & -> & _)|destruct Hv as [-> _]];
        reflexivity. }
    subst x'. destruct p'; split; intros; try discriminate; assumption.
  - (* a dict *)
    apply visit_item_continue in Hv. destruct Hv as [_ Hv].
    destruct (sub_tasks_of d) as [subs|] eqn:Hs.
    + destruct Hv as (subs' & t' & c' & Hrec & -> & _ & _). simpl stored_as.
      destruct p' as [|i' p''].
      * split; intros d0 H0; [discriminate|]. injection H0 as <-.
        eexists; split; [reflexivity|].
        rewrite (get_set_other _ _ _ _ sub_tasks_is_not_completed).
        now rewrite get_set_same.
      * cbv iota beta. rewrite sub_tasks_of_set.
        exact (IH _ _ _ _ _ _ _ Hrec (i' :: p'')).
    + destruct Hv as [-> _]. simpl stored_as.
      destruct p' as [|i' p''].
      * split; intros d0 H0; [discriminate|]. injection H0 as <-.
        eexists; split; [reflexivity|]. now rewrite get_set_same.
      * split; intros; discriminate.
Qed.

Lemma legacy_write_is_transient_witness :
  render_tasks 2 ticked [PStr (py "a"); PDict [(k_task, PStr (py "b"))]] 0 root
  = ([PStr (py "a"); PDict [(k_task, PStr (py "b")); (k_completed, PBool true)]],
     Returned 2 2)
  /\ entry_at
       [PStr (py "a"); PDict [(k_task, PStr (py "b")); (k_completed, PBool true)]]
       [0]
     = Some (PStr (py "a")).
Proof.
  assert (H : render_tasks 2 ticked
                [PStr (py "a"); PDict [(k_task, PStr (py "b"))]] 0 root
              = ([PStr (py "a");
                  PDict [(k_task, PStr (py "b")); (k_completed, PBool true)]],
                 Returned 2 2)) by (vm_compute; reflexivity).
  split; [exact H|].
  exact (proj1 (legacy_write_is_transient _ _ _ _ _ _ _ _ H [0]) (py "a") eq_refl).
Defined.

(** ** The tree read from the stored values *)

Lemma read_node_dict (d : pydict) :
  read_node (PDict d)
  = match Dict.get d k_task with
    | None => None
    | Some _ =>
        match (match sub_tasks_of d with
               | Some l => read_forest l
               | None => Some []
               end) with
        | Some ks =>
            Some (mkNode (description_shown d) (priority_shown d)
                    (completed_shown d) ks)
        | None => None
        end
    end.
Proof.
  cbn [read_node]. destruct (Dict.get d k_task); [|reflexivity].
  match goal with
  | |- match ?F d with _ => _ end = _ =>
      assert (E : forall d', F d' = match sub_tasks_of d' with
                                    | Some l => read_forest l
                                    | None => Some []
                                    end)
  end.
  { induction d' as [|[k x] d' IH].
    - reflexivity.
    - unfold sub_tasks_of. cbn [Dict.get].
      destruct (PyStr.eqb k k_sub_tasks).
      + destruct x; reflexivity.
      + exact IH. }
  now rewrite E.
Qed.

Lemma priority_is_not_completed : k_completed <> k_priority.
Proof. intros H. vm_compute in H. discriminate. Qed.

Lemma priority_is_not_sub_tasks : k_sub_tasks <> k_priority.
Proof. intros H. vm_compute in H. discriminate. Qed.

(** The node read from a dict after the writes of a turn: the status
    written to ["completed"], and the list left under ["sub_tasks"]. *)
Lemma read_node_written (d : pydict) (b : bool) (subs' : list pyval)
    (ks : list TaskNode) :
  Dict.get d k_task <> None ->
  read_forest subs' = Some ks ->
  read_node (PDict (Dict.set (Dict.set d k_completed (PBool b))
                      k_sub_tasks (PList subs')))
  = Some (mkNode (description_shown d) (priority_shown d) b ks).
Proof.
  intros Ht Hks. rewrite read_node_dict.
  rewrite (get_set_other _ _ _ _ sub_tasks_is_not_task).
  rewrite (get_set_other _ _ _ _ completed_is_not_task).
  destruct (Dict.get d k_task) eqn:E; [|contradiction].
  rewrite sub_tasks_of_set, Hks.
  unfold description_shown, priority_shown, completed_shown, Dict.get_default.
  rewrite (get_set_other _ _ _ _ sub_tasks_is_not_task).
  rewrite (get_set_other _ _ _ _ completed_is_not_task).
  rewrite (get_set_other _ _ _ _ priority_is_not_sub_tasks).
  rewrite (get_set_other _ _ _ _ priority_is_not_completed).
  rewrite (get_set_other _ _ _ _ sub_tasks_is_not_completed).
  rewrite get_set_same, E. reflexivity.
Qed.

Lemma read_node_checked (d : pydict) (b : bool) :
  Dict.get d k_task <> None ->
  sub_tasks_of d = None ->
  read_node (PDict (Dict.set d k_completed (PBool b)))
  = Some (mkNode (description_shown d) (priority_shown d) b []).
Proof.
  intros Ht Hs. rewrite read_node_dict.
  rewrite (get_set_other _ _ _ _ completed_is_not_task).
  destruct (Dict.get d k_task) eqn:E; [|contradiction].
  rewrite sub_tasks_of_set_completed, Hs.
  unfold description_shown, priority_shown, completed_shown, Dict.get_default.
  rewrite (get_set_other _ _ _ _ completed_is_not_task).
  rewrite (get_set_other _ _ _ _ priority_is_not_completed).
  rewrite get_set_same, E. reflexivity.
Qed.

(** ** An undisturbed traversal *)

Lemma task_key_suffix (K : pystr) (level i : nat) (suf : pystr) :
  exists suf', task_key K level i ++ suf = K ++ suf' /\ key_suffix suf'.
Proof.
  exists (py "_" ++ str_of_nat level ++ py "_" ++ str_of_nat i ++ suf).
  split.
  - unfold task_key. now rewrite <- !app_assoc.
  - right. eexists. reflexivity.
Qed.

Lemma silent_child (ui : widgets) (K : pystr) (level i : nat) :
  silent ui K -> silent ui (task_key K level i).
Proof.
  intros H suf _.
  destruct (task_key_suffix K level i suf) as (suf' & -> & Hs).
  now apply H.
Qed.

Lemma silent_here (ui : widgets) (K : pystr) (level i : nat) :
  silent ui K ->
  button ui (btn_add_sub (task_key K level i)) = false
  /\ button ui (btn_del (task_key K level i)) = false.
Proof.
  intros H. destruct (task_key_suffix K level i []) as (suf' & E & Hs).
  rewrite app_nil_r in E. rewrite E. now apply H.
Qed.

Lemma quiet_is_silent (K : pystr) : silent quiet K.
Proof. intros suf _. split; reflexivity. Qed.

Lemma forest_height_cons (n : TaskNode) (ns : list TaskNode) :
  forest_height (n :: ns) = Nat.max (height n) (forest_height ns).
Proof. reflexivity. Qed.

Lemma height_eq (n : TaskNode) : height n = S (forest_height (subtasks n)).
Proof. destruct n; reflexivity. Qed.

Lemma size_eq (n : TaskNode) : size n = S (total_nodes (subtasks n)).
Proof. destruct n; reflexivity. Qed.

Lemma flagged_eq (n : TaskNode) :
  flagged n = (if completed n then 1 else 0) + total_flagged (subtasks n).
Proof. destruct n; reflexivity. Qed.

(** One turn on a page where no button of the entry was clicked: the
    turn continues, counts the node and its subtree, and leaves an entry
    that reads as the same node. [rec] is assumed to do so on lists of
    lower trees. *)
Lemma quiet_turn rec (ui : widgets) (level i : nat) (K : pystr) (f : nat)
    (raw : pyval) (n : TaskNode) :
  (forall subs ks,
      read_forest subs = Some ks -> forest_height ks < f ->
      exists subs',
        rec subs (S level) (task_key K level i)
        = (subs', Returned (total_nodes ks) (total_flagged ks))
        /\ read_forest subs' = Some ks) ->
  fresh ui ->
  button ui (btn_add_sub (task_key K level i)) = false ->
  button ui (btn_del (task_key K level i)) = false ->
  read_node raw = Some n -> height n <= f ->
  exists raw',
    render_item rec ui level K i raw = Continue raw' (size n) (flagged n)
    /\ read_node raw' = Some n.
Proof.
  intros Hrec Hfresh Hadd Hdel Hn Hh.
  destruct raw as [| | | |s|l|d]; try discriminate.
  - (* a bare string *)
    injection Hn as <-. exists (PStr s).
    unfold render_item, normalize, visit_item, checkbox_status.
    rewrite Hfresh, Hadd, Hdel. split; reflexivity.
  - (* a dict *)
    rewrite read_node_dict in Hn.
    unfold render_item, normalize, visit_item, checkbox_status.
    rewrite Hfresh, Hadd, Hdel. cbn [andb stored_as].
    rewrite (get_set_other _ _ _ _ completed_is_not_task).
    destruct (Dict.get d k_task) eqn:Ht; [|discriminate].
    assert (Ht' : Dict.get d k_task <> None) by (rewrite Ht; discriminate).
    rewrite sub_tasks_of_set_completed.
    fold (completed_shown d).
    destruct (sub_tasks_of d) as [subs|] eqn:Hs.
    + destruct (read_forest subs) as [ks|] eqn:Hks; [|discriminate].
      injection Hn as <-. rewrite height_eq in Hh. cbn [subtasks] in Hh.
      destruct (Hrec subs ks Hks) as (subs' & -> & Hks'); [lia|].
      eexists. split.
      * rewrite size_eq, flagged_eq. reflexivity.
      * now apply read_node_written.
    + injection Hn as <-. eexists. split.
      * rewrite size_eq, flagged_eq. cbn [subtasks completed].
        unfold total_flagged, total_nodes. cbn [map list_sum].
        now rewrite Nat.add_0_r.
      * now apply read_node_checked.
Qed.

(** The loop on such a page. *)
Lemma quiet_loop (visit : nat -> pyval -> item_result) (c : container) (f : nat) :
  forall tasks forest i,
    (forall j raw n,
        read_node raw = Some n -> height n <= f ->
        exists raw',
          visit j raw = Continue raw' (size n) (flagged n)
          /\ read_node raw' = Some n) ->
    read_forest tasks = Some forest -> forest_height forest <= f ->
    exists tasks',
      render_loop visit c i tasks
      = (tasks', Returned (total_nodes forest) (total_flagged forest))
      /\ read_forest tasks' = Some forest.
Proof.
  induction tasks as [|raw rest IH]; intros forest i Hv Hf Hh.
  - injection Hf as <-. exists []. split; reflexivity.
  - cbn [read_forest] in Hf.
    destruct (read_node raw) as [n|] eqn:Hn; [|discriminate].
    destruct (read_forest rest) as [ns|] eqn:Hns; [|discriminate].
    injection Hf as <-. rewrite forest_height_cons in Hh.
    destruct (Hv i raw n Hn) as (raw' & Hraw & Hn'); [lia|].
    destruct (IH ns (S i) Hv eq_refl) as (rest' & Hrest & Hns'); [lia|].
    exists (raw' :: rest'). cbn [render_loop]. rewrite Hraw, Hrest.
    split; [reflexivity|].
    cbn [read_forest]. now rewrite Hn', Hns'.
Qed.

(** A traversal with nothing touched returns the two counts of the
    forest and leaves a forest that reads the same. *)
Lemma quiet_traversal :
  forall fuel ui tasks forest level K,
    fresh ui -> silent ui K ->
    read_forest tasks = Some forest -> forest_height forest < fuel ->
    exists tasks',
      render_tasks fuel ui tasks level K
      = (tasks', Returned (total_nodes forest) (total_flagged forest))
      /\ read_forest tasks' = Some forest.
Proof.
  induction fuel as [|f IH]; intros ui tasks forest level K Hfr Hsi Hf Hh;
    [lia|].
  cbn [render_tasks].
  apply quiet_loop with (f := f); [|exact Hf|lia].
  intros j raw n Hn Hhn.
  destruct (silent_here ui K level j Hsi) as [Hadd Hdel].
  apply quiet_turn with (f := f); try assumption.
  intros subs ks Hks Hhk.
  apply IH; try assumption. now apply silent_child.
Qed.

(** ** Counting *)

Lemma aggregate_quiet (fuel : nat) (tasks : list pyval) (forest : list TaskNode) :
  read_forest tasks = Some forest -> forest_height forest < fuel ->
  aggregate fuel tasks = Returned (total_nodes forest) (total_flagged forest).
Proof.
  intros Hread Hfuel. unfold aggregate.
  destruct (quiet_traversal fuel quiet tasks forest 0 root
              (fun _ => eq_refl) (quiet_is_silent root) Hread Hfuel)
    as (tasks' & -> & _).
  reflexivity.
Qed.

(** C2: for a stored forest that reads as a forest of task nodes, the
    undisturbed traversal returns the number of nodes at all depths and
    the number of nodes whose own flag is set. *)
Theorem aggregate_counts_nodes (fuel : nat) (tasks : list pyval)
    (forest : list TaskNode)
    (Hread : read_forest tasks = Some forest)
    (Hfuel : forest_height forest < fuel) :
  aggregate fuel tasks = Returned (total_nodes forest) (total_flagged forest).
Proof.
  now apply aggregate_quiet.
Qed.

(** ** Widget keys *)

Lemma digits_apart (u v : Decimal.uint) (s t : pystr) :
  key_suffix s -> key_suffix t ->
  digits u ++ s = digits v ++ t -> u = v /\ s = t.
Proof.
  revert v s t.
  induction u as [|u IH|u IH|u IH|u IH|u IH|u IH|u IH|u IH|u IH|u IH];
    intros v s t Hs Ht H; destruct v; cbn [digits app] in H;
    try (destruct Hs as [->|[s' ->]]; discriminate);
    try (destruct Ht as [->|[t' ->]]; discriminate);
    try discriminate;
    try (injection H as H; destruct (IH _ _ _ Hs Ht H) as [-> ->];
         split; reflexivity).
  split; [reflexivity|exact H].
Qed.

Lemma str_of_nat_apart (i j : nat) (s t : pystr) :
  key_suffix s -> key_suffix t ->
  str_of_nat i ++ s = str_of_nat j ++ t -> i = j /\ s = t.
Proof.
  intros Hs Ht H. destruct (digits_apart _ _ _ _ Hs Ht H) as [E ->].
  split; [|reflexivity].
  rewrite <- (Unsigned.of_to i), <- (Unsigned.of_to j). now rewrite E.
Qed.

Lemma task_key_apart (K : pystr) (level i j : nat) (s t : pystr) :
  key_suffix s -> key_suffix t ->
  task_key K level i ++ s = task_key K level j ++ t -> i = j /\ s = t.
Proof.
  intros Hs Ht H. unfold task_key in H. rewrite <- !app_assoc in H.
  do 4 apply app_inv_head in H. now apply str_of_nat_apart.
Qed.

Lemma add_is_not_del (a b : pystr) : btn_add_sub a <> btn_del b.
Proof.
  intros H. apply (f_equal (fun l => nth_error l 4)) in H.
  vm_compute in H. discriminate.
Qed.

Lemma tagged_key_apart (tag1 tag2 K : pystr) (level i j : nat) (s t : pystr) :
  is_tag tag1 -> is_tag tag2 -> key_suffix s -> key_suffix t ->
  tag1 ++ task_key K level i ++ s = tag2 ++ task_key K level j ++ t ->
  i = j /\ s = t.
Proof.
  intros [-> | ->] [-> | ->] Hs Ht H.
  - apply app_inv_head in H. now apply task_key_apart in H.
  - now apply add_is_not_del in H.
  - symmetry in H. now apply add_is_not_del in H.
  - apply app_inv_head in H. now apply task_key_apart in H.
Qed.

Lemma path_key_cons :
  forall p K level i,
    exists sfx,
      path_key K level (i :: p) = task_key K level i ++ sfx
      /\ key_suffix sfx /\ (p <> [] -> sfx <> []).
Proof.
  induction p as [|i' p IH]; intros K level i.
  - exists []. cbn [path_key]. rewrite app_nil_r.
    repeat split; [now left|contradiction].
  - destruct (IH (task_key K level i) (S level) i') as (sfx & E & _ & _).
    exists (py "_" ++ str_of_nat (S level) ++ py "_" ++ str_of_nat i' ++ sfx).
    repeat split.
    + change (path_key K level (i :: i' :: p))
        with (path_key (task_key K level i) (S level) (i' :: p)).
      rewrite E. unfold task_key at 1. now rewrite <- !app_assoc.
    + right. eexists. reflexivity.
    + intros _ H. discriminate.
Qed.

Lemma sibling_silent (tag : pystr) typed (K : pystr) (level i j : nat) (sfx : pystr) :
  is_tag tag -> key_suffix sfx -> j <> i ->
  silent (clicking (tag ++ task_key K level i ++ sfx) typed) (task_key K level j).
Proof.
  intros Htag Hsfx Hji suf Hsuf. cbn [clicking button].
  split; apply eqb_neq; intros E.
  - apply tagged_key_apart in E; try assumption; [|now left].
    now destruct E.
  - apply tagged_key_apart in E; try assumption; [|now right].
    now destruct E.
Qed.

Lemma target_is_below (tag tag' : pystr) typed (K : pystr) (level i : nat)
    (sfx : pystr) :
  is_tag tag -> is_tag tag' -> key_suffix sfx -> sfx <> [] ->
  button (clicking (tag ++ task_key K level i ++ sfx) typed)
    (tag' ++ task_key K level i) = false.
Proof.
  intros Htag Htag' Hsfx Hne. cbn [clicking button].
  apply eqb_neq. intros E.
  rewrite <- (app_nil_r (task_key K level i)) in E at 1.
  apply tagged_key_apart in E; try assumption; [|now left].
  destruct E as [_ E]. now symmetry in E.
Qed.

(** ** A traversal with one button clicked *)

Lemma read_forest_nth :
  forall tasks forest i x,
    read_forest tasks = Some forest -> nth_error tasks i = Some x ->
    exists n, read_node x = Some n /\ nth_error forest i = Some n.
Proof.
  induction tasks as [|raw rest IH]; intros forest i x Hf Hi.
  - destruct i; discriminate.
  - cbn [read_forest] in Hf.
    destruct (read_node raw) as [m|] eqn:Hm; [|discriminate].
    destruct (read_forest rest) as [ns|] eqn:Hns; [|discriminate].
    injection Hf as <-. destruct i as [|i]; cbn in Hi.
    + injection Hi as <-. now exists m.
    + now apply (IH ns i x).
Qed.

Lemma read_forest_app :
  forall a b x y,
    read_forest a = Some x -> read_forest b = Some y ->
    read_forest (a ++ b) = Some (x ++ y).
Proof.
  induction a as [|raw a IH]; intros b x y Ha Hb.
  - injection Ha as <-. exact Hb.
  - cbn [read_forest] in Ha. cbn [app read_forest].
    destruct (read_node raw) as [m|]; [|discriminate].
    destruct (read_forest a) as [ns|] eqn:Hns; [|discriminate].
    injection Ha as <-. now rewrite (IH b ns y eq_refl Hb).
Qed.

(** The loop when the entries before index [i0] are passed over and the
    turn at [i0] ends the traversal. *)
Lemma targeted_loop (visit : nat -> pyval -> item_result) (f : nat) :
  forall i0 tasks forest i e X,
    read_forest tasks = Some forest -> forest_height forest <= f ->
    nth_error tasks i0 = Some e ->
    (forall j raw m,
        j < i0 -> read_node raw = Some m -> height m <= f ->
        exists raw',
          visit (i + j) raw = Continue raw' (size m) (flagged m)
          /\ read_node raw' = Some m) ->
    turn_alters (visit (i + i0) e) X ->
    exists tasks',
      render_loop visit IsList i tasks = (tasks', Rerun)
      /\ read_forest tasks'
         = Some (firstn i0 forest ++ X ++ skipn (S i0) forest).
Proof.
  induction i0 as [|i0 IH]; intros tasks forest i e X Hf Hh Hi Hpre Halt;
    destruct tasks as [|raw rest]; try discriminate;
    cbn [read_forest] in Hf;
    destruct (read_node raw) as [m|] eqn:Hm; try discriminate;
    destruct (read_forest rest) as [ns|] eqn:Hns; try discriminate;
    injection Hf as <-; cbn [nth_error] in Hi.
  - injection Hi as ->. rewrite Nat.add_0_r in Halt.
    cbn [render_loop firstn skipn app].
    destruct Halt as [(raw' & -> & HX)|(raw' & -> & ->)].
    + exists (raw' :: rest). split; [reflexivity|].
      change (raw' :: rest) with ([raw'] ++ rest).
      now apply read_forest_app.
    + exists rest. split; [reflexivity|exact Hns].
  - rewrite forest_height_cons in Hh.
    destruct (Hpre 0 raw m) as (raw' & Hraw & Hm'); [lia|exact Hm|lia|].
    rewrite Nat.add_0_r in Hraw.
    destruct (IH rest ns (S i) e X Hns) as (rest' & Hrest & Hns');
      [lia|exact Hi| | |].
    + intros j raw0 m0 Hj Hm0 Hh0.
      replace (S i + j) with (i + S j) by lia. apply Hpre; [lia|assumption..].
    + now replace (S i + i0) with (i + S i0) by lia.
    + exists (raw' :: rest'). cbn [render_loop]. rewrite Hraw, Hrest.
      split; [reflexivity|].
      cbn [firstn skipn app read_forest]. cbn [skipn] in Hns'.
      now rewrite Hm', Hns'.
Qed.

Lemma silent_self (ui : widgets) (K : pystr) :
  silent ui K ->
  button ui (btn_add_sub K) = false /\ button ui (btn_del K) = false.
Proof.
  intros H. destruct (H [] (or_introl eq_refl)) as [H1 H2].
  now rewrite app_nil_r in H1, H2.
Qed.

Lemma nth_height :
  forall forest i n,
    nth_error forest i = Some n -> height n <= forest_height forest.
Proof.
  induction forest as [|m ns IH]; intros i n Hi.
  - destruct i; discriminate.
  - rewrite forest_height_cons. destruct i as [|i]; cbn in Hi.
    + injection Hi as ->. lia.
    + specialize (IH i n Hi). lia.
Qed.

(** The traversal when the only button clicked is the button [tag] of
    the entry [e] at the path [p], whose key is [T]: it ends with a
    rerun, and the forest it leaves reads as the forest altered at [p],
    provided the turn on [e] does what [final] says. *)
Lemma targeted_traversal (tag : pystr) (typed : pystr -> pystr)
    (final : TaskNode -> list TaskNode) (e : pyval) (T : pystr) :
  is_tag tag ->
  (forall rec level K i n,
      task_key K level i = T ->
      read_node e = Some n ->
      turn_alters
        (render_item rec (clicking (tag ++ T) typed) level K i e)
        (final n)) ->
  forall p fuel tasks forest level K,
    path_key K level p = T ->
    read_forest tasks = Some forest -> forest_height forest < fuel ->
    entry_at tasks p = Some e ->
    exists tasks' forest',
      render_tasks fuel (clicking (tag ++ T) typed) tasks level K
      = (tasks', Rerun)
      /\ alter_at final forest p = Some forest'
      /\ read_forest tasks' = Some forest'.
Proof.
  intros Htag Hfinal.
  induction p as [|i0 p' IH]; intros fuel tasks forest level K HT Hf Hh He;
    [discriminate|].
  subst T.
  destruct fuel as [|f]; [lia|].
  cbn [entry_at] in He.
  destruct (nth_error tasks i0) as [v|] eqn:Hi; [|discriminate].
  destruct (read_forest_nth _ _ _ _ Hf Hi) as (n & Hn & Hni).
  pose proof (nth_height _ _ _ Hni) as Hhn.
  destruct (path_key_cons p' K level i0) as (sfx & Ekey & Hsfx & Hne).
  assert (Hpre : forall j raw m,
             j < i0 -> read_node raw = Some m -> height m <= f ->
             exists raw',
               render_item
                 (render_tasks f (clicking (tag ++ path_key K level (i0 :: p')) typed))
                 (clicking (tag ++ path_key K level (i0 :: p')) typed)
                 level K (0 + j) raw
               = Continue raw' (size m) (flagged m)
               /\ read_node raw' = Some m).
  { intros j raw m Hj Hm Hhm. rewrite Ekey. cbn [Nat.add].
    assert (Hs : silent (clicking (tag ++ task_key K level i0 ++ sfx) typed)
                   (task_key K level j))
      by (apply sibling_silent; [assumption..|lia]).
    destruct (silent_self _ _ Hs) as [Hadd Hdel].
    apply quiet_turn with (f := f); try assumption; [|intros k; reflexivity].
    intros subs ks Hks Hhk.
    apply quiet_traversal; try assumption. intros k; reflexivity. }
  cbn [render_tasks alter_at]. rewrite Hni.
  destruct p' as [|i1 p''].
  - (* the entry is at this level *)
    injection He as ->.
    match goal with
    | |- context [render_loop ?visit _ _ _] =>
        destruct (targeted_loop visit f i0 tasks forest 0 e (final n) Hf)
          as (tasks' & Hloop & Hread); [lia|exact Hi|exact Hpre| |]
    end.
    + cbn [path_key Nat.add]. now apply Hfinal.
    + exists tasks'. eexists. repeat split; [exact Hloop|exact Hread].
  - (* the entry is below this one *)
    destruct v as [| | | | |l|d]; try discriminate.
    destruct (sub_tasks_of d) as [subs|] eqn:Hs; [|discriminate].
    rewrite read_node_dict, Hs in Hn.
    destruct (Dict.get d k_task) eqn:Ht; [|discriminate].
    destruct (read_forest subs) as [ks|] eqn:Hks; [|discriminate].
    injection Hn as <-. rewrite height_eq in Hhn. cbn [subtasks] in *.
    destruct (IH f subs ks (S level) (task_key K level i0) eq_refl Hks)
      as (subs' & ks' & Hrec & Halt & Hks'); [lia|exact He|].
    rewrite Halt.
    match goal with
    | |- context [render_loop ?visit _ _ _] =>
        destruct (targeted_loop visit f i0 tasks forest 0 (PDict d)
                    [mkNode (description_shown d) (priority_shown d)
                       (completed_shown d) ks'] Hf)
          as (tasks' & Hloop & Hread); [lia|exact Hi|exact Hpre| |]
    end.
    + left. cbn [Nat.add].
      unfold render_item, normalize, visit_item, checkbox_status.
      cbn [clicking checkbox]. fold (completed_shown d).
      rewrite (get_set_other _ _ _ _ completed_is_not_task), Ht.
      change (button (clicking (tag ++ path_key K level (i0 :: i1 :: p'')) typed)
                (btn_add_sub (task_key K level i0)))
        with (button (clicking (tag ++ path_key K level (i0 :: i1 :: p'')) typed)
                (py "btn_add_sub_" ++ task_key K level i0)).
      change (button (clicking (tag ++ path_key K level (i0 :: i1 :: p'')) typed)
                (btn_del (task_key K level i0)))
        with (button (clicking (tag ++ path_key K level (i0 :: i1 :: p'')) typed)
                (py "btn_del_" ++ task_key K level i0)).
      rewrite Ekey.
      rewrite !target_is_below;
        try assumption; try (now left); try (now right);
        try (apply Hne; discriminate).
      cbn [andb]. rewrite sub_tasks_of_set_completed, Hs.
      rewrite <- Ekey. cbn [path_key] in Hrec |- *. rewrite Hrec.
      eexists. split; [reflexivity|].
      cbn [stored_as read_forest].
      rewrite (read_node_written d (completed_shown d) subs' ks');
        [reflexivity| |exact Hks'].
      rewrite Ht. discriminate.
    + exists tasks'. eexists. repeat split; [exact Hloop|].
      exact Hread.
Qed.

Lemma entry_node :
  forall p tasks forest e,
    read_forest tasks = Some forest -> entry_at tasks p = Some e ->
    exists n, node_at forest p = Some n /\ read_node e = Some n.
Proof.
  induction p as [|i p IH]; intros tasks forest e Hf He; [discriminate|].
  cbn [entry_at node_at] in *.
  destruct (nth_error tasks i) as [v|] eqn:Hi; [|discriminate].
  destruct (read_forest_nth _ _ _ _ Hf Hi) as (n & Hn & ->).
  destruct p as [|i' p'].
  - injection He as <-. now exists n.
  - destruct v as [| | | | |l|d]; try discriminate.
    destruct (sub_tasks_of d) as [subs|] eqn:Hs; [|discriminate].
    rewrite read_node_dict, Hs in Hn.
    destruct (Dict.get d k_task); [|discriminate].
    destruct (read_forest subs) as [ks|] eqn:Hks; [|discriminate].
    injection Hn as <-. cbn [subtasks]. now apply (IH subs).
Qed.

(** ** Delete *)

(** The turn on an entry whose Delete button was clicked. *)
Lemma delete_turn (typed : pystr -> pystr) (e : pyval) (T : pystr) :
  forall rec level K i n,
    task_key K level i = T ->
    read_node e = Some n ->
    turn_alters
      (render_item rec (clicking (py "btn_del_" ++ T) typed) level K i e) [].
Proof.
  intros rec level K i n <- Hn. right.
  assert (Hadd : PyStr.eqb (btn_add_sub (task_key K level i))
                   (btn_del (task_key K level i)) = false)
    by (apply eqb_neq, add_is_not_del).
  destruct e as [| | | |s|l|d]; try discriminate.
  - exists (PStr s).
    unfold render_item, normalize, visit_item. cbn [clicking button].
    fold (btn_del (task_key K level i)). rewrite Hadd, eqb_refl.
    split; reflexivity.
  - rewrite read_node_dict in Hn.
    destruct (Dict.get d k_task) eqn:Ht; [|discriminate].
    eexists.
    unfold render_item, normalize, visit_item. cbn [clicking button].
    fold (btn_del (task_key K level i)). rewrite Hadd, eqb_refl.
    rewrite (get_set_other _ _ _ _ completed_is_not_task), Ht.
    split; reflexivity.
Qed.

Lemma total_nodes_cons (n : TaskNode) (ns : list TaskNode) :
  total_nodes (n :: ns) = size n + total_nodes ns.
Proof. reflexivity. Qed.

Lemma total_nodes_app (a b : list TaskNode) :
  total_nodes (a ++ b) = total_nodes a + total_nodes b.
Proof. unfold total_nodes. now rewrite map_app, list_sum_app. Qed.

Lemma forest_height_app (a b : list TaskNode) :
  forest_height (a ++ b) = Nat.max (forest_height a) (forest_height b).
Proof. unfold forest_height. now rewrite map_app, list_max_app. Qed.

Lemma nth_split_at :
  forall (forest : list TaskNode) i n,
    nth_error forest i = Some n ->
    forest = firstn i forest ++ n :: skipn (S i) forest.
Proof.
  induction forest as [|m ns IH]; intros i n Hi.
  - destruct i; discriminate.
  - destruct i as [|i]; cbn in Hi.
    + now injection Hi as ->.
    + cbn [firstn skipn app]. f_equal. now apply IH.
Qed.

Lemma total_nodes_split (forest : list TaskNode) (i : nat) (n : TaskNode) :
  nth_error forest i = Some n ->
  total_nodes forest
  = total_nodes (firstn i forest) + size n + total_nodes (skipn (S i) forest).
Proof.
  intros Hi. rewrite (nth_split_at _ _ _ Hi) at 1.
  rewrite total_nodes_app, total_nodes_cons. lia.
Qed.

Lemma forest_height_split (forest : list TaskNode) (i : nat) (n : TaskNode) :
  nth_error forest i = Some n ->
  forest_height forest
  = Nat.max (forest_height (firstn i forest))
      (Nat.max (height n) (forest_height (skipn (S i) forest))).
Proof.
  intros Hi. rewrite (nth_split_at _ _ _ Hi) at 1.
  now rewrite forest_height_app, forest_height_cons.
Qed.

(** Deleting at a path takes away the node found there with all the
    nodes below it, and makes no tree higher. *)
Lemma delete_total :
  forall p forest forest',
    deleteNode forest p = Some forest' ->
    exists n,
      node_at forest p = Some n
      /\ total_nodes forest = total_nodes forest' + (1 + descendants n)
      /\ forest_height forest' <= forest_height forest.
Proof.
  unfold deleteNode.
  induction p as [|i p IH]; intros forest forest' H; [discriminate|].
  cbn [alter_at node_at] in *.
  destruct (nth_error forest i) as [m|] eqn:Hi; [|discriminate].
  rewrite (total_nodes_split _ _ _ Hi), (forest_height_split _ _ _ Hi).
  destruct p as [|i' p'].
  - injection H as <-. exists m. split; [reflexivity|].
    change (match forest with [] => [] | _ :: l => skipn i l end)
      with (skipn (S i) forest).
    rewrite total_nodes_app, forest_height_app, size_eq.
    unfold descendants. lia.
  - destruct (alter_at (fun _ => []) (subtasks m) (i' :: p')) as [subs'|] eqn:Hsub;
      [|discriminate].
    injection H as <-.
    destruct (IH _ _ Hsub) as (n & Hn & Htot & Hhei).
    exists n. split; [exact Hn|].
    change (match forest with [] => [] | _ :: l => skipn i l end)
      with (skipn (S i) forest).
    rewrite total_nodes_app, total_nodes_cons, forest_height_app,
      forest_height_cons.
    rewrite !size_eq, !height_eq. cbn [with_subtasks subtasks].
    unfold descendants in *. lia.
Qed.

(** C8: in a stored forest that reads as a forest of task nodes, a click
    on the Delete button of the entry at a path ends the traversal with
    a rerun; the forest left reads as the forest without the node at
    the path, and the undisturbed count of tasks is lower by one plus
    the number of nodes below that node. *)
Theorem delete_removes_subtree (fuel : nat) (tasks : list pyval)
    (forest : list TaskNode) (p : path) (e : pyval) (typed : pystr -> pystr)
    (Hread : read_forest tasks = Some forest)
    (Hfuel : forest_height forest < fuel)
    (Hpath : entry_at tasks p = Some e) :
  exists tasks' forest' n k',
    render_tasks fuel (clicking (btn_del (path_key root 0 p)) typed) tasks 0 root
    = (tasks', Rerun)
    /\ node_at forest p = Some n
    /\ deleteNode forest p = Some forest'
    /\ read_forest tasks' = Some forest'
    /\ aggregate fuel tasks = Returned (total_nodes forest) (total_flagged forest)
    /\ aggregate fuel tasks' = Returned (total_nodes forest') k'
    /\ total_nodes forest = total_nodes forest' + (1 + descendants n).
Proof.
  destruct (targeted_traversal (py "btn_del_") typed (fun _ => []) e
              (path_key root 0 p) (or_intror eq_refl)
              (delete_turn typed e (path_key root 0 p))
              p fuel tasks forest 0 root eq_refl Hread Hfuel Hpath)
    as (tasks' & forest' & Hrun & Hdel & Hread').
  destruct (delete_total _ _ _ Hdel) as (n & Hn & Htot & Hhei).
  exists tasks', forest', n, (total_flagged forest').
  repeat split; try assumption.
  - now apply aggregate_quiet.
  - apply aggregate_quiet; [exact Hread'|lia].
Qed.

(** ** Add subtask *)

Lemma read_new_subtask (text : pystr) :
  read_forest [new_subtask text] = Some [leaf text].
Proof. reflexivity. Qed.

(** The turn on a dict entry whose Add Subtask button was clicked, with
    a text that is not blank. *)
Lemma add_turn (typed : pystr -> pystr) (d : pydict) (T : pystr) :
  strip (typed (input_sub T)) <> [] ->
  forall rec level K i n,
    task_key K level i = T ->
    read_node (PDict d) = Some n ->
    turn_alters
      (render_item rec (clicking (py "btn_add_sub_" ++ T) typed) level K i (PDict d))
      (append_leaf (strip (typed (input_sub T))) n).
Proof.
  intros Htext rec level K i n <- Hn. left.
  rewrite read_node_dict in Hn.
  destruct (Dict.get d k_task) eqn:Ht; [|discriminate].
  assert (Ht' : Dict.get d k_task <> None) by (rewrite Ht; discriminate).
  unfold render_item, normalize, visit_item, checkbox_status.
  cbn [clicking checkbox button text_input].
  fold (btn_add_sub (task_key K level i)). rewrite eqb_refl.
  fold (completed_shown d).
  rewrite (get_set_other _ _ _ _ completed_is_not_task), Ht.
  destruct (strip (typed (input_sub (task_key K level i)))) as [|c r] eqn:Hstrip;
    [contradiction|].
  cbn [truthy andb stored_as].
  eexists. split; [reflexivity|].
  rewrite sub_tasks_of_set_completed. cbn [read_forest].
  destruct (sub_tasks_of d) as [subs|] eqn:Hs.
  - destruct (read_forest subs) as [ks|] eqn:Hks; [|discriminate].
    injection Hn as <-.
    rewrite (read_node_written d (completed_shown d) _ (ks ++ [leaf (c :: r)]) Ht');
      [reflexivity|].
    apply read_forest_app; [exact Hks|apply read_new_subtask].
  - injection Hn as <-.
    rewrite (read_node_written d (completed_shown d) _ ([] ++ [leaf (c :: r)]) Ht');
      [reflexivity|].
    apply read_forest_app; [reflexivity|apply read_new_subtask].
Qed.

(** The same click on a bare-string entry: the subtask goes to the dict
    made for the turn, and the stored entry is the string as before. *)
Lemma add_on_bare_string_is_lost rec (typed : pystr -> pystr) (level i : nat)
    (K s : pystr) :
  strip (typed (input_sub (task_key K level i))) <> [] ->
  render_item rec (clicking (btn_add_sub (task_key K level i)) typed)
    level K i (PStr s)
  = Stop (PStr s) Rerun.
Proof.
  intros Htext.
  unfold render_item, normalize, visit_item, checkbox_status.
  cbn [clicking checkbox button text_input]. rewrite eqb_refl.
  destruct (strip (typed (input_sub (task_key K level i)))); [contradiction|].
  reflexivity.
Qed.

Lemma render_loop_ext (v1 v2 : nat -> pyval -> item_result) (c : container) :
  (forall i x, v1 i x = v2 i x) ->
  forall tasks i, render_loop v1 c i tasks = render_loop v2 c i tasks.
Proof.
  intros H. induction tasks as [|raw rest IH]; intros i; [reflexivity|].
  cbn [render_loop]. now rewrite H, IH.
Qed.

(** A click on Add Subtask over a blank input is no click at all. *)
Lemma blank_add_is_no_click :
  forall fuel ui k tasks level K,
    strip (text_input ui (input_sub k)) = [] ->
    render_tasks fuel ui tasks level K
    = render_tasks fuel (release ui (btn_add_sub k)) tasks level K.
Proof.
  induction fuel as [|f IH]; intros ui k tasks level K Hblank; [reflexivity|].
  cbn [render_tasks]. apply render_loop_ext. intros i x.
  unfold render_item. destruct (normalize x); try reflexivity.
  unfold visit_item, checkbox_status. cbn [release checkbox text_input button].
  destruct (Dict.get _ k_task); [|reflexivity].
  assert (Hdel : PyStr.eqb (btn_del (task_key K level i)) (btn_add_sub k) = false).
  { apply eqb_neq. intros E. symmetry in E. now apply add_is_not_del in E. }
  rewrite Hdel.
  destruct (PyStr.eqb (btn_add_sub (task_key K level i)) (btn_add_sub k)) eqn:E.
  - apply eqb_eq in E. apply app_inv_head in E. rewrite E, Hblank.
    cbn [truthy]. rewrite andb_false_r. cbn [andb].
    destruct (button ui (btn_del k)); [reflexivity|].
    destruct (sub_tasks_of _); [|reflexivity].
    now rewrite <- (IH ui k _ _ _ Hblank).
  - destruct (_ && _); [reflexivity|].
    destruct (button ui _); [reflexivity|].
    destruct (sub_tasks_of _); [|reflexivity].
    now rewrite <- (IH ui k _ _ _ Hblank).
Qed.

Lemma released_is_silent (target : pystr) typed (K : pystr) :
  silent (release (clicking target typed) target) K.
Proof.
  intros suf _. cbn [release clicking button].
  split; destruct (PyStr.eqb _ target); reflexivity.
Qed.

Lemma nth_replaced :
  forall (forest : list TaskNode) i m x rest,
    nth_error forest i = Some m ->
    nth_error (firstn i forest ++ x :: rest) i = Some x.
Proof.
  induction forest as [|a forest IH]; intros i m x rest Hi.
  - destruct i; discriminate.
  - destruct i as [|i]; [reflexivity|].
    cbn [firstn app nth_error]. now apply (IH i m).
Qed.

(** Appending a leaf at a path: the node there keeps its subtasks in
    their order and gains the leaf after them; the forest has one node
    more. *)
Lemma append_at :
  forall p forest forest' text,
    alter_at (append_leaf text) forest p = Some forest' ->
    exists n,
      node_at forest p = Some n
      /\ node_at forest' p = Some (with_subtasks n (subtasks n ++ [leaf text]))
      /\ total_nodes forest' = S (total_nodes forest).
Proof.
  induction p as [|i p IH]; intros forest forest' text H; [discriminate|].
  cbn [alter_at node_at] in *.
  destruct (nth_error forest i) as [m|] eqn:Hi; [|discriminate].
  rewrite (total_nodes_split _ _ _ Hi).
  destruct p as [|i' p'].
  - injection H as <-. exists m. split; [reflexivity|].
    change (match forest with [] => [] | _ :: l => skipn i l end)
      with (skipn (S i) forest).
    unfold append_leaf. cbn [app].
    rewrite (nth_replaced _ _ _ _ _ Hi). split; [reflexivity|].
    rewrite total_nodes_app, total_nodes_cons, !size_eq.
    cbn [with_subtasks subtasks]. rewrite total_nodes_app.
    cbn. lia.
  - destruct (alter_at (append_leaf text) (subtasks m) (i' :: p')) as [subs'|]
      eqn:Hsub; [|discriminate].
    injection H as <-.
    destruct (IH _ _ _ Hsub) as (n & Hn & Hn' & Htot).
    exists n. split; [exact Hn|].
    change (match forest with [] => [] | _ :: l => skipn i l end)
      with (skipn (S i) forest).
    rewrite (nth_replaced _ _ _ _ _ Hi). cbn [with_subtasks subtasks].
    split; [exact Hn'|].
    rewrite total_nodes_app, total_nodes_cons, !size_eq.
    cbn [with_subtasks subtasks]. lia.
Qed.

(** X20: in a stored forest that reads as a forest of task nodes, a click
    on the Add Subtask button of a dict entry, with the text [t] in its
    input, leaves a forest that reads as [addSubtask] makes it. When the
    trimmed text is not empty the traversal ends with a rerun and the
    node at the path has one more subtask, a leaf with the trimmed text,
    after the subtasks it had; nothing else is added. When the trimmed
    text is empty the traversal returns its counts as if nothing was
    clicked and the forest reads as before. *)
Theorem add_subtask_appends (fuel : nat) (tasks : list pyval)
    (forest : list TaskNode) (p : path) (d : pydict) (typed : pystr -> pystr)
    (Hread : read_forest tasks = Some forest)
    (Hfuel : forest_height forest < fuel)
    (Hpath : entry_at tasks p = Some (PDict d)) :
  let key := path_key root 0 p in
  let t := typed (input_sub key) in
  exists tasks' forest',
    render_tasks fuel (clicking (btn_add_sub key) typed) tasks 0 root
    = (tasks',
       match strip t with
       | [] => Returned (total_nodes forest) (total_flagged forest)
       | _ => Rerun
       end)
    /\ read_forest tasks' = Some forest'
    /\ addSubtask forest p t = Some forest'
    /\ match strip t with
       | [] => forest' = forest
       | trimmed =>
           exists n,
             node_at forest p = Some n
             /\ node_at forest' p
                = Some (with_subtasks n (subtasks n ++ [leaf trimmed]))
             /\ total_nodes forest' = S (total_nodes forest)
       end.
Proof.
  intros key t.
  destruct (entry_node _ _ _ _ Hread Hpath) as (n & Hn & Hrn).
  unfold addSubtask. rewrite Hn.
  destruct (strip t) as [|c r] eqn:Hstrip.
  - (* blank text *)
    rewrite (blank_add_is_no_click fuel (clicking (btn_add_sub key) typed)
               key tasks 0 root Hstrip).
    destruct (quiet_traversal fuel (release (clicking (btn_add_sub key) typed)
                                      (btn_add_sub key))
                tasks forest 0 root (fun _ => eq_refl)
                (released_is_silent _ typed root) Hread Hfuel)
      as (tasks' & Hrun & Hread').
    exists tasks', forest. repeat split; try assumption; reflexivity.
  - (* some text *)
    assert (Htext : strip (typed (input_sub key)) <> [])
      by (fold t; rewrite Hstrip; discriminate).
    destruct (targeted_traversal (py "btn_add_sub_") typed
                (append_leaf (strip (typed (input_sub key)))) (PDict d) key
                (or_introl eq_refl) (add_turn typed d key Htext)
                p fuel tasks forest 0 root eq_refl Hread Hfuel Hpath)
      as (tasks' & forest' & Hrun & Halt & Hread').
    fold t in Halt. rewrite Hstrip in Halt.
    exists tasks', forest'. repeat split; try assumption.
    destruct (append_at _ _ _ _ Halt) as (n' & Hn1 & Hn2 & Htot).
    exists n'. repeat split; try assumption. congruence.
Qed.

(** C7: the claim fails on a node that is stored as a bare string. On
    the list [["d"]], a click on Add Subtask of the task with the text
    "e" in its input ends the traversal with a rerun and leaves the list
    as it was, at any call depth: line 82 appends the subtask to the
    dict that line 52 made for this turn, which the list does not hold.
    The forest read afterwards is the forest read before, not the one
    [addSubtask] gives, which has the leaf "e" under the task. *)
Theorem add_subtask_on_string_entry_is_lost (fuel : nat) :
  let tasks := [PStr (py "d")] in
  let ui := clicking (btn_add_sub (path_key root 0 [0])) (fun _ => py "e") in
  read_forest tasks = Some [leaf (py "d")]
  /\ render_tasks (S fuel) ui tasks 0 root = (tasks, Rerun)
  /\ addSubtask [leaf (py "d")] [0] (py "e")
     = Some [with_subtasks (leaf (py "d")) [leaf (py "e")]]
  /\ read_forest (fst (render_tasks (S fuel) ui tasks 0 root))
     <> addSubtask [leaf (py "d")] [0] (py "e").
Proof.
  intros tasks ui.
  assert (Hrun : render_tasks (S fuel) ui tasks 0 root = (tasks, Rerun)).
  { subst tasks ui. cbn [render_tasks render_loop path_key].
    rewrite (add_on_bare_string_is_lost (render_tasks fuel _) (fun _ => py "e")
               0 0 root (py "d")); [reflexivity|].
    vm_compute. discriminate. }
  split; [reflexivity|]. split; [exact Hrun|].
  split; [vm_compute; reflexivity|].
  rewrite Hrun. vm_compute. discriminate.
Qed.

(** ** The statements on a sample forest *)

Lemma sample_height : forest_height sample_forest < 3.
Proof. vm_compute. lia. Qed.

Lemma aggregate_counts_nodes_witness :
  read_forest sample_tasks = Some sample_forest
  /\ forest_height sample_forest < 3
  /\ aggregate 3 sample_tasks = Returned 4 1.
Proof.
  split; [reflexivity|]. split; [exact sample_height|].
  exact (aggregate_counts_nodes 3 sample_tasks sample_forest eq_refl sample_height).
Defined.

Lemma delete_removes_subtree_witness :
  entry_at sample_tasks [0] = nth_error sample_tasks 0
  /\ exists tasks' forest' n k',
       render_tasks 3 (clicking (btn_del (path_key root 0 [0])) (fun _ => []))
         sample_tasks 0 root
       = (tasks', Rerun)
       /\ node_at sample_forest [0] = Some n
       /\ deleteNode sample_forest [0] = Some forest'
       /\ read_forest tasks' = Some forest'
       /\ aggregate 3 sample_tasks
          = Returned (total_nodes sample_forest) (total_flagged sample_forest)
       /\ aggregate 3 tasks' = Returned (total_nodes forest') k'
       /\ total_nodes sample_forest = total_nodes forest' + (1 + descendants n).
Proof.
  split; [reflexivity|].
  exact (delete_removes_subtree 3 sample_tasks sample_forest [0] _
           (fun _ => []) eq_refl sample_height eq_refl).
Defined.

Lemma add_subtask_appends_witness :
  strip (py " e ") = py "e"
  /\ exists tasks' forest',
       render_tasks 3
         (clicking (btn_add_sub (path_key root 0 [0; 1])) (fun _ => py " e "))
         sample_tasks 0 root
       = (tasks', Rerun)
       /\ read_forest tasks' = Some forest'
       /\ addSubtask sample_forest [0; 1] (py " e ") = Some forest'
       /\ exists n,
            node_at sample_forest [0; 1] = Some n
            /\ node_at forest' [0; 1]
               = Some (with_subtasks n (subtasks n ++ [leaf (py "e")]))
            /\ total_nodes forest' = S (total_nodes sample_forest).
Proof.
  split; [reflexivity|].
  exact (add_subtask_appends 3 sample_tasks sample_forest [0; 1] _
           (fun _ => py " e ") eq_refl sample_height eq_refl).
Defined.

(** * Further properties *)

(** ** What a traversal that returns has counted *)

Lemma render_loop_counts (visit : nat -> pyval -> item_result) (c : container) :
  stops_early visit ->
  (forall i x x' t k, visit i x = Continue x' t k -> 1 <= t /\ k <= t) ->
  forall tasks i tasks' t k,
    render_loop visit c i tasks = (tasks', Returned t k) ->
    k <= t /\ List.length tasks <= t.
Proof.
  intros Hstop Hv.
  induction tasks as [|raw rest IH]; intros i tasks' t k H; cbn [render_loop] in H.
  - injection H as _ <- <-. split; apply le_n.
  - destruct (visit i raw) as [stored t0 k0|stored o|stored] eqn:E.
    + destruct (render_loop visit c (S i) rest) as [rest' o] eqn:Hr.
      destruct o as [t' k'| |e]; try discriminate.
      injection H as _ <- <-.
      destruct (Hv _ _ _ _ _ E) as [H1 H2].
      destruct (IH _ _ _ _ Hr) as [H3 H4].
      cbn [List.length]. lia.
    + injection H as _ H. subst o. now apply Hstop in E.
    + destruct (pop_error c); discriminate.
Qed.

Lemma render_item_counts rec ui level K :
  (forall subs lv k subs' t c,
      rec subs lv k = (subs', Returned t c) -> c <= t) ->
  forall i x x' t k,
    render_item rec ui level K i x = Continue x' t k -> 1 <= t /\ k <= t.
Proof.
  intros Hrec i x x' t0 k0 H. unfold render_item in H.
  destruct (normalize x); try discriminate.
  apply visit_item_continue in H. destruct H as [_ H].
  destruct (sub_tasks_of _).
  - destruct H as (subs' & t' & c' & Hr & _ & -> & ->).
    apply Hrec in Hr. destruct (checkbox_status _ _ _); lia.
  - destruct H as (_ & -> & ->). destruct (checkbox_status _ _ _); lia.
Qed.

Lemma render_tasks_counts :
  forall fuel ui tasks level parent_key tasks' t c,
    render_tasks fuel ui tasks level parent_key = (tasks', Returned t c) ->
    c <= t /\ List.length tasks <= t.
Proof.
  induction fuel as [|f IH]; intros ui tasks level K tasks' t c H;
    [discriminate|].
  cbn [render_tasks] in H.
  apply (render_loop_counts _ _ (render_item_stops_early _ ui level K)) in H;
    [exact H|].
  apply render_item_counts.
  intros subs lv k subs' t0 c0 Hr. now apply IH in Hr.
Qed.

(** X2: whenever [render_tasks] returns, for any list and any page, the
    completed count is at most the total, and the total is at least the
    number of entries of the list. *)
Theorem completed_at_most_total :
  forall fuel ui tasks level parent_key tasks' t c,
    render_tasks fuel ui tasks level parent_key = (tasks', Returned t c) ->
    c <= t /\ List.length tasks <= t.
Proof.
  exact render_tasks_counts.
Qed.

Lemma completed_at_most_total_witness :
  render_tasks 3 ticked sample_tasks 0 root
  = (fst (render_tasks 3 ticked sample_tasks 0 root), Returned 4 4)
  /\ 4 <= 4 /\ List.length sample_tasks <= 4.
Proof.
  assert (H : render_tasks 3 ticked sample_tasks 0 root
              = (fst (render_tasks 3 ticked sample_tasks 0 root), Returned 4 4))
    by (vm_compute; reflexivity).
  split; [exact H|].
  exact (completed_at_most_total _ _ _ _ _ _ _ _ H).
Defined.

Lemma render_loop_reads (visit : nat -> pyval -> item_result) (c : container)
    (h : nat) :
  stops_early visit ->
  (forall i x x' t k,
      visit i x = Continue x' t k ->
      exists n, read_node x = Some n /\ t = size n /\ height n <= h) ->
  forall tasks i tasks' t k,
    render_loop visit c i tasks = (tasks', Returned t k) ->
    exists forest,
      read_forest tasks = Some forest /\ t = total_nodes forest
      /\ forest_height forest <= h.
Proof.
  intros Hstop Hv.
  induction tasks as [|raw rest IH]; intros i tasks' t k H; cbn [render_loop] in H.
  - injection H as _ <- _. exists []. repeat split. apply Nat.le_0_l.
  - destruct (visit i raw) as [stored t0 k0|stored o|stored] eqn:E.
    + destruct (render_loop visit c (S i) rest) as [rest' o] eqn:Hr.
      destruct o as [t' k'| |e]; try discriminate.
      injection H as _ <- _.
      destruct (Hv _ _ _ _ _ E) as (n & Hn & -> & Hh).
      destruct (IH _ _ _ _ Hr) as (ns & Hns & -> & Hhs).
      exists (n :: ns). cbn [read_forest]. rewrite Hn, Hns.
      repeat split. rewrite forest_height_cons. lia.
    + injection H as _ H. subst o. now apply Hstop in E.
    + destruct (pop_error c); discriminate.
Qed.

(** X3: [render_tasks] returns only on a list it can read as a forest
    of task nodes: every entry a string or a dict with a ["task"], to
    the depth of the calls made. The total it returns is then the number
    of nodes of that forest, whatever the checkboxes hold. *)
Theorem returning_traversal_reads_forest :
  forall fuel ui tasks level parent_key tasks' t c,
    render_tasks fuel ui tasks level parent_key = (tasks', Returned t c) ->
    exists forest,
      read_forest tasks = Some forest /\ t = total_nodes forest
      /\ forest_height forest <= fuel.
Proof.
  induction fuel as [|f IH]; intros ui tasks level K tasks' t c H;
    [discriminate|].
  cbn [render_tasks] in H.
  apply (render_loop_reads _ _ (S f) (render_item_stops_early _ ui level K)) in H;
    [exact H|].
  clear H. intros i x x' t0 k0 H. unfold render_item in H.
  destruct x as [| | | |s|l|d]; cbn [normalize] in H; try discriminate.
  - apply visit_item_continue in H. destruct H as [_ H].
    cbn in H. destruct H as (_ & -> & _).
    eexists. split; [reflexivity|]. split; [reflexivity|]. cbn. lia.
  - apply visit_item_continue in H. destruct H as [Ht H].
    rewrite read_node_dict.
    destruct (Dict.get d k_task); [|contradiction].
    destruct (sub_tasks_of d) as [subs|].
    + destruct H as (subs' & t' & c' & Hrec & _ & -> & _).
      apply IH in Hrec. destruct Hrec as (ks & -> & -> & Hh).
      eexists. split; [reflexivity|]. rewrite size_eq, height_eq.
      cbn [subtasks]. split; [reflexivity|lia].
    + destruct H as (_ & -> & _).
      eexists. split; [reflexivity|]. split; [reflexivity|]. cbn. lia.
Qed.

Lemma returning_traversal_reads_forest_witness :
  render_tasks 3 ticked sample_tasks 0 root
  = (fst (render_tasks 3 ticked sample_tasks 0 root), Returned 4 4)
  /\ exists forest,
       read_forest sample_tasks = Some forest /\ 4 = total_nodes forest
       /\ forest_height forest <= 3.
Proof.
  assert (H : render_tasks 3 ticked sample_tasks 0 root
              = (fst (render_tasks 3 ticked sample_tasks 0 root), Returned 4 4))
    by (vm_compute; reflexivity).
  split; [exact H|].
  exact (returning_traversal_reads_forest _ _ _ _ _ _ _ _ H).
Defined.

(** ** Readable forests stay readable *)

Lemma read_node_set_completed (d : pydict) (b : bool) (n : TaskNode) :
  read_node (PDict d) = Some n ->
  read_node (PDict (Dict.set d k_completed (PBool b)))
  = Some (mkNode (description n) (priority n) b (subtasks n)).
Proof.
  rewrite !read_node_dict.
  rewrite (get_set_other _ _ _ _ completed_is_not_task).
  rewrite sub_tasks_of_set_completed.
  destruct (Dict.get d k_task) eqn:Ht; [|discriminate].
  destruct (match sub_tasks_of d with
            | Some l => read_forest l
            | None => Some []
            end) as [ks|]; [|discriminate].
  intros H. injection H as <-. cbn [description priority subtasks].
  unfold description_shown, priority_shown, completed_shown, Dict.get_default.
  rewrite (get_set_other _ _ _ _ completed_is_not_task).
  rewrite (get_set_other _ _ _ _ priority_is_not_completed).
  now rewrite get_set_same.
Qed.

Lemma forest_height_leaf_app (ks : list TaskNode) (text : pystr) :
  forest_height (ks ++ [leaf text]) <= S (forest_height ks).
Proof.
  rewrite forest_height_app. cbn. lia.
Qed.

(** One turn on a readable entry, on any page. *)
Lemma any_turn rec (ui : widgets) (level i : nat) (K : pystr) (f : nat)
    (raw : pyval) (n : TaskNode) :
  (forall subs ks,
      read_forest subs = Some ks -> forest_height ks < f ->
      exists subs' ks' o,
        rec subs (S level) (task_key K level i) = (subs', o)
        /\ read_forest subs' = Some ks'
        /\ forest_height ks' <= S (forest_height ks)
        /\ not_raised o ks) ->
  read_node raw = Some n -> height n <= f ->
  turn_ok (render_item rec ui level K i raw) n.
Proof.
  intros Hrec Hn Hh.
  destruct raw as [| | | |s|l|d]; try discriminate.
  - (* a bare string *)
    assert (Hc : reads_close (PStr s) n) by (exists n; split; [exact Hn|lia]).
    injection Hn as <-.
    unfold render_item, normalize, visit_item.
    set (b := checkbox_status ui (task_key K level i) (legacy_item s)).
    replace (Dict.get (Dict.set (legacy_item s) k_completed (PBool b)) k_task)
      with (Some (PStr s)) by reflexivity.
    destruct (_ && _); [exact Hc|].
    destruct (button ui _); [exact Hc|].
    replace (sub_tasks_of (Dict.set (legacy_item s) k_completed (PBool b)))
      with (@None (list pyval)) by reflexivity.
    split; [reflexivity|exact Hc].
  - (* a dict *)
    pose proof Hn as Hn0. rewrite read_node_dict in Hn.
    destruct (Dict.get d k_task) eqn:Ht; [|discriminate].
    assert (Ht' : Dict.get d k_task <> None) by (rewrite Ht; discriminate).
    unfold render_item, normalize, visit_item. cbn [stored_as].
    set (b := checkbox_status ui (task_key K level i) d).
    rewrite (get_set_other _ _ _ _ completed_is_not_task), Ht.
    rewrite sub_tasks_of_set_completed.
    destruct (_ && _).
    { (* add subtask *)
      destruct (sub_tasks_of d) as [subs|] eqn:Hs.
      - destruct (read_forest subs) as [ks|] eqn:Hks; [|discriminate].
        injection Hn as <-. eexists. split.
        + apply read_node_written; [exact Ht'|].
          apply read_forest_app; [exact Hks|apply read_new_subtask].
        + rewrite !height_eq. cbn [subtasks].
          pose proof (forest_height_leaf_app ks
                        (strip (text_input ui (input_sub (task_key K level i))))).
          lia.
      - injection Hn as <-. eexists. split.
        + apply read_node_written; [exact Ht'|].
          cbn [app]. apply read_new_subtask.
        + cbn. lia. }
    destruct (button ui _).
    { (* delete *)
      eexists. split; [apply (read_node_set_completed d b n Hn0)|].
      rewrite !height_eq. cbn [subtasks]. lia. }
    destruct (sub_tasks_of d) as [subs|] eqn:Hs.
    + destruct (read_forest subs) as [ks|] eqn:Hks; [|discriminate].
      injection Hn as <-. rewrite height_eq in Hh. cbn [subtasks] in Hh.
      destruct (Hrec subs ks Hks) as (subs' & ks' & o & -> & Hks' & Hh' & Ho);
        [lia|].
      assert (Hc : reads_close
                     (PDict (Dict.set (Dict.set d k_completed (PBool b))
                               k_sub_tasks (PList subs')))
                     (mkNode (description_shown d) (priority_shown d)
                        (completed_shown d) ks)).
      { eexists. split; [apply read_node_written; [exact Ht'|exact Hks']|].
        rewrite !height_eq. cbn [subtasks]. lia. }
      destruct o as [t' c'| |e]; cbn [not_raised] in Ho.
      * split; [|exact Hc]. rewrite size_eq. cbn [subtasks]. now rewrite Ho.
      * exact Hc.
      * contradiction.
    + injection Hn as <-. split; [reflexivity|].
      eexists. split; [now apply read_node_checked|]. cbn. lia.
Qed.

Lemma any_loop (visit : nat -> pyval -> item_result) (f : nat) :
  (forall j raw n,
      read_node raw = Some n -> height n <= f -> turn_ok (visit j raw) n) ->
  forall tasks forest i,
    read_forest tasks = Some forest -> forest_height forest <= f ->
    exists tasks' forest' o,
      render_loop visit IsList i tasks = (tasks', o)
      /\ read_forest tasks' = Some forest'
      /\ forest_height forest' <= S (forest_height forest)
      /\ not_raised o forest.
Proof.
  intros Hv.
  induction tasks as [|raw rest IH]; intros forest i Hf Hh.
  - injection Hf as <-. exists [], [], (Returned 0 0).
    repeat split. cbn. lia.
  - cbn [read_forest] in Hf.
    destruct (read_node raw) as [n|] eqn:Hn; [|discriminate].
    destruct (read_forest rest) as [ns|] eqn:Hns; [|discriminate].
    injection Hf as <-. rewrite forest_height_cons in Hh.
    assert (Hok : turn_ok (visit i raw) n) by (apply Hv; [exact Hn|lia]).
    cbn [render_loop].
    destruct (visit i raw) as [raw' t k|raw' o|raw']; cbn [turn_ok] in Hok.
    + destruct Hok as (-> & n' & Hn' & Hh').
      destruct (IH ns (S i) eq_refl) as (rest' & ns' & o & -> & Hns' & Hhs & Ho);
        [lia|].
      exists (raw' :: rest'), (n' :: ns').
      destruct o as [t' k'| |e]; cbn [not_raised] in Ho; [| |contradiction].
      * eexists. split; [reflexivity|]. cbn [read_forest].
        rewrite Hn', Hns'. repeat split.
        -- rewrite !forest_height_cons. lia.
        -- cbn [not_raised]. rewrite total_nodes_cons. now rewrite Ho.
      * exists Rerun. split; [reflexivity|]. cbn [read_forest].
        rewrite Hn', Hns'. repeat split.
        rewrite !forest_height_cons. lia.
    + destruct o as [t' k'| |e]; try contradiction.
      destruct Hok as (n' & Hn' & Hh').
      exists (raw' :: rest), (n' :: ns), Rerun. split; [reflexivity|].
      cbn [read_forest]. rewrite Hn', Hns. repeat split.
      rewrite !forest_height_cons. lia.
    + exists rest, ns, Rerun. cbn [pop_error]. split; [reflexivity|].
      repeat split; [exact Hns|]. rewrite forest_height_cons. lia.
Qed.

(** X4: on a list that reads as a forest of task nodes, with call depth
    to spare, none of the operations of [render_tasks] itself raises,
    whatever is typed, ticked or clicked: no [get] on a value that is
    not a dict, no missing ["task"], no [pop] that fails, no recursion
    too deep. As long as the Streamlit calls return (they are outside
    the embedding, and raise on a label they cannot encode), the call
    returns the number of nodes as its total, or it ends with a rerun.
    The list it leaves reads again as a forest, at most one level
    higher. *)
Theorem readable_forest_never_raises :
  forall fuel ui tasks forest level parent_key,
    read_forest tasks = Some forest -> forest_height forest < fuel ->
    exists tasks' forest' o,
      render_tasks fuel ui tasks level parent_key = (tasks', o)
      /\ read_forest tasks' = Some forest'
      /\ forest_height forest' <= S (forest_height forest)
      /\ not_raised o forest.
Proof.
  induction fuel as [|f IH]; intros ui tasks forest level K Hf Hh; [lia|].
  cbn [render_tasks].
  apply any_loop with (f := f); [|exact Hf|lia].
  intros j raw n Hn Hhn.
  apply any_turn with (f := f); try assumption.
  intros subs ks Hks Hhk. now apply IH.
Qed.

Lemma readable_forest_never_raises_witness :
  read_forest sample_tasks = Some sample_forest
  /\ forest_height sample_forest < 3
  /\ exists tasks' forest' o,
       render_tasks 3 (clicking (btn_del (path_key root 0 [0; 0])) (fun _ => []))
         sample_tasks 0 root = (tasks', o)
       /\ read_forest tasks' = Some forest'
       /\ forest_height forest' <= S (forest_height sample_forest)
       /\ not_raised o sample_forest.
Proof.
  split; [reflexivity|]. split; [exact sample_height|].
  exact (readable_forest_never_raises 3 _ sample_tasks sample_forest 0 root
           eq_refl sample_height).
Defined.

(** ** Rendering again *)

Lemma set_get_same (d : pydict) (k : pystr) (v : pyval) :
  Dict.get d k = Some v -> Dict.set d k v = d.
Proof.
  induction d as [|[k' v'] d IH]; cbn [Dict.get Dict.set]; [discriminate|].
  destruct (PyStr.eqb k' k).
  - intros H. now injection H as ->.
  - intros H. now rewrite IH.
Qed.

(** A turn that continues found neither button of its entry clicked to
    effect. *)
Lemma visit_item_continue_buttons rec ui level i parent_key store item x' t c :
  visit_item rec ui level i parent_key store item = Continue x' t c ->
  button ui (btn_add_sub (task_key parent_key level i))
  && truthy (PStr (strip (text_input ui (input_sub (task_key parent_key level i)))))
  = false
  /\ button ui (btn_del (task_key parent_key level i)) = false.
Proof.
  unfold visit_item. intros H.
  destruct (Dict.get _ k_task); [|discriminate].
  destruct (_ && _); [discriminate|].
  destruct (button ui _); [discriminate|].
  split; reflexivity.
Qed.

Lemma render_loop_settled (visit : nat -> pyval -> item_result) (c : container) :
  stops_early visit ->
  (forall i x x' t k,
      visit i x = Continue x' t k -> visit i x' = Continue x' t k) ->
  forall tasks i tasks' t k,
    render_loop visit c i tasks = (tasks', Returned t k) ->
    render_loop visit c i tasks' = (tasks', Returned t k).
Proof.
  intros Hstop Hv.
  induction tasks as [|raw rest IH]; intros i tasks' t k H; cbn [render_loop] in H.
  - injection H as <- <- <-. reflexivity.
  - destruct (visit i raw) as [stored t0 k0|stored o|stored] eqn:E.
    + destruct (render_loop visit c (S i) rest) as [rest' o] eqn:Hr.
      destruct o as [t' k'| |e]; try discriminate.
      injection H as <- <- <-.
      cbn [render_loop]. rewrite (Hv _ _ _ _ _ E), (IH _ _ _ _ Hr).
      reflexivity.
    + injection H as _ H. subst o. now apply Hstop in E.
    + destruct (pop_error c); discriminate.
Qed.

Lemma render_tasks_settled :
  forall fuel ui tasks level parent_key tasks' t c,
    render_tasks fuel ui tasks level parent_key = (tasks', Returned t c) ->
    render_tasks fuel ui tasks' level parent_key = (tasks', Returned t c).
Proof.
  induction fuel as [|f IH]; intros ui tasks level K tasks' t c H;
    [discriminate|].
  cbn [render_tasks] in *.
  refine (render_loop_settled _ _ (render_item_stops_early _ ui level K)
            _ tasks 0 tasks' t c H).
  clear H. intros i x x' t0 k0 H. unfold render_item in H.
  destruct x as [| | | |s|l|d]; cbn [normalize] in H; try discriminate.
  - (* a bare string is stored as it was *)
    pose proof H as H0.
    apply visit_item_continue in H. destruct H as [_ H].
    cbn in H. destruct H as (-> & _). exact H0.
  - pose proof (visit_item_continue_buttons _ _ _ _ _ _ _ _ _ _ H) as [Hadd Hdel].
    apply visit_item_continue in H. destruct H as [Ht H].
    set (key := task_key K level i) in *.
    set (b := checkbox_status ui key d) in *.
    assert (Hb : forall item,
               Dict.get item k_completed = Some (PBool b) ->
               checkbox_status ui key item = b).
    { intros item Hi. unfold checkbox_status, Dict.get_default. rewrite Hi.
      subst b. unfold checkbox_status. now destruct (checkbox ui _). }
    destruct (Dict.get d k_task) as [tv|] eqn:Htv; [|contradiction].
    destruct (sub_tasks_of d) as [subs|] eqn:Hs.
    + destruct H as (subs' & t' & c' & Hrec & -> & -> & ->).
      cbn [stored_as].
      set (item3 := Dict.set (Dict.set d k_completed (PBool b))
                      k_sub_tasks (PList subs')).
      assert (Hc3 : Dict.get item3 k_completed = Some (PBool b)).
      { unfold item3.
        rewrite (get_set_other _ _ _ _ sub_tasks_is_not_completed).
        apply get_set_same. }
      assert (Hs3 : Dict.get item3 k_sub_tasks = Some (PList subs'))
        by apply get_set_same.
      unfold render_item, normalize, visit_item. fold key.
      rewrite (Hb item3 Hc3), (set_get_same _ _ _ Hc3).
      unfold item3 at 1.
      rewrite (get_set_other _ _ _ _ sub_tasks_is_not_task).
      rewrite (get_set_other _ _ _ _ completed_is_not_task), Htv.
      rewrite Hadd, Hdel.
      unfold sub_tasks_of at 1. rewrite Hs3.
      rewrite (IH _ _ _ _ _ _ _ Hrec), (set_get_same _ _ _ Hs3).
      reflexivity.
    + destruct H as (-> & -> & ->). cbn [stored_as].
      set (item1 := Dict.set d k_completed (PBool b)).
      assert (Hc1 : Dict.get item1 k_completed = Some (PBool b))
        by apply get_set_same.
      unfold render_item, normalize, visit_item. fold key.
      rewrite (Hb item1 Hc1), (set_get_same _ _ _ Hc1).
      unfold item1 at 1.
      rewrite (get_set_other _ _ _ _ completed_is_not_task), Htv.
      rewrite Hadd, Hdel.
      unfold item1. rewrite sub_tasks_of_set_completed, Hs.
      reflexivity.
Qed.

(** X5: a traversal that returned has settled the list: rendering the
    list it left, on the same page, returns the same counts and leaves
    that very list, for any list and any page. *)
Theorem rendering_again_changes_nothing :
  forall fuel ui tasks level parent_key tasks' t c,
    render_tasks fuel ui tasks level parent_key = (tasks', Returned t c) ->
    render_tasks fuel ui tasks' level parent_key = (tasks', Returned t c).
Proof.
  exact render_tasks_settled.
Qed.

Lemma rendering_again_changes_nothing_witness :
  render_tasks 3 ticked sample_tasks 0 root
  = (fst (render_tasks 3 ticked sample_tasks 0 root), Returned 4 4)
  /\ render_tasks 3 ticked (fst (render_tasks 3 ticked sample_tasks 0 root)) 0 root
     = (fst (render_tasks 3 ticked sample_tasks 0 root), Returned 4 4).
Proof.
  assert (H : render_tasks 3 ticked sample_tasks 0 root
              = (fst (render_tasks 3 ticked sample_tasks 0 root), Returned 4 4))
    by (vm_compute; reflexivity).
  split; [exact H|].
  exact (rendering_again_changes_nothing _ _ _ _ _ _ _ _ H).
Defined.

(** ** What a traversal writes *)

(** X6: a traversal that returns writes no key of a stored dict other
    than ["completed"] and ["sub_tasks"]: at every path, every other key
    holds the value it held, on any page. *)
Theorem other_keys_are_not_written :
  forall fuel ui tasks level parent_key tasks' t c,
    render_tasks fuel ui tasks level parent_key = (tasks', Returned t c) ->
    forall p d,
      entry_at tasks p = Some (PDict d) ->
      exists d',
        entry_at tasks' p = Some (PDict d')
        /\ forall k, k <> k_completed -> k <> k_sub_tasks ->
                     Dict.get d' k = Dict.get d k.
Proof.
  induction fuel as [|f IH]; intros ui tasks level K tasks' t c H p d0 Hp;
    [discriminate|].
  cbn [render_tasks] in H.
  destruct (render_loop_returned _ _ (render_item_stops_early _ ui level K)
              _ _ _ _ _ H) as [_ Hnth].
  destruct p as [|i p']; [discriminate|].
  cbn [entry_at] in *.
  destruct (nth_error tasks i) as [v|] eqn:Hi; [|discriminate].
  destruct (Hnth _ _ Hi) as (x' & tj & kj & -> & Hv). cbn [Nat.add] in Hv.
  unfold render_item in Hv.
  destruct v as [| | | |s|l|d]; cbn [normalize] in Hv; try discriminate.
  - destruct p'; discriminate.
  - apply visit_item_continue in Hv. destruct Hv as [_ Hv].
    destruct (sub_tasks_of d) as [subs|] eqn:Hs.
    + destruct Hv as (subs' & t' & c' & Hrec & -> & _ & _). cbn [stored_as].
      destruct p' as [|i' p''].
      * injection Hp as <-. eexists. split; [reflexivity|].
        intros k Hk1 Hk2.
        rewrite (get_set_other _ _ _ _ (not_eq_sym Hk2)).
        now rewrite (get_set_other _ _ _ _ (not_eq_sym Hk1)).
      * rewrite sub_tasks_of_set.
        exact (IH _ _ _ _ _ _ _ Hrec (i' :: p'') d0 Hp).
    + destruct Hv as [-> _]. cbn [stored_as].
      destruct p' as [|i' p'']; [|discriminate].
      injection Hp as <-. eexists. split; [reflexivity|].
      intros k Hk1 Hk2.
      now rewrite (get_set_other _ _ _ _ (not_eq_sym Hk1)).
Qed.

Lemma other_keys_are_not_written_witness :
  render_tasks 3 ticked sample_tasks 0 root
  = (fst (render_tasks 3 ticked sample_tasks 0 root), Returned 4 4)
  /\ entry_at sample_tasks [0; 1] = Some (PDict [(k_task, PStr (py "c"))])
  /\ exists d',
       entry_at (fst (render_tasks 3 ticked sample_tasks 0 root)) [0; 1]
       = Some (PDict d')
       /\ forall k, k <> k_completed -> k <> k_sub_tasks ->
                    Dict.get d' k = Dict.get [(k_task, PStr (py "c"))] k.
Proof.
  assert (H : render_tasks 3 ticked sample_tasks 0 root
              = (fst (render_tasks 3 ticked sample_tasks 0 root), Returned 4 4))
    by (vm_compute; reflexivity).
  split; [exact H|]. split; [reflexivity|].
  exact (other_keys_are_not_written _ _ _ _ _ _ _ _ H [0; 1] _ eq_refl).
Defined.

(** ** Widget keys *)

Lemma path_key_inj :
  forall p q K level, path_key K level p = path_key K level q -> p = q.
Proof.
  assert (Hnil : forall q K level i,
             K <> path_key K level (i :: q)).
  { intros q K level i E.
    destruct (path_key_cons q K level i) as (sfx & Hk & _ & _).
    rewrite Hk in E. unfold task_key in E.
    apply (f_equal (@List.length N)) in E. rewrite !length_app in E.
    cbn [List.length py map list_ascii_of_string] in E. lia. }
  induction p as [|i p IH]; intros [|j q] K level H.
  - reflexivity.
  - now apply Hnil in H.
  - symmetry in H. now apply Hnil in H.
  - destruct (path_key_cons p K level i) as (s1 & H1 & Hs1 & _).
    destruct (path_key_cons q K level j) as (s2 & H2 & Hs2 & _).
    pose proof H as H'. rewrite H1, H2 in H'.
    apply task_key_apart in H'; [|assumption..].
    destruct H' as [-> _]. f_equal.
    cbn [path_key] in H. now apply IH in H.
Qed.

(** X1: the widget keys of one rendering are pairwise distinct: two
    widgets have the same key only if they are the same kind of widget
    of the task at the same path. *)
Theorem widget_keys_are_distinct (tag1 tag2 : pystr) (p q : path)
    (H1 : widget_prefix tag1) (H2 : widget_prefix tag2)
    (H : tag1 ++ path_key root 0 p = tag2 ++ path_key root 0 q) :
  tag1 = tag2 /\ p = q.
Proof.
  destruct H1 as [->|[->|[->| ->]]]; destruct H2 as [->|[->|[->| ->]]];
    try (split; [reflexivity|]; apply app_inv_head in H;
         now apply path_key_inj in H);
    exfalso;
    first [ apply (f_equal (fun l => nth_error l 0)) in H;
            vm_compute in H; discriminate
          | apply (f_equal (fun l => nth_error l 4)) in H;
            vm_compute in H; discriminate ].
Qed.

Lemma widget_keys_are_distinct_witness :
  widget_prefix (py "chk_")
  /\ py "chk_" ++ path_key root 0 [1; 2] = py "chk_" ++ path_key root 0 [1; 2]
  /\ (py "chk_" = py "chk_" /\ [1; 2] = [1; 2]).
Proof.
  split; [now left|]. split; [reflexivity|].
  exact (widget_keys_are_distinct (py "chk_") (py "chk_") [1; 2] [1; 2]
           (or_introl eq_refl) (or_introl eq_refl) eq_refl).
Defined.

(** ** Nothing is lost without a Delete *)

Lemma kept_refl (tasks : list pyval) : kept tasks tasks.
Proof. intros p e H. now exists e. Qed.

Lemma kept_cons (x s : pyval) (r r' : list pyval) :
  kept [x] [s] -> kept r r' -> kept (x :: r) (s :: r').
Proof.
  intros Hx Hr [|[|j] p'] e H; [discriminate| |].
  - exact (Hx (0 :: p') e H).
  - exact (Hr (j :: p') e H).
Qed.

Lemma kept_app (subs extra : list pyval) : kept subs (subs ++ extra).
Proof.
  intros [|i p'] e H; [discriminate|]. cbn [entry_at] in *.
  destruct (nth_error subs i) as [v|] eqn:Hi; [|discriminate].
  rewrite nth_error_app1 by (apply nth_error_Some; rewrite Hi; discriminate).
  rewrite Hi. now exists e.
Qed.

Lemma kept_dict (d d' : pydict) (subs' : list pyval) :
  sub_tasks_of d' = Some subs' ->
  (forall subs, sub_tasks_of d = Some subs -> kept subs subs') ->
  kept [PDict d] [PDict d'].
Proof.
  intros Hs' Hk [|[|j] p'] e H; [discriminate| |].
  - cbn [entry_at nth_error] in *. destruct p' as [|i' p''].
    + now eexists.
    + rewrite Hs'. destruct (sub_tasks_of d) as [subs|]; [|discriminate].
      exact (Hk subs eq_refl (i' :: p'') e H).
  - cbn [entry_at nth_error] in H. destruct j; discriminate.
Qed.

Lemma kept_dict_same (d d' : pydict) :
  sub_tasks_of d' = sub_tasks_of d -> kept [PDict d] [PDict d'].
Proof.
  intros Hs [|[|j] p'] e H; [discriminate| |].
  - cbn [entry_at nth_error] in *. destruct p' as [|i' p''].
    + now eexists.
    + rewrite Hs. now exists e.
  - cbn [entry_at nth_error] in H. destruct j; discriminate.
Qed.

(** One turn with the Delete button of the entry not clicked. *)
Lemma keeping_turn rec (ui : widgets) (level i : nat) (K : pystr) (x : pyval) :
  (forall subs lv k, kept subs (fst (rec subs lv k))) ->
  button ui (btn_del (task_key K level i)) = false ->
  match render_item rec ui level K i x with
  | Continue s _ _ => kept [x] [s]
  | Stop s _ => kept [x] [s]
  | DeleteMe _ => False
  end.
Proof.
  intros Hrec Hdel. unfold render_item.
  destruct x as [| | | |s|l|d]; cbn [normalize]; try apply kept_refl.
  - unfold visit_item. rewrite Hdel. cbn [stored_as].
    destruct (Dict.get _ k_task); [|apply kept_refl].
    destruct (_ && _); [apply kept_refl|].
    destruct (sub_tasks_of _); [|apply kept_refl].
    destruct (rec _ _ _) as [subs' [t' c'| |e]]; apply kept_refl.
  - unfold visit_item. rewrite Hdel. cbn [stored_as].
    set (b := checkbox_status ui (task_key K level i) d).
    rewrite sub_tasks_of_set_completed.
    destruct (Dict.get _ k_task);
      [|apply kept_dict_same, sub_tasks_of_set_completed].
    destruct (_ && _).
    { apply kept_dict with (subs' := match sub_tasks_of d with
                                     | Some l => l
                                     | None => []
                                     end ++ [new_subtask
                                               (strip (text_input ui
                                                  (input_sub (task_key K level i))))]);
        [apply sub_tasks_of_set|].
      intros subs ->. apply kept_app. }
    destruct (sub_tasks_of d) as [subs|] eqn:Hs.
    + specialize (Hrec subs (S level) (task_key K level i)).
      destruct (rec subs (S level) (task_key K level i)) as [subs' o].
      cbn [fst] in Hrec.
      assert (Hk : kept [PDict d]
                     [PDict (Dict.set (Dict.set d k_completed (PBool b))
                               k_sub_tasks (PList subs'))]).
      { apply kept_dict with (subs' := subs'); [apply sub_tasks_of_set|].
        intros subs0 E. rewrite Hs in E. now injection E as <-. }
      destruct o; exact Hk.
    + apply kept_dict_same. now rewrite sub_tasks_of_set_completed.
Qed.

Lemma keeping_loop (visit : nat -> pyval -> item_result) :
  (forall i x,
      match visit i x with
      | Continue s _ _ => kept [x] [s]
      | Stop s _ => kept [x] [s]
      | DeleteMe _ => False
      end) ->
  forall tasks i, kept tasks (fst (render_loop visit IsList i tasks)).
Proof.
  intros Hv. induction tasks as [|raw rest IH]; intros i; [apply kept_refl|].
  cbn [render_loop]. specialize (Hv i raw).
  destruct (visit i raw) as [s t k|s o|s]; [| |contradiction].
  - specialize (IH (S i)).
    destruct (render_loop visit IsList (S i) rest) as [rest' o].
    cbn [fst] in *. now apply kept_cons.
  - cbn [fst]. apply kept_cons; [exact Hv|apply kept_refl].
Qed.

(** X7: unless a Delete button is clicked, a traversal removes nothing,
    however it ends (return, rerun or exception): every path that led to
    an entry of the list still leads to one. *)
Theorem nothing_is_lost_without_delete (ui : widgets)
    (Hdel : forall key, button ui (btn_del key) = false) :
  forall fuel tasks level parent_key,
    kept tasks (fst (render_tasks fuel ui tasks level parent_key)).
Proof.
  induction fuel as [|f IH]; intros tasks level K; [apply kept_refl|].
  cbn [render_tasks]. apply keeping_loop. intros i x.
  apply keeping_turn; [|apply Hdel].
  intros subs lv k. apply IH.
Qed.

Lemma nothing_is_lost_without_delete_witness :
  (forall key, button ticked (btn_del key) = false)
  /\ kept sample_tasks (fst (render_tasks 3 ticked sample_tasks 0 root)).
Proof.
  split; [intros key; reflexivity|].
  exact (nothing_is_lost_without_delete ticked (fun _ => eq_refl) 3 sample_tasks 0 root).
Defined.

(** ** Add Subtask at the edges *)

(** X8: a click on Add Subtask whose input holds only white space (or
    nothing) is no click at all: the whole traversal does what it does
    with that button released, on any list and any page. *)
Theorem blank_add_click_is_ignored (fuel : nat) (ui : widgets) (key : pystr)
    (tasks : list pyval) (level : nat) (parent_key : pystr)
    (Hblank : strip (text_input ui (input_sub key)) = []) :
  render_tasks fuel ui tasks level parent_key
  = render_tasks fuel (release ui (btn_add_sub key)) tasks level parent_key.
Proof.
  now apply blank_add_is_no_click.
Qed.

Lemma blank_add_click_is_ignored_witness :
  strip (py "  ") = []
  /\ render_tasks 3
       (clicking (btn_add_sub (path_key root 0 [0])) (fun _ => py "  "))
       sample_tasks 0 root
     = render_tasks 3
         (release (clicking (btn_add_sub (path_key root 0 [0])) (fun _ => py "  "))
            (btn_add_sub (path_key root 0 [0])))
         sample_tasks 0 root.
Proof.
  split; [reflexivity|].
  exact (blank_add_click_is_ignored 3
           (clicking (btn_add_sub (path_key root 0 [0])) (fun _ => py "  "))
           (path_key root 0 [0]) sample_tasks 0 root eq_refl).
Defined.

Lemma with_own_subtasks (n : TaskNode) : with_subtasks n (subtasks n) = n.
Proof. now destruct n. Qed.

Lemma alter_at_same :
  forall p forest forest',
    alter_at (fun n => [n]) forest p = Some forest' -> forest' = forest.
Proof.
  induction p as [|i p IH]; intros forest forest' H; [discriminate|].
  cbn [alter_at] in H.
  destruct (nth_error forest i) as [m|] eqn:Hi; [|discriminate].
  destruct p as [|i' p'].
  - injection H as <-. symmetry. exact (nth_split_at _ _ _ Hi).
  - destruct (alter_at (fun n => [n]) (subtasks m) (i' :: p')) as [subs'|] eqn:Hs;
      [|discriminate].
    injection H as <-. apply IH in Hs. subst subs'.
    rewrite with_own_subtasks. symmetry. exact (nth_split_at _ _ _ Hi).
Qed.

Lemma legacy_add_turn (typed : pystr -> pystr) (s : pystr) (T : pystr) :
  strip (typed (input_sub T)) <> [] ->
  forall rec level K i n,
    task_key K level i = T ->
    read_node (PStr s) = Some n ->
    turn_alters
      (render_item rec (clicking (py "btn_add_sub_" ++ T) typed) level K i (PStr s))
      [n].
Proof.
  intros Htext rec level K i n <- Hn. left. exists (PStr s).
  split.
  - now apply add_on_bare_string_is_lost.
  - cbn [read_forest]. now rewrite Hn.
Qed.

(** X9: a click on Add Subtask of an entry stored as a bare string, with
    a text that is not blank, adds nothing: the subtask is appended to
    the dict made for the turn only, the page reruns, and the stored
    forest reads exactly as before. *)
Theorem add_on_legacy_entry_is_lost (fuel : nat) (tasks : list pyval)
    (forest : list TaskNode) (p : path) (s : pystr) (typed : pystr -> pystr)
    (Hread : read_forest tasks = Some forest)
    (Hfuel : forest_height forest < fuel)
    (Hpath : entry_at tasks p = Some (PStr s))
    (Htext : strip (typed (input_sub (path_key root 0 p))) <> []) :
  exists tasks',
    render_tasks fuel (clicking (btn_add_sub (path_key root 0 p)) typed)
      tasks 0 root
    = (tasks', Rerun)
    /\ read_forest tasks' = Some forest.
Proof.
  destruct (targeted_traversal (py "btn_add_sub_") typed (fun n => [n])
              (PStr s) (path_key root 0 p) (or_introl eq_refl)
              (legacy_add_turn typed s (path_key root 0 p) Htext)
              p fuel tasks forest 0 root eq_refl Hread Hfuel Hpath)
    as (tasks' & forest' & Hrun & Halt & Hread').
  apply alter_at_same in Halt. subst forest'.
  exists tasks'. split; assumption.
Qed.

Lemma add_on_legacy_entry_is_lost_witness :
  read_forest sample_tasks = Some sample_forest
  /\ entry_at sample_tasks [1] = Some (PStr (py "d"))
  /\ exists tasks',
       render_tasks 3
         (clicking (btn_add_sub (path_key root 0 [1])) (fun _ => py "e"))
         sample_tasks 0 root
       = (tasks', Rerun)
       /\ read_forest tasks' = Some sample_forest.
Proof.
  split; [reflexivity|]. split; [reflexivity|].
  assert (Htext : strip (py "e") <> []) by (vm_compute; discriminate).
  exact (add_on_legacy_entry_is_lost 3 sample_tasks sample_forest [1] (py "d")
           (fun _ => py "e") eq_refl sample_height eq_refl Htext).
Defined.

(** ** The text handed to the decoder *)

(** The handler on a reply that is not empty, by what the decoder does
    with the cleaned text. *)
Lemma reply_replaces_or_is_kept (lim : limits) (raw : pystr) :
  raw <> [] ->
  interpret lim (Some raw)
  = match Json.loads lim (cleaned raw) with
    | Json.Value v => Replace v
    | Json.Raises e => if caught e then Message raw else Uncaught e
    end.
Proof.
  intros Hne. destruct raw as [|c r]; [contradiction|]. reflexivity.
Qed.

Lemma replace_from_skip (old new : pystr) :
  forall s k, replace_from old new k s = replace_from old new 0 (skipn k s).
Proof.
  induction s as [|c r IH]; intros k.
  - now destruct k.
  - destruct k as [|k]; [reflexivity|]. cbn [replace_from skipn]. apply IH.
Qed.

(** [replace] step by step, as [str.replace] is described: at a match
    the match is dropped and [new] put in its place, elsewhere the
    character is kept. *)
Lemma replace_cons (old new : pystr) (c : N) (r : pystr) :
  old <> [] ->
  replace (c :: r) old new
  = if startswith (c :: r) old
    then new ++ replace (skipn (List.length old) (c :: r)) old new
    else c :: replace r old new.
Proof.
  intros Hold. unfold replace. cbn [replace_from].
  destruct (startswith (c :: r) old); [|reflexivity].
  rewrite replace_from_skip. destruct old as [|o old']; [contradiction|].
  cbn [List.length]. rewrite Nat.sub_succ, Nat.sub_0_r. reflexivity.
Qed.

Lemma startswith_prefix (p b : pystr) : startswith (p ++ b) p = true.
Proof.
  induction p as [|x p IH]; [now destruct b|].
  cbn [app startswith]. now rewrite N.eqb_refl, IH.
Qed.

Lemma unfenced_cons (c : N) (r : pystr) :
  replace (c :: r) fence []
  = if startswith (c :: r) fence
    then replace (skipn 3 (c :: r)) fence []
    else c :: replace r fence [].
Proof.
  rewrite replace_cons by discriminate. reflexivity.
Qed.

Lemma unfenced_head (s : pystr) :
  match s with c :: _ => is_backtick c = false | [] => True end ->
  match replace s fence [] with c :: _ => is_backtick c = false | [] => True end.
Proof.
  destruct s as [|c r]; [trivial|]. intros Hc.
  rewrite unfenced_cons. unfold is_backtick in Hc.
  change (startswith (c :: r) fence)
    with (N.eqb 96 c && startswith r [96%N; 96%N]).
  rewrite N.eqb_sym, Hc. exact Hc.
Qed.

Lemma unfenced_start :
  forall n s, List.length s <= n -> startswith (replace s fence []) fence = false.
Proof.
  induction n as [|n IH]; intros s Hn.
  - destruct s; [reflexivity|cbn in Hn; lia].
  - destruct s as [|c r]; [reflexivity|].
    cbn [List.length] in Hn. rewrite unfenced_cons.
    destruct (startswith (c :: r) fence) eqn:E.
    + apply IH. rewrite length_skipn. cbn [List.length]. lia.
    + change (startswith (c :: replace r fence []) fence)
        with (N.eqb 96 c && startswith (replace r fence []) [96%N; 96%N]).
      destruct (N.eqb 96 c) eqn:Ec; [|reflexivity].
      cbn [andb].
      change (startswith (c :: r) fence)
        with (N.eqb 96 c && startswith r [96%N; 96%N]) in E.
      rewrite Ec in E. cbn [andb] in E.
      destruct r as [|c2 r2]; [reflexivity|].
      rewrite unfenced_cons.
      change (startswith (c2 :: r2) [96%N; 96%N])
        with (N.eqb 96 c2 && startswith r2 [96%N]) in E.
      change (startswith (c2 :: r2) fence)
        with (N.eqb 96 c2 && startswith r2 [96%N; 96%N]).
      destruct (N.eqb 96 c2) eqn:Ec2; cbn [andb] in *.
      * assert (E2 : startswith r2 [96%N; 96%N] = false).
        { destruct r2 as [|c3 r3]; [reflexivity|].
          cbn [startswith andb] in E |- *.
          destruct (N.eqb 96 c3); [destruct r3; discriminate|reflexivity]. }
        rewrite E2.
        change (startswith (c2 :: replace r2 fence []) [96%N; 96%N])
          with (N.eqb 96 c2 && startswith (replace r2 fence []) [96%N]).
        rewrite Ec2. cbn [andb].
        assert (H2 : match r2 with
                     | c3 :: _ => is_backtick c3 = false
                     | [] => True
                     end).
        { destruct r2 as [|c3 r3]; [trivial|].
          cbn [startswith andb] in E. unfold is_backtick. rewrite N.eqb_sym.
          destruct (N.eqb 96 c3); [destruct r3; discriminate|reflexivity]. }
        apply unfenced_head in H2.
        destruct (replace r2 fence []) as [|c3 r3]; [reflexivity|].
        cbn [startswith andb]. unfold is_backtick in H2.
        rewrite N.eqb_sym, H2. reflexivity.
      * change (startswith (c2 :: replace r2 fence []) [96%N; 96%N])
          with (N.eqb 96 c2 && startswith (replace r2 fence []) [96%N]).
        now rewrite Ec2.
Qed.

Lemma unfenced_has_no_fence :
  forall n s, List.length s <= n ->
    forall a b, replace s fence [] <> a ++ fence ++ b.
Proof.
  induction n as [|n IH]; intros s Hn a b H.
  - destruct s; [|cbn in Hn; lia].
    destruct a; discriminate.
  - destruct s as [|c r]; [destruct a; discriminate|].
    cbn [List.length] in Hn.
    destruct a as [|x a'].
    + pose proof (unfenced_start (S n) (c :: r) Hn) as Hs.
      rewrite H in Hs. cbn [app] in Hs.
      now rewrite startswith_prefix in Hs.
    + rewrite unfenced_cons in H.
      destruct (startswith (c :: r) fence).
      * apply (IH (skipn 3 (c :: r))) in H; [exact H|].
        rewrite length_skipn. cbn [List.length]. lia.
      * injection H as _ H. apply (IH r) in H; [exact H|lia].
Qed.

(** X10: the text handed to the decoder holds no code fence: after line
    156 no three backticks in a row are left anywhere, for every reply. *)
Theorem cleaned_text_has_no_fence (raw a b : pystr) :
  cleaned raw <> a ++ fence ++ b.
Proof.
  unfold cleaned. now apply (unfenced_has_no_fence _ _ (le_n _)).
Qed.

Lemma replace_passes (old new : pystr) (o : N) (old' : pystr) :
  old = o :: old' -> is_backtick o = true ->
  forall inner rest,
    forallb (fun c => negb (is_backtick c)) inner = true ->
    replace (inner ++ rest) old new = inner ++ replace rest old new.
Proof.
  intros Hold Ho. induction inner as [|c r IH]; intros rest Hin; [reflexivity|].
  cbn [forallb] in Hin. apply andb_true_iff in Hin. destruct Hin as [Hc Hr].
  cbn [app]. rewrite replace_cons by (rewrite Hold; discriminate).
  assert (E : startswith (c :: r ++ rest) old = false).
  { rewrite Hold. cbn [startswith]. unfold is_backtick in *.
    apply N.eqb_eq in Ho. subst o.
    destruct (N.eqb 96 c) eqn:Ec; [|reflexivity].
    apply N.eqb_eq in Ec. subst c. discriminate. }
  rewrite E. now rewrite IH.
Qed.

Lemma lstrip_keeps (c : N) (r : pystr) :
  isspace c = false -> lstrip (c :: r) = c :: r.
Proof. intros H. cbn [lstrip]. now rewrite H. Qed.

Lemma strip_keeps (c d : N) (m : pystr) :
  isspace c = false -> isspace d = false ->
  strip (c :: m ++ [d]) = c :: m ++ [d].
Proof.
  intros Hc Hd. unfold strip, rstrip. rewrite lstrip_keeps by exact Hc.
  cbn [rev]. rewrite rev_app_distr. cbn [rev app].
  rewrite lstrip_keeps by exact Hd.
  cbn [rev]. rewrite rev_app_distr, rev_involutive. reflexivity.
Qed.

Lemma strip_keeps_fenced (body : pystr) :
  strip (fence_json ++ body ++ fence) = fence_json ++ body ++ fence.
Proof.
  assert (E : fence_json ++ body ++ fence
              = 96%N :: ((skipn 1 fence_json ++ body ++ [96%N; 96%N]) ++ [96%N])).
  { rewrite <- !app_assoc. reflexivity. }
  rewrite E. now apply strip_keeps.
Qed.

(** X11: a reply wrapped in a json code fence whose body holds no
    backtick is unwrapped exactly: the decoder is given the body, so the
    reply is read as its body is. When the body decodes, its value
    replaces the list; when the decoder raises [JSONDecodeError], the
    message kept is the whole reply, fences included; when the body is
    nested too deep or holds too long an integer, the [RecursionError] or
    [ValueError] of the decoder leaves the handler. *)
Theorem fenced_reply_is_unwrapped (lim : limits) (body : pystr)
    (Hbody : forallb (fun c => negb (is_backtick c)) body = true) :
  cleaned (fence_json ++ body ++ fence) = body
  /\ interpret lim (Some (fence_json ++ body ++ fence))
     = match Json.loads lim body with
       | Json.Value v => Replace v
       | Json.Raises e =>
           if caught e
           then Message (fence_json ++ body ++ fence)
           else Uncaught e
       end.
Proof.
  assert (E : cleaned (fence_json ++ body ++ fence) = body).
  { unfold cleaned. rewrite strip_keeps_fenced.
    change (fence_json ++ body ++ fence)
      with (96%N :: (skipn 1 fence_json ++ body ++ fence)).
    rewrite replace_cons by discriminate.
    change (96%N :: (skipn 1 fence_json ++ body ++ fence))
      with (fence_json ++ (body ++ fence)).
    rewrite startswith_prefix.
    change (skipn (List.length fence_json) (fence_json ++ body ++ fence))
      with (body ++ fence).
    cbn [app].
    rewrite (replace_passes fence_json [] 96 (skipn 1 fence_json)
               eq_refl eq_refl body fence Hbody).
    change (replace fence fence_json []) with fence.
    rewrite (replace_passes fence [] 96 (skipn 1 fence)
               eq_refl eq_refl body fence Hbody).
    change (replace fence fence []) with (@nil N).
    apply app_nil_r. }
  split; [exact E|].
  rewrite <- E at 2.
  apply reply_replaces_or_is_kept. discriminate.
Qed.

Lemma fenced_reply_is_unwrapped_witness :
  forallb (fun c => negb (is_backtick c)) (newline ++ py "[]" ++ newline) = true
  /\ cleaned (fence_json ++ (newline ++ py "[]" ++ newline) ++ fence)
     = newline ++ py "[]" ++ newline
  /\ interpret sample_limits
       (Some (fence_json ++ (newline ++ py "[]" ++ newline) ++ fence))
     = Replace (PList []).
Proof.
  split; [reflexivity|].
  exact (fenced_reply_is_unwrapped sample_limits
           (newline ++ py "[]" ++ newline) eq_refl).
Defined.

(** ** Trimmed text *)

Lemma lstrip_head (s : pystr) :
  match lstrip s with c :: _ => isspace c = false | [] => True end.
Proof.
  induction s as [|c r IH]; [exact I|]. cbn [lstrip].
  destruct (isspace c) eqn:E; [exact IH|exact E].
Qed.

Lemma lstrip_snoc (a : pystr) (x : N) :
  isspace x = false -> lstrip (a ++ [x]) = lstrip a ++ [x].
Proof.
  intros Hx. induction a as [|c a IH]; cbn [app lstrip].
  - now rewrite Hx.
  - destruct (isspace c); [exact IH|reflexivity].
Qed.

Lemma rstrip_cons (c : N) (r : pystr) :
  isspace c = false -> rstrip (c :: r) = c :: rstrip r.
Proof.
  intros Hc. unfold rstrip. cbn [rev].
  rewrite lstrip_snoc by exact Hc. rewrite rev_app_distr. reflexivity.
Qed.

Lemma rstrip_last (s : pystr) :
  match rstrip s with
  | c :: r => isspace (last (c :: r) c) = false
  | [] => True
  end.
Proof.
  unfold rstrip. pose proof (lstrip_head (rev s)) as H.
  destruct (lstrip (rev s)) as [|x m]; [exact I|].
  cbn [rev]. destruct (rev m ++ [x]) as [|c r] eqn:E.
  - destruct (rev m); discriminate.
  - rewrite <- E. now rewrite last_last.
Qed.

Lemma rstrip_rstrip (s : pystr) : rstrip (rstrip s) = rstrip s.
Proof.
  unfold rstrip. rewrite rev_involutive.
  pose proof (lstrip_head (rev s)) as H.
  destruct (lstrip (rev s)) as [|x m]; [reflexivity|].
  now rewrite lstrip_keeps.
Qed.

(** X12: trimmed text, as line 83 stores it for a new subtask and line
    156 hands it on, has no white space at either end, and trimming it
    again changes nothing. *)
Theorem trimmed_text_has_clean_ends (t : pystr) :
  strip (strip t) = strip t
  /\ match strip t with
     | c :: r => isspace c = false /\ isspace (last (c :: r) c) = false
     | [] => True
     end.
Proof.
  unfold strip. pose proof (lstrip_head t) as H.
  destruct (lstrip t) as [|c r] eqn:E.
  - split; [reflexivity|exact I].
  - rewrite rstrip_cons by exact H. split.
    + rewrite lstrip_keeps by exact H.
      rewrite <- (rstrip_cons c r H). apply rstrip_rstrip.
    + split; [exact H|].
      pose proof (rstrip_last (c :: r)) as HL.
      now rewrite rstrip_cons in HL by exact H.
Qed.

(** ** Prose *)

Lemma literal_needs_its_letter (c x : N) (r lit : pystr) :
  N.eqb c x = false -> hd_error lit = Some x ->
  startswith (c :: r) lit = false.
Proof.
  intros H Hl. destruct lit as [|y lit]; [discriminate|].
  injection Hl as ->. cbn [startswith]. now rewrite N.eqb_sym, H.
Qed.

Lemma needs_a_starter (m fuel d : nat) (c : N) (r : pystr) :
  can_start_json c = false ->
  Json.parse_value m (S fuel) d (c :: r) = Json.DecodeError.
Proof.
  unfold can_start_json. intros H.
  repeat (apply orb_false_iff in H; destruct H as [H ?]).
  cbn [Json.parse_value].
  repeat match goal with
         | E : N.eqb c ?x = false |- context [N.eqb c ?x] => rewrite E
         end.
  rewrite (literal_needs_its_letter c 110 r (py "null")) by (assumption || reflexivity).
  rewrite (literal_needs_its_letter c 116 r (py "true")) by (assumption || reflexivity).
  rewrite (literal_needs_its_letter c 102 r (py "false")) by (assumption || reflexivity).
  rewrite (literal_needs_its_letter c 78 r (py "NaN")) by (assumption || reflexivity).
  rewrite (literal_needs_its_letter c 73 r (py "Infinity")) by (assumption || reflexivity).
  rewrite (literal_needs_its_letter c 45 r (py "-Infinity")) by (assumption || reflexivity).
  unfold Json.scan_number, Json.scan_minus.
  match goal with E : N.eqb c 45 = false |- _ => rewrite E end.
  unfold Json.scan_int_part, Json.is_digit.
  assert (E0 : N.eqb c 48 = false).
  { apply N.eqb_neq. intros ->. discriminate. }
  rewrite E0.
  match goal with E : (_ && _) = false |- _ => rewrite E end.
  reflexivity.
Qed.

(** X13: a reply whose cleaned text begins with a character that no
    JSON value begins with (a letter of prose, say) is never taken for a
    list: it is kept verbatim as the chat answer, whatever the limits
    of the interpreter. *)
Theorem prose_reply_is_a_message (lim : limits) (raw : pystr) (c : N) (r : pystr)
    (Hclean : cleaned raw = c :: r)
    (Hws : Json.is_ws c = false)
    (Hc : can_start_json c = false) :
  interpret lim (Some raw) = Message raw.
Proof.
  apply undecodable_reply_is_message.
  - intros ->. discriminate.
  - rewrite Hclean. unfold Json.loads.
    destruct (startswith (c :: r) [65279%N]); [reflexivity|].
    cbn [Json.skip_ws]. rewrite Hws.
    replace (2 * List.length (c :: r) + 1) with (S (2 * List.length (c :: r)))
      by lia.
    now rewrite needs_a_starter.
Qed.

Lemma prose_reply_is_a_message_witness :
  cleaned (py "You have 3 tasks remaining.")
  = 89%N :: skipn 1 (py "You have 3 tasks remaining.")
  /\ interpret sample_limits (Some (py "You have 3 tasks remaining."))
     = Message (py "You have 3 tasks remaining.").
Proof.
  assert (H : cleaned (py "You have 3 tasks remaining.")
              = 89%N :: skipn 1 (py "You have 3 tasks remaining."))
    by (vm_compute; reflexivity).
  split; [exact H|].
  exact (prose_reply_is_a_message sample_limits
           (py "You have 3 tasks remaining.") 89
           (skipn 1 (py "You have 3 tasks remaining.")) H eq_refl eq_refl).
Defined.

(** ** The progress section *)

Lemma render_session_counts (fuel : nat) (ui : widgets) (v v' : pyval) (t c : nat) :
  truthy v = true ->
  render_session fuel ui v = (v', Returned t c) ->
  0 < t /\ c <= t.
Proof.
  intros Hv H. destruct fuel as [|f]; [discriminate|].
  assert (Hitem : forall i x x' t0 k0,
             render_item (render_tasks f ui) ui 0 root i x = Continue x' t0 k0 ->
             1 <= t0 /\ k0 <= t0).
  { apply render_item_counts. intros subs lv k subs' t0 c0 Hr.
    now apply render_tasks_counts in Hr. }
  cbn [render_session] in H.
  destruct v as [| | | |s|l|d]; try discriminate.
  - (* a string, by its characters *)
    injection H as _ H.
    destruct (render_loop _ IsStr 0 _) as [l' o] eqn:E. cbn [snd] in H. subst o.
    apply (render_loop_counts _ _ (render_item_stops_early _ ui 0 root) Hitem) in E.
    rewrite length_map in E. destruct s; [discriminate|]. cbn [List.length] in E. lia.
  - (* a list *)
    destruct (render_tasks (S f) ui l 0 root) as [l' o] eqn:E.
    injection H as _ ->. apply render_tasks_counts in E.
    destruct l; [discriminate|]. cbn [List.length] in E. lia.
  - (* a dict, by its keys *)
    injection H as _ H.
    destruct (render_loop _ IsDict 0 _) as [l' o] eqn:E. cbn [snd] in H. subst o.
    apply (render_loop_counts _ _ (render_item_stops_early _ ui 0 root) Hitem) in E.
    rewrite length_map in E. destruct d; [discriminate|]. cbn [List.length] in E. lia.
Qed.

(** X14: whatever the session holds and whatever the page, the progress
    bar of line 177 is given a fraction between 0 and 1 of a total that
    is not zero, and the note of line 180 ("ready for tasks") is never
    shown: the branch is dead. *)
Theorem progress_bar_is_in_range (fuel : nat) (ui : widgets) (st : session) :
  match snd (progress_section fuel ui st) with
  | ProgressBar c t => 0 < t /\ c <= t
  | ReadyNote => False
  | _ => True
  end.
Proof.
  unfold progress_section, display.
  destruct (truthy (todo_list st)) eqn:Hv; [|exact I].
  destruct (render_session fuel ui (todo_list st)) as [v' o] eqn:E.
  destruct o as [t c| |e]; try exact I.
  destruct (render_session_counts _ _ _ _ _ _ Hv E) as [H1 H2].
  cbn [snd]. destruct (0 <? t) eqn:Ht.
  - split; assumption.
  - apply Nat.ltb_ge in Ht. lia.
Qed.

(** ** Submit *)

(** The decoder raises nothing but [JSONDecodeError], [RecursionError]
    and [ValueError]. *)
Lemma scan_number_escapes (m : nat) (s : pystr) (e : pyexn) :
  Json.scan_number m s = Json.Escaped e -> e = ValueError.
Proof.
  unfold Json.scan_number.
  destruct (Json.scan_minus s) as [neg s1].
  destruct (Json.scan_int_part s1) as [[ip r1]|]; [|discriminate].
  destruct (match Json.scan_frac r1 with
            | Some (ds, r) => (Some ds, r)
            | None => (None, r1)
            end) as [fp r2].
  destruct (match Json.scan_exp r2 with
            | Some (e, r) => (Some e, r)
            | None => (None, r2)
            end) as [ep r3].
  destruct fp, ep; try discriminate.
  destruct (Json.too_many_digits m (List.length ip)); [|discriminate].
  intros H. now injection H as <-.
Qed.

Lemma parse_escapes (m : nat) :
  forall fuel,
    (forall d s e, Json.parse_value m fuel d s = Json.Escaped e ->
                   e = RecursionError \/ e = ValueError)
    /\ (forall d s acc e, Json.parse_elems m fuel d s acc = Json.Escaped e ->
                          e = RecursionError \/ e = ValueError)
    /\ (forall d s acc e, Json.parse_members m fuel d s acc = Json.Escaped e ->
                          e = RecursionError \/ e = ValueError).
Proof.
  induction fuel as [|f (IHv & IHe & IHm)].
  - repeat split; intros; discriminate.
  - split; [|split].
    + intros d s e H. destruct s as [|c r]; [discriminate|].
      cbn [Json.parse_value] in H.
      destruct (N.eqb c 34).
      { destruct (Json.scan_string r []) as [[x r']|]; discriminate. }
      destruct (N.eqb c 123).
      { destruct d as [|d]; [injection H as <-; now left|].
        destruct (Json.skip_ws r) as [|c' r']; [discriminate|].
        destruct (N.eqb c' 125); [discriminate|].
        destruct (N.eqb c' 34); [|discriminate].
        now apply IHm in H. }
      destruct (N.eqb c 91).
      { destruct d as [|d]; [injection H as <-; now left|].
        destruct (Json.skip_ws r) as [|c' r']; [discriminate|].
        destruct (N.eqb c' 93); [discriminate|].
        now apply IHe in H. }
      repeat match type of H with
             | (if ?b then _ else _) = _ => destruct b; [discriminate|]
             end.
      apply scan_number_escapes in H. now right.
    + intros d s acc e H. cbn [Json.parse_elems] in H.
      destruct (Json.parse_value m f d s) as [v r| |e'|] eqn:E;
        try discriminate.
      * destruct (Json.skip_ws r) as [|c r']; [discriminate|].
        destruct (N.eqb c 93); [discriminate|].
        destruct (N.eqb c 44); [|discriminate].
        now apply IHe in H.
      * injection H as <-. now apply IHv in E.
    + intros d s acc e H. cbn [Json.parse_members] in H.
      destruct (Json.scan_string s []) as [[k r]|]; [|discriminate].
      destruct (Json.skip_ws r) as [|c r1]; [discriminate|].
      destruct (N.eqb c 58); [|discriminate].
      destruct (Json.parse_value m f d (Json.skip_ws r1)) as [v r2| |e'|] eqn:E;
        try discriminate.
      * destruct (Json.skip_ws r2) as [|c' r3]; [discriminate|].
        destruct (N.eqb c' 125); [discriminate|].
        destruct (N.eqb c' 44); [|discriminate].
        destruct (Json.skip_ws r3) as [|q r4]; [discriminate|].
        destruct (N.eqb q 34); [|discriminate].
        now apply IHm in H.
      * injection H as <-. now apply IHv in E.
Qed.

Lemma loads_raises (lim : limits) (s : pystr) (e : pyexn) :
  Json.loads lim s = Json.Raises e ->
  e = JSONDecodeError \/ e = RecursionError \/ e = ValueError.
Proof.
  unfold Json.loads.
  destruct (startswith s [65279%N]); [intros H; injection H as <-; now left|].
  destruct (Json.parse_value _ _ _ _) as [v r| |e'|] eqn:E.
  - destruct (Json.skip_ws r); [discriminate|].
    intros H. injection H as <-. now left.
  - intros H. injection H as <-. now left.
  - intros H. injection H as <-. right.
    destruct (parse_escapes (int_max_str_digits lim)
                (2 * List.length s + 1)) as [Hv _].
    now apply Hv in E.
  - intros H. injection H as <-. now left.
Qed.

(** X15: what a click on Submit does, case by case. With no text typed
    it shows the warning and nothing else. With a text, the provider is
    sent the prompt made of the list and the text. When the call fails,
    or the answer has no text or an empty one, the session is left as it
    was. Otherwise the cleaned answer is decoded: a value replaces the
    list and clears the chat answer; a [JSONDecodeError] makes the
    answer, verbatim, the chat answer and leaves the list; any other
    exception of the decoder, which is a [RecursionError] or a
    [ValueError], ends the run. *)
Theorem submit_changes (lim : limits) (dumps : pyval -> pystr)
    (send : prompt -> sent) (st : session) (input : pystr) :
  let sent_back := send (build_prompt dumps st input) in
  let result := submit lim dumps send st input in
  (input = [] -> result = Completed st true)
  /\ (input <> [] ->
      (sent_back = Failed \/ sent_back = Answered None
       \/ sent_back = Answered (Some []) ->
       result = Completed st false)
      /\ (forall raw,
            raw <> [] -> sent_back = Answered (Some raw) ->
            match Json.loads lim (cleaned raw) with
            | Json.Value v =>
                result = Completed {| todo_list := v; chat_response := None |}
                           false
            | Json.Raises JSONDecodeError =>
                result = Completed {| todo_list := todo_list st;
                                      chat_response := Some raw |} false
            | Json.Raises e =>
                result = Died e /\ (e = RecursionError \/ e = ValueError)
            end)).
Proof.
  intros sent_back result. subst sent_back result. unfold submit.
  split; [intros ->; reflexivity|].
  intros Hin. destruct input as [|c r]; [contradiction|].
  cbv zeta. unfold get_ai_response.
  set (p := build_prompt dumps st (c :: r)).
  split.
  - intros [H | [H | H]]; rewrite H; reflexivity.
  - intros raw Hraw Hs. rewrite Hs.
    rewrite reply_replaces_or_is_kept by exact Hraw.
    destruct (Json.loads lim (cleaned raw)) as [v|e] eqn:El; [reflexivity|].
    destruct (loads_raises _ _ _ El) as [-> | [-> | ->]].
    + reflexivity.
    + split; [reflexivity|now left].
    + split; [reflexivity|now right].
Qed.

Lemma submit_changes_witness :
  submit sample_limits (fun _ => []) (fun _ => Answered (Some (py "[]")))
    initial_session (py "x")
  = Completed {| todo_list := PList []; chat_response := None |} false.
Proof.
  destruct (submit_changes sample_limits (fun _ => [])
              (fun _ => Answered (Some (py "[]"))) initial_session (py "x"))
    as [_ H].
  destruct H as [_ H]; [discriminate|].
  exact (H (py "[]") ltac:(discriminate) eq_refl).
Defined.

(** ** A run after a run *)

Lemma initialize_stored (st : session) :
  initialize_session_state (store_of st) = st.
Proof. now destruct st. Qed.

Lemma render_session_settled (fuel : nat) (ui : widgets) (v v' : pyval) (t c : nat) :
  render_session fuel ui v = (v', Returned t c) ->
  render_session fuel ui v' = (v', Returned t c)
  /\ (truthy v = true -> truthy v' = true).
Proof.
  intros H. destruct fuel as [|f]; [discriminate|].
  cbn [render_session] in H.
  destruct v as [| | | |s|l|d]; try discriminate.
  - injection H as <- H. split; [|trivial]. cbn [render_session]. now rewrite H.
  - destruct (render_tasks (S f) ui l 0 root) as [l' o] eqn:E.
    injection H as <- ->. split.
    + cbn [render_session]. now rewrite (render_tasks_settled _ _ _ _ _ _ _ _ E).
    + cbn [render_tasks] in E.
      apply (render_loop_returned _ _ (render_item_stops_early _ ui 0 root)) in E.
      destruct E as [E _]. destruct l, l'; try discriminate; trivial.
  - injection H as <- H. split; [|trivial]. cbn [render_session]. now rewrite H.
Qed.

(** X16: when a run of the script without a submit shows the progress
    bar, the next run on the same page, started from the session that
    run left, is the same run: same session, same bar, same chat
    answer. *)
Theorem untouched_page_is_stable (lim : limits) (dumps : pyval -> pystr)
    (send : prompt -> sent)
    (fuel : nat) (pg : page) (s : store) (c t : nat)
    (Hsubmit : submit_clicked pg = false)
    (Hbar : progress (main lim dumps send fuel pg s) = ProgressBar c t) :
  main lim dumps send fuel pg
    (store_of (session_after (main lim dumps send fuel pg s)))
  = main lim dumps send fuel pg s.
Proof.
  unfold main in *. rewrite Hsubmit in *.
  set (st0 := initialize_session_state s) in *.
  unfold progress_section, display in *.
  destruct (truthy (todo_list st0)) eqn:Hv; [|discriminate].
  destruct (render_session fuel (task_widgets pg) (todo_list st0)) as [v' o] eqn:E.
  destruct o as [t' c'| |e]; try discriminate.
  cbn [session_after]. rewrite initialize_stored. cbn [todo_list chat_response].
  destruct (render_session_settled _ _ _ _ _ _ E) as [E' Hv'].
  rewrite (Hv' Hv), E'. reflexivity.
Qed.

Lemma untouched_page_is_stable_witness :
  submit_clicked (mkPage [] false ticked) = false
  /\ progress (main sample_limits (fun _ => []) (fun _ => Failed) 3 (mkPage [] false ticked)
                 (mkStore (Some (PList sample_tasks)) None))
     = ProgressBar 4 4
  /\ main sample_limits (fun _ => []) (fun _ => Failed) 3 (mkPage [] false ticked)
       (store_of (session_after
                    (main sample_limits (fun _ => []) (fun _ => Failed) 3 (mkPage [] false ticked)
                       (mkStore (Some (PList sample_tasks)) None))))
     = main sample_limits (fun _ => []) (fun _ => Failed) 3 (mkPage [] false ticked)
         (mkStore (Some (PList sample_tasks)) None).
Proof.
  split; [reflexivity|].
  assert (H : progress (main sample_limits (fun _ => []) (fun _ => Failed) 3
                          (mkPage [] false ticked)
                          (mkStore (Some (PList sample_tasks)) None))
              = ProgressBar 4 4) by (vm_compute; reflexivity).
  split; [exact H|].
  exact (untouched_page_is_stable sample_limits (fun _ => []) (fun _ => Failed) 3
           (mkPage [] false ticked) (mkStore (Some (PList sample_tasks)) None)
           4 4 eq_refl H).
Defined.

(** ** Ticking a checkbox *)

Lemma render_item_unticked rec (ui : widgets) (level i : nat) (K : pystr)
    (raw : pyval) :
  checkbox ui (chk (task_key K level i)) = None ->
  render_item rec ui level K i raw = render_item rec (unticked ui) level K i raw.
Proof.
  intros H. unfold render_item. destruct (normalize raw); try reflexivity.
  unfold visit_item, checkbox_status. cbn [unticked checkbox text_input button].
  fold (chk (task_key K level i)). now rewrite H.
Qed.

(** One turn on an entry whose checkbox and buttons were not touched. *)
Lemma calm_turn rec (ui : widgets) (level i : nat) (K : pystr) (f : nat)
    (raw : pyval) (n : TaskNode) :
  (forall subs ks,
      read_forest subs = Some ks -> forest_height ks < f ->
      exists subs',
        rec subs (S level) (task_key K level i)
        = (subs', Returned (total_nodes ks) (total_flagged ks))
        /\ read_forest subs' = Some ks) ->
  checkbox ui (chk (task_key K level i)) = None ->
  (forall k, button ui k = false) ->
  read_node raw = Some n -> height n <= f ->
  exists raw',
    render_item rec ui level K i raw = Continue raw' (size n) (flagged n)
    /\ read_node raw' = Some n.
Proof.
  intros Hrec Hchk Hbtn Hn Hh.
  rewrite (render_item_unticked _ _ _ _ _ _ Hchk).
  apply quiet_turn with (f := f); try assumption.
  - intros k. reflexivity.
  - apply Hbtn.
  - apply Hbtn.
Qed.

Lemma calm_child (ui : widgets) (K : pystr) (level i : nat) :
  calm_below ui K level -> calm_below ui (task_key K level i) (S level).
Proof.
  intros H j suf Hs.
  destruct (task_key_suffix (task_key K level i) (S level) j suf) as (suf' & -> & Hs').
  now apply H.
Qed.

Lemma calm_here (ui : widgets) (K : pystr) (level i : nat) :
  calm_below ui K level -> checkbox ui (chk (task_key K level i)) = None.
Proof.
  intros H. specialize (H i [] (or_introl eq_refl)).
  now rewrite app_nil_r in H.
Qed.

(** The loop from index [i] on, when every turn from there on is
    undisturbed. *)
Lemma calm_loop (visit : nat -> pyval -> item_result) (c : container) (f : nat) :
  forall tasks forest i,
    (forall j raw n,
        i <= j -> read_node raw = Some n -> height n <= f ->
        exists raw',
          visit j raw = Continue raw' (size n) (flagged n)
          /\ read_node raw' = Some n) ->
    read_forest tasks = Some forest -> forest_height forest <= f ->
    exists tasks',
      render_loop visit c i tasks
      = (tasks', Returned (total_nodes forest) (total_flagged forest))
      /\ read_forest tasks' = Some forest.
Proof.
  induction tasks as [|raw rest IH]; intros forest i Hv Hf Hh.
  - injection Hf as <-. exists []. split; reflexivity.
  - cbn [read_forest] in Hf.
    destruct (read_node raw) as [n|] eqn:Hn; [|discriminate].
    destruct (read_forest rest) as [ns|] eqn:Hns; [|discriminate].
    injection Hf as <-. rewrite forest_height_cons in Hh.
    destruct (Hv i raw n (le_n _) Hn) as (raw' & Hraw & Hn'); [lia|].
    destruct (IH ns (S i)) as (rest' & Hrest & Hns');
      [intros j raw0 n0 Hj; apply Hv; lia|reflexivity|lia|].
    exists (raw' :: rest'). cbn [render_loop]. rewrite Hraw, Hrest.
    split; [reflexivity|].
    cbn [read_forest]. now rewrite Hn', Hns'.
Qed.

Lemma calm_traversal :
  forall fuel ui tasks forest level K,
    (forall k, button ui k = false) -> calm_below ui K level ->
    read_forest tasks = Some forest -> forest_height forest < fuel ->
    exists tasks',
      render_tasks fuel ui tasks level K
      = (tasks', Returned (total_nodes forest) (total_flagged forest))
      /\ read_forest tasks' = Some forest.
Proof.
  induction fuel as [|f IH]; intros ui tasks forest level K Hb Hc Hf Hh; [lia|].
  cbn [render_tasks].
  apply calm_loop with (f := f); [|exact Hf|lia].
  intros j raw n _ Hn Hhn.
  apply calm_turn with (f := f); try assumption; [|now apply calm_here].
  intros subs ks Hks Hhk.
  apply IH; try assumption. now apply calm_child.
Qed.

Lemma chk_apart (K : pystr) (level i j : nat) (s t : pystr) :
  key_suffix s -> key_suffix t ->
  chk (task_key K level i ++ s) = chk (task_key K level j ++ t) ->
  i = j /\ s = t.
Proof.
  intros Hs Ht H. apply app_inv_head in H. now apply task_key_apart in H.
Qed.

Lemma sibling_calm (K : pystr) (level i j : nat) (sfx suf : pystr)
    (b : bool) typed :
  j <> i -> key_suffix sfx -> key_suffix suf ->
  checkbox (ticking (chk (task_key K level i ++ sfx)) b typed)
    (chk (task_key K level j ++ suf)) = None.
Proof.
  intros Hji Hsfx Hsuf. cbn [ticking checkbox].
  destruct (PyStr.eqb _ _) eqn:E; [|reflexivity].
  apply eqb_eq in E. apply chk_apart in E; try assumption.
  now destruct E.
Qed.

Lemma below_target_calm (K : pystr) (level i : nat) (b : bool) typed :
  calm_below (ticking (chk (task_key K level i)) b typed)
    (task_key K level i) (S level).
Proof.
  intros j suf Hs. cbn [ticking checkbox].
  destruct (PyStr.eqb _ _) eqn:E; [|reflexivity].
  apply eqb_eq in E. apply app_inv_head in E.
  apply (f_equal (@List.length N)) in E. unfold task_key at 1 in E.
  rewrite !length_app in E. cbn [List.length py map list_ascii_of_string] in E.
  lia.
Qed.

(** The loop when every turn is undisturbed but the turn at [i0], which
    leaves the node [n']. *)
Lemma ticked_loop (visit : nat -> pyval -> item_result) (f : nat) :
  forall i0 tasks forest i e n',
    read_forest tasks = Some forest -> forest_height forest <= f ->
    nth_error tasks i0 = Some e ->
    (forall j raw m,
        j <> i + i0 -> i <= j -> read_node raw = Some m -> height m <= f ->
        exists raw',
          visit j raw = Continue raw' (size m) (flagged m)
          /\ read_node raw' = Some m) ->
    (exists e',
        visit (i + i0) e = Continue e' (size n') (flagged n')
        /\ read_node e' = Some n') ->
    exists tasks',
      render_loop visit IsList i tasks
      = (tasks',
         Returned (total_nodes (firstn i0 forest ++ n' :: skipn (S i0) forest))
           (total_flagged (firstn i0 forest ++ n' :: skipn (S i0) forest)))
      /\ read_forest tasks'
         = Some (firstn i0 forest ++ n' :: skipn (S i0) forest).
Proof.
  induction i0 as [|i0 IH]; intros tasks forest i e n' Hf Hh Hi Hpre Hat;
    destruct tasks as [|raw rest]; try discriminate;
    cbn [read_forest] in Hf;
    destruct (read_node raw) as [m|] eqn:Hm; try discriminate;
    destruct (read_forest rest) as [ns|] eqn:Hns; try discriminate;
    injection Hf as <-; cbn [nth_error] in Hi;
    rewrite forest_height_cons in Hh.
  - injection Hi as ->. rewrite Nat.add_0_r in *.
    destruct Hat as (e' & He & Hn').
    destruct (calm_loop visit IsList f rest ns (S i)) as (rest' & Hrest & Hns');
      [intros j raw0 m0 Hj; apply Hpre; lia|exact Hns|lia|].
    exists (e' :: rest'). cbn [render_loop firstn skipn app].
    rewrite He, Hrest. split; [reflexivity|].
    cbn [read_forest]. now rewrite Hn', Hns'.
  - destruct (Hpre i raw m) as (raw' & Hraw & Hm'); [lia|lia|exact Hm|lia|].
    destruct (IH rest ns (S i) e n' Hns) as (rest' & Hrest & Hns');
      [lia|exact Hi| | |].
    + intros j raw0 m0 Hj1 Hj2. apply Hpre; lia.
    + now replace (S i + i0) with (i + S i0) by lia.
    + exists (raw' :: rest'). cbn [render_loop]. rewrite Hraw, Hrest.
      cbn [firstn skipn app]. cbn [skipn] in Hns'.
      split; [reflexivity|].
      cbn [read_forest]. now rewrite Hm', Hns'.
Qed.

Lemma tick_traversal (b : bool) (typed : pystr -> pystr) (d : pydict) (T : pystr) :
  forall p fuel tasks forest level K,
    path_key K level p = T ->
    read_forest tasks = Some forest -> forest_height forest < fuel ->
    entry_at tasks p = Some (PDict d) ->
    exists tasks' forest',
      render_tasks fuel (ticking (chk T) b typed) tasks level K
      = (tasks', Returned (total_nodes forest') (total_flagged forest'))
      /\ setCompleted forest p b = Some forest'
      /\ read_forest tasks' = Some forest'.
Proof.
  unfold setCompleted.
  induction p as [|i0 p' IH]; intros fuel tasks forest level K HT Hf Hh He;
    [discriminate|].
  subst T. destruct fuel as [|f]; [lia|].
  cbn [entry_at] in He.
  destruct (nth_error tasks i0) as [v|] eqn:Hi; [|discriminate].
  destruct (read_forest_nth _ _ _ _ Hf Hi) as (n & Hn & Hni).
  pose proof (nth_height _ _ _ Hni) as Hhn.
  destruct (path_key_cons p' K level i0) as (sfx & Ekey & Hsfx & Hne).
  set (ui := ticking (chk (path_key K level (i0 :: p'))) b typed).
  assert (Hbtn : forall k, button ui k = false) by (intros k; reflexivity).
  assert (Hpre : forall j raw m,
             j <> 0 + i0 -> 0 <= j -> read_node raw = Some m -> height m <= f ->
             exists raw',
               render_item (render_tasks f ui) ui level K j raw
               = Continue raw' (size m) (flagged m)
               /\ read_node raw' = Some m).
  { intros j raw m Hj _ Hm Hhm. cbn [Nat.add] in Hj.
    apply calm_turn with (f := f); try assumption.
    - intros subs ks Hks Hhk. apply calm_traversal; try assumption.
      intros i' suf Hsuf.
      destruct (task_key_suffix (task_key K level j) (S level) i' suf)
        as (suf' & -> & Hs').
      unfold ui. rewrite Ekey. now apply sibling_calm.
    - unfold ui. rewrite Ekey.
      rewrite <- (app_nil_r (task_key K level j)).
      apply sibling_calm; [assumption..|now left]. }
  cbn [render_tasks alter_at]. fold ui. rewrite Hni.
  destruct p' as [|i1 p''].
  - (* the entry is at this level *)
    injection He as ->.
    rewrite read_node_dict in Hn.
    destruct (Dict.get d k_task) eqn:Ht; [|discriminate].
    assert (Ht' : Dict.get d k_task <> None) by (rewrite Ht; discriminate).
    destruct (ticked_loop (render_item (render_tasks f ui) ui level K) f
                i0 tasks forest 0 (PDict d) (with_completed b n) Hf)
      as (tasks' & Hloop & Hread); [lia|exact Hi|exact Hpre| |].
    + cbn [Nat.add].
      unfold render_item, normalize, visit_item, checkbox_status.
      assert (Hc : checkbox ui (chk (task_key K level i0)) = Some b).
      { unfold ui. cbn [ticking checkbox path_key]. now rewrite eqb_refl. }
      cbn [stored_as]. fold (chk (task_key K level i0)). rewrite Hc, !Hbtn.
      rewrite (get_set_other _ _ _ _ completed_is_not_task), Ht.
      cbn [andb]. rewrite sub_tasks_of_set_completed.
      destruct (sub_tasks_of d) as [subs|] eqn:Hs.
      * destruct (read_forest subs) as [ks|] eqn:Hks; [|discriminate].
        injection Hn as <-. rewrite height_eq in Hhn. cbn [subtasks] in Hhn.
        destruct (calm_traversal f ui subs ks (S level) (task_key K level i0)
                    Hbtn (below_target_calm K level i0 b typed) Hks)
          as (subs' & Hrec & Hks'); [lia|].
        rewrite Hrec. eexists. split.
        -- unfold with_completed. rewrite size_eq, flagged_eq.
           cbn [description priority completed subtasks]. reflexivity.
        -- now apply read_node_written.
      * injection Hn as <-. eexists. split.
        -- unfold with_completed. rewrite size_eq, flagged_eq.
           cbn [description priority completed subtasks].
           unfold total_flagged, total_nodes. cbn [map list_sum].
           now rewrite Nat.add_0_r.
        -- now apply read_node_checked.
    + exists tasks'. eexists. repeat split; [exact Hloop|exact Hread].
  - (* the entry is below this one *)
    destruct v as [| | | | |l|d0]; try discriminate.
    destruct (sub_tasks_of d0) as [subs|] eqn:Hs; [|discriminate].
    rewrite read_node_dict, Hs in Hn.
    destruct (Dict.get d0 k_task) eqn:Ht; [|discriminate].
    assert (Ht' : Dict.get d0 k_task <> None) by (rewrite Ht; discriminate).
    destruct (read_forest subs) as [ks|] eqn:Hks; [|discriminate].
    injection Hn as <-. rewrite height_eq in Hhn. cbn [subtasks] in *.
    destruct (IH f subs ks (S level) (task_key K level i0) eq_refl Hks)
      as (subs' & ks' & Hrec & Halt & Hks'); [lia|exact He|].
    rewrite Halt.
    destruct (ticked_loop (render_item (render_tasks f ui) ui level K) f
                i0 tasks forest 0 (PDict d0)
                (mkNode (description_shown d0) (priority_shown d0)
                   (completed_shown d0) ks') Hf)
      as (tasks' & Hloop & Hread); [lia|exact Hi|exact Hpre| |].
    + cbn [Nat.add].
      assert (Hc : checkbox ui (chk (task_key K level i0)) = None).
      { unfold ui. rewrite Ekey. cbn [ticking checkbox].
        destruct (PyStr.eqb _ _) eqn:E; [|reflexivity].
        apply eqb_eq in E. apply app_inv_head in E.
        rewrite <- (app_nil_r (task_key K level i0)) in E at 1.
        apply app_inv_head in E. symmetry in E.
        now apply Hne in E. }
      unfold render_item, normalize, visit_item, checkbox_status.
      cbn [stored_as]. fold (chk (task_key K level i0)). rewrite Hc.
      rewrite !Hbtn. cbn [andb]. fold (completed_shown d0).
      rewrite (get_set_other _ _ _ _ completed_is_not_task), Ht.
      rewrite sub_tasks_of_set_completed, Hs.
      unfold ui in Hrec |- *. cbn [path_key] in Hrec |- *. rewrite Hrec.
      eexists. split.
      * rewrite size_eq, flagged_eq.
        cbn [description priority completed subtasks]. reflexivity.
      * now apply read_node_written.
    + exists tasks'. eexists. repeat split; [exact Hloop|exact Hread].
Qed.

(** Setting the flag at a path: the node there keeps its text, priority
    and subtasks and takes the flag; the forest has as many nodes as
    before. *)
Lemma set_completed_at (b : bool) :
  forall p forest forest',
    alter_at (fun n => [with_completed b n]) forest p = Some forest' ->
    exists n,
      node_at forest p = Some n
      /\ node_at forest' p = Some (with_completed b n)
      /\ total_nodes forest' = total_nodes forest.
Proof.
  induction p as [|i p IH]; intros forest forest' H; [discriminate|].
  cbn [alter_at node_at] in *.
  destruct (nth_error forest i) as [m|] eqn:Hi; [|discriminate].
  rewrite (total_nodes_split _ _ _ Hi).
  destruct p as [|i' p'].
  - injection H as <-. exists m. split; [reflexivity|].
    change (match forest with [] => [] | _ :: l => skipn i l end)
      with (skipn (S i) forest).
    cbn [app].
    rewrite (nth_replaced _ _ _ _ _ Hi). split; [reflexivity|].
    rewrite total_nodes_app, total_nodes_cons, !size_eq.
    cbn [with_completed subtasks]. lia.
  - destruct (alter_at _ (subtasks m) (i' :: p')) as [subs'|]
      eqn:Hsub; [|discriminate].
    injection H as <-.
    destruct (IH _ _ Hsub) as (n & Hn & Hn' & Htot).
    exists n. split; [exact Hn|].
    change (match forest with [] => [] | _ :: l => skipn i l end)
      with (skipn (S i) forest).
    rewrite (nth_replaced _ _ _ _ _ Hi). cbn [with_subtasks subtasks].
    split; [exact Hn'|].
    rewrite total_nodes_app, total_nodes_cons, !size_eq.
    cbn [with_subtasks subtasks]. lia.
Qed.

(** X17: in a stored forest that reads as a forest of task nodes, a page
    on which the checkbox of one dict entry has the state [b], and no
    other widget was touched, makes the traversal return the counts of
    the forest in which the node at that path has [completed = b]: the
    node keeps its text, priority and subtasks, no other node is written
    to, no subtask of it takes the flag, and the forest has as many
    nodes as before. *)
Theorem tick_sets_completed (fuel : nat) (tasks : list pyval)
    (forest : list TaskNode) (p : path) (d : pydict) (b : bool)
    (typed : pystr -> pystr)
    (Hread : read_forest tasks = Some forest)
    (Hfuel : forest_height forest < fuel)
    (Hpath : entry_at tasks p = Some (PDict d)) :
  exists tasks' forest',
    render_tasks fuel (ticking (chk (path_key root 0 p)) b typed) tasks 0 root
    = (tasks', Returned (total_nodes forest') (total_flagged forest'))
    /\ read_forest tasks' = Some forest'
    /\ setCompleted forest p b = Some forest'
    /\ exists n,
         node_at forest p = Some n
         /\ node_at forest' p = Some (with_completed b n)
         /\ total_nodes forest' = total_nodes forest.
Proof.
  destruct (tick_traversal b typed d (path_key root 0 p) p fuel tasks forest
              0 root eq_refl Hread Hfuel Hpath)
    as (tasks' & forest' & Hrun & Hset & Hread').
  exists tasks', forest'. repeat split; try assumption.
  now apply set_completed_at.
Qed.

Lemma tick_sets_completed_witness :
  exists tasks' forest',
    render_tasks 3 (ticking (chk (path_key root 0 [0; 1])) true (fun _ => []))
      sample_tasks 0 root
    = (tasks', Returned (total_nodes forest') (total_flagged forest'))
    /\ read_forest tasks' = Some forest'
    /\ setCompleted sample_forest [0; 1] true = Some forest'
    /\ exists n,
         node_at sample_forest [0; 1] = Some n
         /\ node_at forest' [0; 1] = Some (with_completed true n)
         /\ total_nodes forest' = total_nodes sample_forest.
Proof.
  exact (tick_sets_completed 3 sample_tasks sample_forest [0; 1] _ true
           (fun _ => []) eq_refl sample_height eq_refl).
Defined.

(** ** A session that holds a JSON object or a JSON string *)

(** One turn on a bare string when no button was clicked. *)
Lemma string_turn rec (ui : widgets) (level i : nat) (K : pystr) (s : pystr) :
  (forall k, button ui k = false) ->
  exists k,
    render_item rec ui level K i (PStr s) = Continue (PStr s) 1 k /\ k <= 1.
Proof.
  intros Hb. unfold render_item, normalize, visit_item. cbn [stored_as].
  rewrite !Hb. cbn [andb].
  destruct (checkbox_status ui (task_key K level i) (legacy_item s));
    (eexists; split; [reflexivity|lia]).
Qed.

Lemma string_loop rec (ui : widgets) (level : nat) (K : pystr) (c : container) :
  (forall k, button ui k = false) ->
  forall (l : list pystr) (i : nat),
    exists k,
      snd (render_loop (render_item rec ui level K) c i (map PStr l))
      = Returned (List.length l) k
      /\ k <= List.length l.
Proof.
  intros Hb. induction l as [|s l IH]; intros i.
  - exists 0. split; [reflexivity|cbn; lia].
  - cbn [map render_loop].
    destruct (string_turn rec ui level i K s Hb) as (k & -> & Hk).
    destruct (IH (S i)) as (k' & Hl & Hk').
    destruct (render_loop _ c (S i) (map PStr l)) as [rest' o].
    cbn [snd] in Hl |- *. subst o.
    exists (k + k'). split; [reflexivity|cbn [List.length]; lia].
Qed.

(** X18: when the session holds a JSON object, as after a reply that is
    an object and not an array, a page with no button clicked shows one
    task for each key of the object, whatever the values are: the total
    is the number of keys, the object is left as it is, and nothing
    below the keys is counted. A JSON string is shown the same way, one
    task for each character. *)
Theorem object_session_shows_its_keys (fuel : nat) (ui : widgets)
    (Hfuel : 0 < fuel)
    (Hbuttons : forall k, button ui k = false) :
  (forall d : pydict,
      exists c,
        render_session fuel ui (PDict d)
        = (PDict d, Returned (List.length d) c) /\ c <= List.length d)
  /\ (forall s : pystr,
         exists c,
           render_session fuel ui (PStr s)
           = (PStr s, Returned (List.length s) c) /\ c <= List.length s).
Proof.
  destruct fuel as [|f]; [lia|]. split.
  - intros d. cbn [render_session].
    destruct (string_loop (render_tasks f ui) ui 0 root IsDict Hbuttons
                (map fst d) 0) as (c & Hc & Hle).
    rewrite length_map in Hc, Hle. rewrite map_map in Hc.
    exists c. split; [|exact Hle]. now rewrite Hc.
  - intros s. cbn [render_session].
    destruct (string_loop (render_tasks f ui) ui 0 root IsStr Hbuttons
                (map (fun ch => [ch]) s) 0) as (c & Hc & Hle).
    rewrite length_map in Hc, Hle. rewrite map_map in Hc.
    exists c. split; [|exact Hle]. now rewrite Hc.
Qed.

Lemma object_session_shows_its_keys_witness :
  (forall d : pydict,
      exists c,
        render_session 1 quiet (PDict d)
        = (PDict d, Returned (List.length d) c) /\ c <= List.length d)
  /\ (forall s : pystr,
         exists c,
           render_session 1 quiet (PStr s)
           = (PStr s, Returned (List.length s) c) /\ c <= List.length s).
Proof.
  apply (object_session_shows_its_keys 1 quiet); [lia|reflexivity].
Defined.

(** One turn on a bare string whose Delete button was clicked. *)
Lemma string_turn_delete rec (ui : widgets) (level i : nat) (K : pystr) (s : pystr) :
  button ui (btn_add_sub (task_key K level i)) = false ->
  button ui (btn_del (task_key K level i)) = true ->
  render_item rec ui level K i (PStr s) = DeleteMe (PStr s).
Proof.
  intros Ha Hd. unfold render_item, normalize, visit_item. cbn [stored_as].
  rewrite Ha, Hd. cbn [andb].
  destruct (checkbox_status ui (task_key K level i) (legacy_item s)); reflexivity.
Qed.

Lemma string_turn_other rec (typed : pystr -> pystr) (level i j : nat)
    (K : pystr) (s : pystr) :
  j <> i ->
  exists k,
    render_item rec (clicking (btn_del (task_key K level i)) typed) level K j
      (PStr s)
    = Continue (PStr s) 1 k.
Proof.
  intros Hji. unfold render_item, normalize, visit_item. cbn [stored_as].
  cbn [clicking button].
  assert (Ha : PyStr.eqb (btn_add_sub (task_key K level j))
                 (btn_del (task_key K level i)) = false)
    by (apply eqb_neq, add_is_not_del).
  assert (Hd : PyStr.eqb (btn_del (task_key K level j))
                 (btn_del (task_key K level i)) = false).
  { apply eqb_neq. intros E. apply app_inv_head in E.
    rewrite <- (app_nil_r (task_key K level j)),
            <- (app_nil_r (task_key K level i)) in E.
    apply task_key_apart in E; [|now left|now left]. now destruct E. }
  rewrite Ha, Hd. cbn [andb].
  destruct (checkbox_status _ (task_key K level j) (legacy_item s));
    eexists; reflexivity.
Qed.

Lemma string_loop_delete rec (typed : pystr -> pystr) (level : nat) (K : pystr)
    (c : container) :
  forall (i0 : nat) (l : list pystr) (i : nat),
    i0 < List.length l ->
    snd (render_loop
           (render_item rec (clicking (btn_del (task_key K level (i + i0))) typed)
              level K)
           c i (map PStr l))
    = match pop_error c with
      | None => Rerun
      | Some e => Raised e
      end.
Proof.
  induction i0 as [|i0 IH]; intros l i Hlen;
    (destruct l as [|s l]; [cbn in Hlen; lia|]); cbn [map render_loop].
  - rewrite Nat.add_0_r.
    rewrite string_turn_delete.
    + destruct (pop_error c); reflexivity.
    + cbn [clicking button]. apply eqb_neq, add_is_not_del.
    + cbn [clicking button]. apply eqb_refl.
  - destruct (string_turn_other rec typed level (i + S i0) i K s) as (k & ->);
      [lia|].
    replace (i + S i0) with (S i + i0) by lia.
    specialize (IH l (S i)). cbn [List.length] in Hlen.
    destruct (render_loop _ c (S i) (map PStr l)) as [rest' o].
    cbn [snd] in IH |- *. rewrite IH by lia.
    destruct (pop_error c); reflexivity.
Qed.

(** X19: when the session holds a JSON object, a click on the Delete
    button of any of the tasks shown for its keys ends the run with a
    [KeyError]: line 91 pops an index from a dict whose keys are
    strings. The object is left as it is, so every later click on
    Delete fails the same way. *)
Theorem delete_in_object_session_raises (fuel : nat) (d : pydict)
    (typed : pystr -> pystr) (i : nat)
    (Hfuel : 0 < fuel)
    (Hi : i < List.length d) :
  render_session fuel (clicking (btn_del (task_key root 0 i)) typed) (PDict d)
  = (PDict d, Raised KeyError).
Proof.
  destruct fuel as [|f]; [lia|]. cbn [render_session].
  pose proof (string_loop_delete
                (render_tasks f (clicking (btn_del (task_key root 0 i)) typed))
                typed 0 root IsDict i (map fst d) 0) as H.
  cbn [Nat.add pop_error] in H. rewrite length_map, map_map in H.
  now rewrite H.
Qed.

Lemma delete_in_object_session_raises_witness :
  render_session 1 (clicking (btn_del (task_key root 0 0)) (fun _ => []))
    (PDict [(py "tasks", PList [])])
  = (PDict [(py "tasks", PList [])], Raised KeyError).
Proof.
  apply (delete_in_object_session_raises 1 [(py "tasks", PList [])]
           (fun _ => []) 0); cbn; lia.
Defined.

(** ** Replies that end the run *)

Lemma strip_repeat (x : N) (n : nat) :
  isspace x = false -> strip (repeat x n) = repeat x n.
Proof.
  intros Hx.
  assert (L : lstrip (repeat x n) = repeat x n).
  { destruct n; [reflexivity|]. cbn [repeat]. now apply lstrip_keeps. }
  unfold strip, rstrip. now rewrite L, rev_repeat, L, rev_repeat.
Qed.

Lemma cleaned_repeat (x : N) (n : nat) :
  isspace x = false -> is_backtick x = false ->
  cleaned (repeat x n) = repeat x n.
Proof.
  intros Hs Hb.
  assert (Hin : forallb (fun c => negb (is_backtick c)) (repeat x n) = true).
  { induction n as [|n IH]; [reflexivity|]. cbn [repeat forallb].
    now rewrite Hb, IH. }
  unfold cleaned. rewrite strip_repeat by exact Hs.
  rewrite <- (app_nil_r (repeat x n)).
  rewrite (replace_passes fence_json [] 96 (skipn 1 fence_json)
             eq_refl eq_refl (repeat x n) [] Hin).
  change (replace [] fence_json []) with (@nil N).
  rewrite (replace_passes fence [] 96 (skipn 1 fence)
             eq_refl eq_refl (repeat x n) [] Hin).
  reflexivity.
Qed.

(** More opening brackets than the scanner may enter. *)
Lemma brackets_too_deep (m : nat) :
  forall d n fuel,
    d < n -> 2 * d < fuel ->
    Json.parse_value m fuel d (repeat 91%N n) = Json.Escaped RecursionError.
Proof.
  induction d as [|d IH]; intros n fuel Hn Hfuel;
    (destruct n as [|n]; [lia|]); (destruct fuel as [|f]; [lia|]).
  - reflexivity.
  - destruct n as [|n]; [lia|]. destruct f as [|f]; [lia|].
    cbn [repeat Json.parse_value Json.skip_ws N.eqb Pos.eqb Json.is_ws orb].
    change (Json.parse_elems m (S f) d (91%N :: repeat 91%N n) [])
      with (match Json.parse_value m f d (repeat 91%N (S n)) with
            | Json.Scanned v r =>
                match Json.skip_ws r with
                | [] => Json.DecodeError
                | c :: r' =>
                    if N.eqb c 93 then Json.Scanned (PList (rev [v])) r'
                    else if N.eqb c 44
                    then Json.parse_elems m f d (Json.skip_ws r') [v]
                    else Json.DecodeError
                end
            | Json.DecodeError => Json.DecodeError
            | Json.Escaped e => Json.Escaped e
            | Json.Exhausted => Json.Exhausted
            end).
    rewrite IH by lia. reflexivity.
Qed.

Lemma scan_digits_ones (n : nat) :
  Json.scan_digits (repeat 49%N n) = (repeat 49%N n, []).
Proof.
  induction n as [|n IH]; [reflexivity|].
  cbn [repeat Json.scan_digits]. change (Json.is_digit 49) with true.
  cbv iota. now rewrite IH.
Qed.

(** An integer literal of more digits than [int] takes. *)
Lemma integer_too_long (lim : limits) (n : nat) :
  0 < int_max_str_digits lim -> 640 < n -> int_max_str_digits lim < n ->
  Json.loads lim (repeat 49%N n) = Json.Raises ValueError.
Proof.
  intros H0 H1 H2. destruct n as [|n]; [lia|].
  unfold Json.loads. rewrite repeat_length.
  replace (2 * S n + 1) with (S (2 * S n)) by lia.
  cbn [repeat startswith N.eqb Pos.eqb andb Json.skip_ws Json.is_ws orb].
  cbn [Json.parse_value N.eqb Pos.eqb startswith py map list_ascii_of_string
       N_of_ascii N_of_digits andb].
  unfold Json.scan_number.
  cbn [Json.scan_minus N.eqb Pos.eqb Json.scan_int_part].
  change (Json.is_digit 49) with true. cbv iota.
  change (49%N :: repeat 49%N n) with (repeat 49%N (S n)).
  rewrite scan_digits_ones.
  cbn [Json.scan_frac Json.scan_exp]. rewrite repeat_length.
  unfold Json.too_many_digits.
  assert (E1 : (640 <? S n) = true) by (apply Nat.ltb_lt; lia).
  assert (E2 : (0 <? int_max_str_digits lim) = true) by (apply Nat.ltb_lt; lia).
  assert (E3 : (int_max_str_digits lim <? S n) = true) by (apply Nat.ltb_lt; lia).
  now rewrite E1, E2, E3.
Qed.

(** A run in which the handler of the reply lets an exception through:
    nothing after line 157 is reached. *)
Lemma uncaught_reply_ends_run (lim : limits) (dumps : pyval -> pystr)
    (fuel : nat) (pg : page) (s : store) (raw : pystr) (e : pyexn) :
  submit_clicked pg = true -> natural_language_input pg <> [] ->
  interpret lim (Some raw) = Uncaught e ->
  main lim dumps (fun _ => Answered (Some raw)) fuel pg s
  = {| session_after := initialize_session_state s;
       warned := false;
       progress := NotReached e;
       chat_shown := None |}.
Proof.
  intros Hclick Htext Hi. unfold main, submit. rewrite Hclick.
  destruct (natural_language_input pg) as [|c r]; [contradiction|].
  cbv zeta. unfold get_ai_response. now rewrite Hi.
Qed.

(** X21: a reply of more opening brackets than the decoder may still
    nest is not a chat answer and not a list: [json.loads] raises
    [RecursionError], which the [except] clause of line 161 does not
    catch. The run ends at line 157: the session is what it was, and
    neither the list nor the chat answer is put on the page. *)
Theorem deep_reply_ends_the_run (lim : limits) (dumps : pyval -> pystr)
    (fuel : nat) (pg : page) (s : store) (n : nat)
    (Hdeep : recursion_left lim < n)
    (Hclick : submit_clicked pg = true)
    (Htext : natural_language_input pg <> []) :
  interpret lim (Some (repeat 91%N n)) = Uncaught RecursionError
  /\ main lim dumps (fun _ => Answered (Some (repeat 91%N n))) fuel pg s
     = {| session_after := initialize_session_state s;
          warned := false;
          progress := NotReached RecursionError;
          chat_shown := None |}.
Proof.
  assert (H : interpret lim (Some (repeat 91%N n)) = Uncaught RecursionError).
  { rewrite reply_replaces_or_is_kept by (destruct n; [lia|discriminate]).
    rewrite cleaned_repeat by reflexivity.
    unfold Json.loads. rewrite repeat_length.
    destruct n as [|n]; [lia|].
    change (startswith (repeat 91%N (S n)) [65279%N]) with false. cbv iota.
    change (Json.skip_ws (repeat 91%N (S n))) with (repeat 91%N (S n)).
    rewrite brackets_too_deep by lia. reflexivity. }
  split; [exact H|]. now apply uncaught_reply_ends_run.
Qed.

Lemma deep_reply_ends_the_run_witness :
  interpret sample_limits (Some (repeat 91%N 901)) = Uncaught RecursionError
  /\ main sample_limits (fun _ => []) (fun _ => Answered (Some (repeat 91%N 901)))
       3 (mkPage (py "x") true quiet) (mkStore None None)
     = {| session_after := initialize_session_state (mkStore None None);
          warned := false;
          progress := NotReached RecursionError;
          chat_shown := None |}.
Proof.
  apply (deep_reply_ends_the_run sample_limits (fun _ => []) 3
           (mkPage (py "x") true quiet) (mkStore None None) 901).
  - cbn. lia.
  - reflexivity.
  - discriminate.
Defined.

(** X22: a reply that is one integer literal of more digits than
    [int] takes (more than 640, and more than the limit of the
    interpreter when there is one) is not a chat answer and not a list:
    [json.loads] raises [ValueError], which line 161 does not catch, and
    the run ends at line 157 with the session as it was. *)
Theorem long_integer_reply_ends_the_run (lim : limits) (dumps : pyval -> pystr)
    (fuel : nat) (pg : page) (s : store) (n : nat)
    (Hlimit : 0 < int_max_str_digits lim)
    (Hlong : 640 < n)
    (Hover : int_max_str_digits lim < n)
    (Hclick : submit_clicked pg = true)
    (Htext : natural_language_input pg <> []) :
  interpret lim (Some (repeat 49%N n)) = Uncaught ValueError
  /\ main lim dumps (fun _ => Answered (Some (repeat 49%N n))) fuel pg s
     = {| session_after := initialize_session_state s;
          warned := false;
          progress := NotReached ValueError;
          chat_shown := None |}.
Proof.
  assert (H : interpret lim (Some (repeat 49%N n)) = Uncaught ValueError).
  { rewrite reply_replaces_or_is_kept by (destruct n; [lia|discriminate]).
    rewrite cleaned_repeat by reflexivity.
    now rewrite integer_too_long. }
  split; [exact H|]. now apply uncaught_reply_ends_run.
Qed.

Lemma long_integer_reply_ends_the_run_witness :
  interpret sample_limits (Some (repeat 49%N 4301)) = Uncaught ValueError
  /\ main sample_limits (fun _ => []) (fun _ => Answered (Some (repeat 49%N 4301)))
       3 (mkPage (py "x") true quiet) (mkStore None None)
     = {| session_after := initialize_session_state (mkStore None None);
          warned := false;
          progress := NotReached ValueError;
          chat_shown := None |}.
Proof.
  apply (long_integer_reply_ends_the_run sample_limits (fun _ => []) 3
           (mkPage (py "x") true quiet) (mkStore None None) 4301).
  - cbn. lia.
  - lia.
  - cbn. lia.
  - reflexivity.
  - discriminate.
Defined.
